(** * Data-preparation steps of [allennlp/steps/examples.py]

    A shallow embedding of the four steps registered in
    [allennlp/steps/examples.py] -- [HuggingfaceDataset] ("hf_dataset"),
    [TextOnlyDataset] ("text_only"), [Tokenize] ("hf_tokenizer") and
    [PiqaInstances] ("piqa_instances") -- and the properties of their [run]
    methods.

    Conventions of the embedding:
    - Python exceptions are the [Raise] results of [outcome]; a [run] method is
      a computation of the monad [M], which threads the object store and the
      log of the root logger and keeps the effects that happened before an
      exception.
    - A Python [dict] with string keys is the list of its [items()], in
      insertion order (the keys of a dict are pairwise distinct).  A dict that
      is filled key by key, possibly with repeated keys, is a [gmap]
      ([string_to_field]) or is built with [dict_setitem] ([result]).
    - A Python [set] is a [gset]; the order in which a [for] loop visits it is
      not fixed by the language and is a parameter ([set_iter]).
    - The tokenizer library, the dataset library, [re] and the [Vocabulary]
      class are outside the file: they are the members of class [Externals]. *)

From Stdlib Require Import ZArith String Ascii DecimalString.
From stdpp Require Import base option list gmap strings sorting fin_maps fin_sets.

Local Open Scope Z_scope.

(** ** Exceptions *)

Inductive exn : Type :=
| AssertionError
| KeyError (key : string)
| IndexError
| AttributeError (attribute : string)
| RuntimeError
| LibraryError (message : string)
| BadReference.
(* [LibraryError] stands for whatever an external library raises (an unknown
   tokenizer or dataset name, an invalid regular expression, ...).
   [BadReference] is not a Python exception: a Python reference always
   designates a live object of the expected class, a location of the model's
   store may not, and the model stops there. *)

Inductive outcome (A : Type) : Type :=
| Ok (a : A)
| Raise (e : exn).
Arguments Ok {A} a.
Arguments Raise {A} e.

Global Instance outcome_ret : MRet outcome := λ A, Ok.
Global Instance outcome_bind : MBind outcome :=
  λ A B f m, match m with Ok a => f a | Raise e => Raise e end.
Global Instance outcome_fmap : FMap outcome :=
  λ A B f m, match m with Ok a => Ok (f a) | Raise e => Raise e end.

(** [for x in xs: ...] collecting the results, stopping at the first
    exception. *)
Fixpoint for_each {A B} (f : A → outcome B) (xs : list A) : outcome (list B) :=
  match xs with
  | [] => Ok []
  | x :: rest =>
      match f x with
      | Ok y => match for_each f rest with
                | Ok ys => Ok (y :: ys)
                | Raise e => Raise e
                end
      | Raise e => Raise e
      end
  end.

(** [xs[i]] for a non-negative index. *)
Definition list_getitem {A} (xs : list A) (i : nat) : outcome A :=
  match xs !! i with
  | Some x => Ok x
  | None => Raise IndexError
  end.

(** [d[k]] on a dict kept as a [gmap]. *)
Definition dict_getitem {V} (d : gmap string V) (k : string) : outcome V :=
  match d !! k with
  | Some v => Ok v
  | None => Raise (KeyError k)
  end.

(** [try: body / except KeyError: handler]. *)
Definition try_except_KeyError {A} (body handler : outcome A) : outcome A :=
  match body with
  | Raise (KeyError _) => handler
  | other => other
  end.

(** [d[k] = v] on a dict kept as the list of its items: an existing key keeps
    its place, a new key goes last. *)
Fixpoint dict_setitem {V} (d : list (string * V)) (k : string) (v : V)
  : list (string * V) :=
  match d with
  | [] => [(k, v)]
  | (k', v') :: rest =>
      if String.eqb k' k then (k', v) :: rest
      else (k', v') :: dict_setitem rest k v
  end.

(** [d[k]] on a dict kept as the list of its items. *)
Fixpoint items_getitem {V} (d : list (string * V)) (k : string) : outcome V :=
  match d with
  | [] => Raise (KeyError k)
  | (k', v) :: rest => if String.eqb k' k then Ok v else items_getitem rest k
  end.

(** ** Tensors and fields *)

Inductive Tensor : Type :=
| IntTensor (data : list Z)            (* 1-d, dtype=torch.int32 *)
| BoolTensor (data : list bool)        (* 1-d, dtype=torch.bool *)
| IntTensor2 (rows : list (Z * Z)).    (* n x 2, dtype=torch.int32 *)

Definition int32_ok (z : Z) : bool := (- 2 ^ 31 <=? z) && (z <? 2 ^ 31).

(** [torch.tensor(xs, dtype=torch.int32)]: a value that does not fit 32 bits
    is refused by torch. *)
Definition tensor_int32 (xs : list Z) : outcome Tensor :=
  if forallb int32_ok xs then Ok (IntTensor xs) else Raise RuntimeError.

(** [torch.tensor(xs, dtype=torch.bool)]. *)
Definition tensor_bool (xs : list Z) : outcome Tensor :=
  Ok (BoolTensor (map (λ z, negb (z =? 0)) xs)).

(** [torch.tensor(pairs, dtype=torch.int32)] on a list of (start, end). *)
Definition tensor_int32_pairs (xs : list (Z * Z)) : outcome Tensor :=
  if forallb (λ p, int32_ok (fst p) && int32_ok (snd p)) xs
  then Ok (IntTensor2 xs) else Raise RuntimeError.

(** Modelled from the spec: the tensor-backed text field, a class of
    [allennlp/data/fields] that is not in this file.  The fields are the
    arguments that [Tokenize.run] gives its constructor, in that order;
    [PiqaInstances.run] gives the first two, the others default to [None] and
    the padding token id to 0. *)
Record TransformerTextField : Type := mkTransformerTextField {
  input_ids : Tensor;
  token_type_ids : option Tensor;
  attention_mask : option Tensor;
  special_tokens_mask : option Tensor;
  offsets_mapping : option Tensor;
  padding_token_id : option Z
}.

(** Modelled from the spec: the list and index fields, classes of
    [allennlp/data/fields] that are not in this file.  [ListField(fields)]
    holds the list it is given, [IndexField(index, sequence_field)] an index
    into the list field it is given. *)
Record ListField : Type := mkListField { field_list : list TransformerTextField }.

Record IndexField : Type := mkIndexField {
  sequence_index : Z;
  sequence_field : ListField
}.

Inductive Field : Type :=
| FieldText (f : TransformerTextField)
| FieldList (f : ListField)
| FieldIndex (f : IndexField).

(** Modelled from the spec: an instance is a mapping from field name to field
    value; [Instance(fields)] holds the dict it is given.  The class is not
    in this file. *)
Record Instance : Type := mkInstance { fields : list (string * Field) }.

(** ** Values held by a dataset *)

#[local] Unset Elimination Schemes.
Inductive pyobj : Type :=
| PStr (s : string)
| PInt (z : Z)
| PNone
| PList (l : list pyobj)
| PDict (d : list (string * pyobj))
| PDataset (rows : list pyobj)
| PField (f : Field)
| PInstance (i : Instance).
#[local] Set Elimination Schemes.

(** The value of a split: a Python list (what the steps of this file build)
    or a [datasets.Dataset] (what [load_dataset] returns). *)
Inductive Split : Type :=
| SList (l : list pyobj)
| SDataset (rows : list pyobj).

(** [for instance in split]. *)
Definition split_items (s : Split) : list pyobj :=
  match s with SList l => l | SDataset l => l end.

Definition pyobj_of_split (s : Split) : pyobj :=
  match s with SList l => PList l | SDataset l => PDataset l end.

Abbreviation loc := positive.

(** Modelled from the spec: the dataset wrapper object, a dataclass of
    [allennlp/steps/dataset.py], which is not in this file.  Its constructor
    takes the splits, the vocabulary (or [None]) and the metadata, in the
    order in which [HuggingfaceDataset.run] gives them; [Tokenize.run] and
    [PiqaInstances.run] leave the metadata to its default, taken to be the
    empty dict.  The vocabulary is a reference to an object of the store. *)
Record AllenNlpDataset : Type := mkAllenNlpDataset {
  splits : list (string * Split);
  vocab : option loc;
  metadata : list (string * pyobj)
}.

(** A row of the "piqa" dataset: the four columns that [PiqaInstances.run]
    reads, at the types of the dataset's schema. *)
Record PiqaRow : Type := mkPiqaRow {
  goal : string;
  sol1 : string;
  sol2 : string;
  label : Z
}.

(** ** The tokenizer interface *)

Inductive TextInput : Type :=
| Text (s : string)
| TextPair (a b : string).

Record EncodeOptions : Type := mkEncodeOptions {
  opt_add_special_tokens : bool;
  opt_truncation : bool;
  opt_max_length : option Z;
  opt_return_token_type_ids : bool;
  opt_return_attention_mask : bool;
  opt_return_special_tokens_mask : bool;
  opt_return_offsets_mapping : bool
}.

(** What [batch_encode_plus] returns: one row per input under each key. *)
Record BatchEncoding : Type := mkBatchEncoding {
  enc_input_ids : list (list Z);
  enc_token_type_ids : list (list Z);
  enc_attention_mask : option (list (list Z));
  enc_special_tokens_mask : option (list (list Z));
  enc_offset_mapping : option (list (list (Z * Z)))
}.

Class Externals : Type := {
  Tokenizer : Type;
  (* cached_transformers.get_tokenizer *)
  get_tokenizer : string → outcome Tokenizer;
  pad_token_type_id : Tokenizer → Z;
  pad_token_id : Tokenizer → option Z;
  batch_encode_plus : Tokenizer → list TextInput → EncodeOptions → outcome BatchEncoding;
  (* datasets.load_dataset(name): split name -> rows *)
  load_dataset : string → outcome (list (string * list pyobj));
  (* datasets.load_dataset("piqa"), read at the schema of that dataset *)
  load_piqa : outcome (list (string * list PiqaRow));
  Regex : Type;
  re_compile : string → outcome Regex;
  fullmatch : Regex → string → bool;
  Vocabulary : Type;
  Vocabulary_empty : Vocabulary;
  (* vocab.add_transformer_vocab(tokenizer, namespace), as the new content *)
  add_transformer_vocab : Tokenizer → string → Vocabulary → Vocabulary
}.

(** The iteration order of a Python set of strings. *)
Class SetOrder : Type := {
  set_iter : gset string → list string;
  set_iter_perm : ∀ X, set_iter X ≡ₚ elements X
}.

(** ** Strings *)

(** [s.lstrip(".")]. *)
Fixpoint lstrip_dot (s : string) : string :=
  match s with
  | String c rest => if Ascii.eqb c "." then lstrip_dot rest else s
  | EmptyString => EmptyString
  end.

(** [str(i)] for an index. *)
Definition str_of_nat (i : nat) : string := NilEmpty.string_of_uint (Nat.to_uint i).

(** [f"{prefix}.{name}"]. *)
Definition dotted (prefix name : string) : string := prefix +:+ "." +:+ name.

(** Induction on the values of a dataset, through lists and dicts. *)
Section pyobj_ind.
Variable P : pyobj → Prop.
Hypothesis HStr : ∀ s, P (PStr s).
Hypothesis HInt : ∀ z, P (PInt z).
Hypothesis HNone : P PNone.
Hypothesis HList : ∀ l, Forall P l → P (PList l).
Hypothesis HDict : ∀ d, Forall (λ kv, P (snd kv)) d → P (PDict d).
Hypothesis HDataset : ∀ rows, Forall P rows → P (PDataset rows).
Hypothesis HField : ∀ f, P (PField f).
Hypothesis HInstance : ∀ i, P (PInstance i).

Fixpoint pyobj_ind (o : pyobj) : P o :=
  match o with
  | PStr s => HStr s
  | PInt z => HInt z
  | PNone => HNone
  | PList l =>
      HList l ((fix go (l : list pyobj) : Forall P l :=
                  match l with
                  | [] => Forall_nil_2 P
                  | x :: rest => Forall_cons_2 P x rest (pyobj_ind x) (go rest)
                  end) l)
  | PDict d =>
      HDict d ((fix go (d : list (string * pyobj)) : Forall (λ kv, P (snd kv)) d :=
                  match d with
                  | [] => Forall_nil_2 _
                  | (k, v) :: rest => Forall_cons_2 _ (k, v) rest (pyobj_ind v) (go rest)
                  end) d)
  | PDataset rows =>
      HDataset rows ((fix go (l : list pyobj) : Forall P l :=
                        match l with
                        | [] => Forall_nil_2 P
                        | x :: rest => Forall_cons_2 P x rest (pyobj_ind x) (go rest)
                        end) rows)
  | PField f => HField f
  | PInstance i => HInstance i
  end.
End pyobj_ind.

Section Steps.
Context `{Ext : Externals}.

(** ** The object store and the monad of the [run] methods *)

Inductive obj : Type :=
| ObjVocab (v : Vocabulary)
| ObjDataset (d : AllenNlpDataset).

Record state : Type := mkState {
  heap : gmap loc obj;
  log : list string          (* messages of the root logger, oldest first *)
}.

Definition M (A : Type) : Type := state → outcome A * state.

Global Instance M_ret : MRet M := λ A a σ, (Ok a, σ).
Global Instance M_bind : MBind M :=
  λ A B f m σ, match m σ with
               | (Ok a, σ') => f a σ'
               | (Raise e, σ') => (Raise e, σ')
               end.

Definition lift {A} (o : outcome A) : M A := λ σ, (o, σ).

(** [assert b]. *)
Definition py_assert (b : bool) : M unit :=
  if b then mret () else lift (Raise AssertionError).

(** A new object, at a location the store does not use yet. *)
Definition alloc (o : obj) : M loc :=
  λ σ, let l := fresh (dom (heap σ) : gset loc) in
       (Ok l, mkState (<[l := o]> (heap σ)) (log σ)).

Definition read_dataset (l : loc) : M AllenNlpDataset :=
  λ σ, match heap σ !! l with
       | Some (ObjDataset d) => (Ok d, σ)
       | _ => (Raise BadReference, σ)
       end.

Definition read_vocab (l : loc) : M Vocabulary :=
  λ σ, match heap σ !! l with
       | Some (ObjVocab v) => (Ok v, σ)
       | _ => (Raise BadReference, σ)
       end.

(** A method call that changes the vocabulary object at [l] in place. *)
Definition update_vocab (l : loc) (f : Vocabulary → Vocabulary) : M unit :=
  λ σ, match heap σ !! l with
       | Some (ObjVocab v) =>
           (Ok (), mkState (<[l := ObjVocab (f v)]> (heap σ)) (log σ))
       | _ => (Raise BadReference, σ)
       end.

(** [copy.deepcopy(vocab)]. *)
Definition deepcopy_vocab (l : loc) : M loc :=
  v ← read_vocab l; alloc (ObjVocab v).

(** [logging.info(msg)]. *)
Definition logging_info (msg : string) : M unit :=
  λ σ, (Ok (), mkState (heap σ) (log σ ++ [msg])).

(** [for x in xs: body(x)]. *)
Fixpoint for_loop {A} (body : A → M unit) (xs : list A) : M unit :=
  match xs with
  | [] => mret ()
  | x :: rest => _ ← body x; for_loop body rest
  end.

(** [sorted(xs)] on strings. *)
Definition sorted (xs : list string) : list string := merge_sort String.le xs.

(** ** HuggingfaceDataset ("hf_dataset") *)

Definition HuggingfaceDataset_run (dataset_name : string) : M loc :=
  ds ← lift (load_dataset dataset_name);
  alloc (ObjDataset
           (mkAllenNlpDataset
              (map (λ kv, (kv.1, SDataset kv.2)) ds)
              None
              [("source", PStr "huggingface")])).

(** ** TextOnlyDataset ("text_only") *)

(** [o.items()]: a dict has items, and so has an [Instance], which is a
    mapping from field names to fields. *)
Definition py_items (o : pyobj) : outcome (list (string * pyobj)) :=
  match o with
  | PDict d => Ok d
  | PInstance i => Ok (map (λ kf, (kf.1, PField kf.2)) (fields i))
  | _ => Raise (AttributeError "items")
  end.

(** [[{"text": field_value} for field_name, field_value in instance.items()
       if field_name in fields_to_keep]]. *)
Definition text_only_instance (fields_to_keep : gset string)
    (instance : pyobj) : outcome (list pyobj) :=
  items ← py_items instance;
  Ok (map (λ kv, PDict [("text", kv.2)])
          (filter (λ kv, kv.1 ∈ fields_to_keep) items)).

(** The list comprehension over a split. *)
Definition text_only_split (fields_to_keep : gset string)
    (split : Split) : outcome (list pyobj) :=
  concat (A:=pyobj) <$> for_each (text_only_instance fields_to_keep) (split_items split).

Definition TextOnlyDataset_run (input : loc) (fields_to_keep : gset string) : M loc :=
  d ← read_dataset input;
  new_splits ← lift (for_each
                       (λ kv, rows ← text_only_split fields_to_keep kv.2;
                              Ok (kv.1, SList rows))
                       (splits d));
  alloc (ObjDataset (mkAllenNlpDataset new_splits (vocab d) (metadata d))).

(** ** Tokenize ("hf_tokenizer") *)

Definition should_tokenize_field (regexes_to_tokenize : option (list Regex))
    (field_name : string) : bool :=
  match regexes_to_tokenize with
  | None => true
  | Some rs => existsb (λ r, fullmatch r field_name) rs
  end.

(** The generator [find_string_objects], as the list of what it yields. *)
Fixpoint find_string_objects (should : string → bool) (o : pyobj)
    (prefix : string) : list (string * string) :=
  let prefix := lstrip_dot prefix in
  match o with
  | PStr s => if should prefix then [(prefix, s)] else []
  | PList l =>
      (fix items (l : list pyobj) (i : nat) : list (string * string) :=
         match l with
         | [] => []
         | item :: rest =>
             find_string_objects should item (dotted prefix (str_of_nat i))
               ++ items rest (S i)
         end) l 0%nat
  | PDict d =>
      (fix items (d : list (string * pyobj)) : list (string * string) :=
         match d with
         | [] => []
         | (name, item) :: rest =>
             find_string_objects should item (dotted prefix name) ++ items rest
         end) d
  | _ => []
  end.

(** What the loops over [input.splits] collect: (field name, string). *)
Definition found_strings (should : string → bool)
    (input_splits : list (string * Split)) : list (string * string) :=
  flat_map (λ kv, flat_map (λ instance, find_string_objects should instance "")
                           (split_items kv.2))
           input_splits.

Definition tokenize_options (add_special_tokens : bool) (max_length : option Z)
    (special_tokens_mask offset_mapping : bool) : EncodeOptions :=
  {| opt_add_special_tokens := add_special_tokens;
     opt_truncation := bool_decide (max_length ≠ None);
     opt_max_length := max_length;
     opt_return_token_type_ids := true;
     opt_return_attention_mask := false;
     opt_return_special_tokens_mask := special_tokens_mask;
     opt_return_offsets_mapping := offset_mapping |}.

(** [torch.tensor(rows[i], ...) if key in encoded else None]. *)
Definition optional_tensor {A} (rows : option (list A)) (i : nat)
    (tensor : A → outcome Tensor) : outcome (option Tensor) :=
  match rows with
  | Some rows => row ← list_getitem rows i; t ← tensor row; Ok (Some t)
  | None => Ok None
  end.

(** The [TransformerTextField] built from entry [i] of the batch encoding. *)
Definition make_field (tokenizer : Tokenizer) (encoded : BatchEncoding)
    (i : nat) : outcome TransformerTextField :=
  ids ← list_getitem (enc_input_ids encoded) i;
  t_ids ← tensor_int32 ids;
  types ← list_getitem (enc_token_type_ids encoded) i;
  t_types ← tensor_int32 types;
  t_attention ← optional_tensor (enc_attention_mask encoded) i tensor_bool;
  t_special ← optional_tensor (enc_special_tokens_mask encoded) i tensor_bool;
  t_offsets ← optional_tensor (enc_offset_mapping encoded) i tensor_int32_pairs;
  Ok (mkTransformerTextField t_ids (Some t_types) t_attention t_special
        t_offsets (pad_token_id tokenizer)).

(** The dict comprehension [string_to_field], entry [i] onwards: a string
    that comes again takes the field of its later entry. *)
Fixpoint make_string_to_field (tokenizer : Tokenizer) (encoded : BatchEncoding)
    (strings : list string) (i : nat)
    (acc : gmap string TransformerTextField)
  : outcome (gmap string TransformerTextField) :=
  match strings with
  | [] => Ok acc
  | s :: rest =>
      f ← make_field tokenizer encoded i;
      make_string_to_field tokenizer encoded rest (S i) (<[s := f]> acc)
  end.

Fixpoint replace_string_objects (string_to_field : gmap string TransformerTextField)
    (o : pyobj) : outcome pyobj :=
  match o with
  | PStr s =>
      try_except_KeyError
        (f ← dict_getitem string_to_field s; Ok (PField (FieldText f)))
        (Ok o)
  | PList l | PDataset l =>
      PList <$> for_each (replace_string_objects string_to_field) l
  | PDict d =>
      PDict <$> (fix items (d : list (string * pyobj)) : outcome (list (string * pyobj)) :=
                   match d with
                   | [] => Ok []
                   | (key, value) :: rest =>
                       value' ← replace_string_objects string_to_field value;
                       rest' ← items rest;
                       Ok ((key, value') :: rest')
                   end) d
  | _ => Ok o
  end.

(** [replace_string_objects(split_data)]: a split is a list or a Dataset,
    and a Python list comes back. *)
Definition replace_split (string_to_field : gmap string TransformerTextField)
    (split_data : Split) : outcome Split :=
  SList <$> for_each (replace_string_objects string_to_field) (split_items split_data).

Definition compile_regexes (fields_to_tokenize : option (list string))
  : outcome (option (list Regex)) :=
  match fields_to_tokenize with
  | None => Ok None
  | Some rs => Some <$> for_each re_compile rs
  end.

Context `{Ord : SetOrder}.

(** The statements of [Tokenize.run] after the assertion. *)
Definition Tokenize_body (tokenizer : Tokenizer) (input : loc)
    (fields_to_tokenize : option (list string)) (add_special_tokens : bool)
    (max_length : option Z) (special_tokens_mask offset_mapping : bool) : M loc :=
  regexes_to_tokenize ← lift (compile_regexes fields_to_tokenize);
  d ← read_dataset input;
  let found := found_strings (should_tokenize_field regexes_to_tokenize) (splits d) in
  let field_names_used : gset string := list_to_set found.*1 in
  let strings := found.*2 in
  _ ← for_loop (λ field_name, logging_info ("Tokenizing field " +:+ field_name))
               (sorted (set_iter field_names_used));
  encoded ← lift (batch_encode_plus tokenizer (Text <$> strings)
                    (tokenize_options add_special_tokens max_length
                       special_tokens_mask offset_mapping));
  string_to_field ← lift (make_string_to_field tokenizer encoded strings 0 ∅);
  new_splits ← lift (for_each
                       (λ kv, data ← replace_split string_to_field kv.2;
                              Ok (kv.1, data))
                       (splits d));
  vocab ← match vocab d with
          | Some l => deepcopy_vocab l
          | None => alloc (ObjVocab Vocabulary_empty)
          end;
  _ ← for_loop (λ name, update_vocab vocab (add_transformer_vocab tokenizer name))
               (set_iter field_names_used);
  alloc (ObjDataset (mkAllenNlpDataset new_splits (Some vocab) [])).

Definition Tokenize_run (tokenizer_name : string) (input : loc)
    (fields_to_tokenize : option (list string)) (add_special_tokens : bool)
    (max_length : option Z) (special_tokens_mask offset_mapping : bool) : M loc :=
  tokenizer ← lift (get_tokenizer tokenizer_name);
  _ ← py_assert (bool_decide (pad_token_type_id tokenizer = 0));
  Tokenize_body tokenizer input fields_to_tokenize add_special_tokens
    max_length special_tokens_mask offset_mapping.

(** ** PiqaInstances ("piqa_instances") *)

(** An entry of the intermediate [dataset]. *)
Record PiqaItem : Type := mkPiqaItem {
  correct_alternative : Z;
  alternatives : list TextInput
}.

Definition piqa_item (instance : PiqaRow) : PiqaItem :=
  {| correct_alternative := label instance;
     alternatives := [TextPair (goal instance) (sol1 instance);
                      TextPair (goal instance) (sol2 instance)] |}.

Definition piqa_options (max_length : Z) : EncodeOptions :=
  {| opt_add_special_tokens := true;
     opt_truncation := true;
     opt_max_length := Some max_length;
     opt_return_token_type_ids := true;
     opt_return_attention_mask := false;
     opt_return_special_tokens_mask := false;
     opt_return_offsets_mapping := false |}.

(** [TransformerTextField(torch.tensor(input_ids[alt_index]),
                          torch.tensor(token_type_ids[alt_index]))]. *)
Definition piqa_alternative_field (tokenized_alts : BatchEncoding)
    (alt_index : nat) : outcome TransformerTextField :=
  ids ← list_getitem (enc_input_ids tokenized_alts) alt_index;
  t_ids ← tensor_int32 ids;
  types ← list_getitem (enc_token_type_ids tokenized_alts) alt_index;
  t_types ← tensor_int32 types;
  Ok (mkTransformerTextField t_ids (Some t_types) None None None (Some 0)).

(** The body of the loop over [enumerate(instances)]. *)
Definition piqa_instance (tokenized_alts : BatchEncoding) (i : nat)
    (instance : PiqaItem) : outcome Instance :=
  alts ← mkListField <$> for_each (piqa_alternative_field tokenized_alts)
                                  [2 * i; 2 * i + 1]%nat;
  let fields := [("alternatives", FieldList alts)] in
  let fields :=
    if bool_decide (0 ≤ correct_alternative instance)
    then dict_setitem fields "correct_alternative"
           (FieldIndex (mkIndexField (correct_alternative instance) alts))
    else fields in
  Ok (mkInstance fields).

Fixpoint piqa_results_per_split (tokenized_alts : BatchEncoding) (i : nat)
    (instances : list PiqaItem) : outcome (list Instance) :=
  match instances with
  | [] => Ok []
  | instance :: rest =>
      r ← piqa_instance tokenized_alts i instance;
      rs ← piqa_results_per_split tokenized_alts (S i) rest;
      Ok (r :: rs)
  end.

(** The loop filling [result], split by split. *)
Fixpoint piqa_result (tokenized : list (string * BatchEncoding))
    (dataset_items : list (string * list PiqaItem))
    (result : list (string * Split)) : outcome (list (string * Split)) :=
  match dataset_items with
  | [] => Ok result
  | (split_name, instances) :: rest =>
      tokenized_alts ← items_getitem tokenized split_name;
      results_per_split ← piqa_results_per_split tokenized_alts 0 instances;
      piqa_result tokenized rest
        (dict_setitem result split_name (SList (PInstance <$> results_per_split)))
  end.

(** The statements of [PiqaInstances.run] after the assertion. *)
Definition PiqaInstances_body (tokenizer : Tokenizer) (max_length : Z) : M loc :=
  raw ← lift load_piqa;
  let dataset := map (λ kv, (kv.1, piqa_item <$> kv.2)) raw in
  tokenized ← lift (for_each
                      (λ kv, enc ← batch_encode_plus tokenizer
                                     (flat_map alternatives kv.2)
                                     (piqa_options max_length);
                             Ok (kv.1, enc))
                      dataset);
  result ← lift (piqa_result tokenized dataset []);
  vocab ← alloc (ObjVocab Vocabulary_empty);
  _ ← update_vocab vocab (add_transformer_vocab tokenizer "tokens");
  alloc (ObjDataset (mkAllenNlpDataset result (Some vocab) [])).

Definition PiqaInstances_run (tokenizer_name : string) (max_length : Z) : M loc :=
  tokenizer ← lift (get_tokenizer tokenizer_name);
  _ ← py_assert (bool_decide (pad_token_type_id tokenizer = 0));
  PiqaInstances_body tokenizer max_length.

(** ** Reading a dataset of the store *)

(** One step into a value: an index of a list or a key of a dict. *)
Inductive access : Type :=
| Index (i : nat)
| Key (k : string).

Definition access_name (a : access) : string :=
  match a with Index i => str_of_nat i | Key k => k end.

Definition child (o : pyobj) (a : access) : option pyobj :=
  match o, a with
  | PList l, Index i => l !! i
  | PDict d, Key k =>
      match items_getitem d k with Ok v => Some v | Raise _ => None end
  | _, _ => None
  end.

(** The value at a position of an instance, through lists and dicts. *)
Fixpoint value_at (o : pyobj) (path : list access) : option pyobj :=
  match path with
  | [] => Some o
  | a :: rest =>
      match child o a with
      | Some x => value_at x rest
      | None => None
      end
  end.

(** The value at a position of instance [j] of split number [k] of the
    dataset at [l]. *)
Definition dataset_value (σ : state) (l : loc) (k j : nat)
    (path : list access) : option pyobj :=
  match heap σ !! l with
  | Some (ObjDataset d) =>
      kv ← splits d !! k;
      instance ← split_items kv.2 !! j;
      value_at instance path
  | _ => None
  end.

(** ** The registered steps *)

Inductive StepCall : Type :=
| hf_dataset (dataset_name : string)
| text_only (input : loc) (fields_to_keep : gset string)
| hf_tokenizer (tokenizer_name : string) (input : loc)
    (fields_to_tokenize : option (list string)) (add_special_tokens : bool)
    (max_length : option Z) (special_tokens_mask offset_mapping : bool)
| piqa_instances (tokenizer_name : string) (max_length : Z).

Definition run (call : StepCall) : M loc :=
  match call with
  | hf_dataset dataset_name => HuggingfaceDataset_run dataset_name
  | text_only input fields_to_keep => TextOnlyDataset_run input fields_to_keep
  | hf_tokenizer tokenizer_name input fields_to_tokenize add_special_tokens
      max_length special_tokens_mask offset_mapping =>
      Tokenize_run tokenizer_name input fields_to_tokenize add_special_tokens
        max_length special_tokens_mask offset_mapping
  | piqa_instances tokenizer_name max_length =>
      PiqaInstances_run tokenizer_name max_length
  end.

(** ** The vocabulary of the properties *)

(** The strings and field names that [Tokenize.run] collects from a dataset. *)
Definition found_in (regexes_to_tokenize : option (list Regex))
    (d : AllenNlpDataset) : list (string * string) :=
  found_strings (should_tokenize_field regexes_to_tokenize) (splits d).

(** [σ'] holds the same object as [σ] at every location of [D]. *)
Definition unchanged_on (D : gset loc) (σ σ' : state) : Prop :=
  ∀ l, l ∈ D → heap σ' !! l = heap σ !! l.

(** The values of the fields of one instance whose name is kept, in the order
    of the fields. *)
Fixpoint kept_values (fields_to_keep : gset string)
    (items : list (string * pyobj)) : list pyobj :=
  match items with
  | [] => []
  | (field_name, field_value) :: rest =>
      if bool_decide (field_name ∈ fields_to_keep)
      then field_value :: kept_values fields_to_keep rest
      else kept_values fields_to_keep rest
  end.

(** One instance [{"text": v}] for each (instance, field) pair of a split
    whose field name is kept and whose value is [v], in input order. *)
Fixpoint text_only_spec (fields_to_keep : gset string)
    (instances : list (list (string * pyobj))) : list pyobj :=
  match instances with
  | [] => []
  | items :: rest =>
      ((λ v, PDict [("text", v)]) <$> kept_values fields_to_keep items)
        ++ text_only_spec fields_to_keep rest
  end.

(** The dotted field name of a position, below [prefix]. *)
Fixpoint field_name (prefix : string) (path : list access) : string :=
  match path with
  | [] => lstrip_dot prefix
  | a :: rest => field_name (dotted (lstrip_dot prefix) (access_name a)) rest
  end.

(** The two loops of [find_string_objects]. *)
Definition find_in_list (should : string → bool) (prefix : string)
  : list pyobj → nat → list (string * string) :=
  fix items (l : list pyobj) (i : nat) : list (string * string) :=
    match l with
    | [] => []
    | item :: rest =>
        find_string_objects should item (dotted prefix (str_of_nat i))
          ++ items rest (S i)
    end.

Definition find_in_dict (should : string → bool) (prefix : string)
  : list (string * pyobj) → list (string * string) :=
  fix items (d : list (string * pyobj)) : list (string * string) :=
    match d with
    | [] => []
    | (name, item) :: rest =>
        find_string_objects should item (dotted prefix name) ++ items rest
    end.

(** [f] is the field that [Tokenize.run] builds from entry [i] of a batch
    encoding: its [input_ids] and [token_type_ids] are the tensors of the rows
    [i] under these keys. *)
Definition tokenize_field_of_entry (tokenizer : Tokenizer)
    (encoded : BatchEncoding) (i : nat) (f : TransformerTextField) : Prop :=
  make_field tokenizer encoded i = Ok f
  ∧ ∃ ids types,
      enc_input_ids encoded !! i = Some ids
      ∧ enc_token_type_ids encoded !! i = Some types
      ∧ input_ids f = IntTensor ids
      ∧ token_type_ids f = Some (IntTensor types).

(** The loop of [replace_string_objects] over the items of a dict. *)
Definition replace_in_dict (string_to_field : gmap string TransformerTextField)
  : list (string * pyobj) → outcome (list (string * pyobj)) :=
  fix items (d : list (string * pyobj)) : outcome (list (string * pyobj)) :=
    match d with
    | [] => Ok []
    | (key, value) :: rest =>
        value' ← replace_string_objects string_to_field value;
        rest' ← items rest;
        Ok ((key, value') :: rest')
    end.

(** [same_shape o o']: [o'] has the nesting structure of [o] -- a dict has the
    same keys in the same order, a list has the same length, a Dataset has
    become a list of the same length, a leaf that is not a string is the same
    leaf -- and a string is either the same string or a field. *)
#[local] Unset Elimination Schemes.
Inductive same_shape : pyobj → pyobj → Prop :=
| shape_str_kept s : same_shape (PStr s) (PStr s)
| shape_str_field s f : same_shape (PStr s) (PField (FieldText f))
| shape_int z : same_shape (PInt z) (PInt z)
| shape_none : same_shape PNone PNone
| shape_field f : same_shape (PField f) (PField f)
| shape_instance i : same_shape (PInstance i) (PInstance i)
| shape_list l l' :
    Forall2 same_shape l l' → same_shape (PList l) (PList l')
| shape_dataset rows l' :
    Forall2 same_shape rows l' → same_shape (PDataset rows) (PList l')
| shape_dict d d' :
    Forall2 (λ kv kv', kv'.1 = kv.1 ∧ same_shape kv.2 kv'.2) d d' →
    same_shape (PDict d) (PDict d').
#[local] Set Elimination Schemes.

(** [f] is the field with the tensors of entry [j] of a batch encoding, as
    [PiqaInstances.run] builds it. *)
Definition piqa_field_of_entry (encoded : BatchEncoding) (j : nat)
    (f : TransformerTextField) : Prop :=
  ∃ ids types,
    enc_input_ids encoded !! j = Some ids
    ∧ enc_token_type_ids encoded !! j = Some types
    ∧ f = mkTransformerTextField (IntTensor ids) (Some (IntTensor types))
            None None None (Some 0).

(** [reaches o path x]: [x] sits in [o] at [path], through lists and dicts;
    an item of a dict is reached by its key. *)
Inductive reaches : pyobj → list access → pyobj → Prop :=
| reaches_here o : reaches o [] o
| reaches_list l i x path y :
    l !! i = Some x → reaches x path y → reaches (PList l) (Index i :: path) y
| reaches_dict d k x path y :
    (k, x) ∈ d → reaches x path y → reaches (PDict d) (Key k :: path) y.

(** The names of the steps of a path, each after a dot: [".a.0.b"]. *)
Fixpoint dotted_path (path : list access) : string :=
  match path with
  | [] => ""
  | a :: rest => "." +:+ access_name a +:+ dotted_path rest
  end.

(** A value with every Dataset in it turned into the Python list of its
    rows. *)
Fixpoint materialize (o : pyobj) : pyobj :=
  match o with
  | PList l | PDataset l => PList (map materialize l)
  | PDict d => PDict (map (λ '(key, value), (key, materialize value)) d)
  | _ => o
  end.

(** No Dataset below the top of a value. *)
Fixpoint no_dataset (o : pyobj) : bool :=
  match o with
  | PList l => forallb no_dataset l
  | PDict d => forallb (λ '(_, value), no_dataset value) d
  | PDataset _ => false
  | _ => true
  end.

(** Every dataset of the store refers to a vocabulary of the store. *)
Definition store_ok (σ : state) : Prop :=
  ∀ l d lv, heap σ !! l = Some (ObjDataset d) → vocab d = Some lv →
            ∃ v, heap σ !! lv = Some (ObjVocab v).

(** The input ids and token type ids of a batch encoding fit 32 bits. *)
Definition ids_int32 (encoded : BatchEncoding) : bool :=
  forallb (forallb int32_ok) (enc_input_ids encoded)
  && forallb (forallb int32_ok) (enc_token_type_ids encoded).

(** Every number of a batch encoding that goes into an int32 tensor fits 32
    bits. *)
Definition encoding_int32 (encoded : BatchEncoding) : bool :=
  ids_int32 encoded
  && match enc_offset_mapping encoded with
     | Some rows =>
         forallb (forallb (λ p, int32_ok (fst p) && int32_ok (snd p))) rows
     | None => true
     end.

(** A batch encoding has a row number [i] under the two keys that
    [PiqaInstances.run] reads. *)
Definition piqa_has_entry (encoded : BatchEncoding) (i : nat) : bool :=
  (i <? length (enc_input_ids encoded))%nat
  && (i <? length (enc_token_type_ids encoded))%nat.

(** A batch encoding has a row number [i] under every key it holds. *)
Definition has_entry (encoded : BatchEncoding) (i : nat) : bool :=
  piqa_has_entry encoded i
  && from_option (λ rows, i <? length rows)%nat true (enc_attention_mask encoded)
  && from_option (λ rows, i <? length rows)%nat true (enc_special_tokens_mask encoded)
  && from_option (λ rows, i <? length rows)%nat true (enc_offset_mapping encoded).

End Steps.

(** ** A small concrete instance of the libraries

    A character-level tokenizer, two datasets and a vocabulary that records
    its namespaces; used to run the steps on concrete inputs. *)
Module Toy.

Definition char_ids (s : string) : list Z :=
  map (λ c, Z.of_nat (nat_of_ascii c)) (list_ascii_of_string s).

Definition truncate (o : EncodeOptions) (ids : list Z) : list Z :=
  match opt_truncation o, opt_max_length o with
  | true, Some n => take (Z.to_nat n) ids
  | _, _ => ids
  end.

Definition encode_one (o : EncodeOptions) (t : TextInput) : list Z * list Z :=
  match t with
  | Text s =>
      let ids := truncate o (char_ids s) in (ids, map (λ _, 0) ids)
  | TextPair a b =>
      (truncate o (char_ids a ++ char_ids b),
       truncate o (map (λ _, 0) (char_ids a) ++ map (λ _, 1) (char_ids b)))
  end.

Definition rows_of (inputs : list TextInput) (o : EncodeOptions) : BatchEncoding :=
  let rows := map (encode_one o) inputs in
  {| enc_input_ids := rows.*1;
     enc_token_type_ids := rows.*2;
     enc_attention_mask := None;
     enc_special_tokens_mask :=
       if opt_return_special_tokens_mask o
       then Some (map (λ r, map (λ _, 0) r.1) rows) else None;
     enc_offset_mapping := None |}.

(** A negative [max_length] is refused. *)
Definition batch (inputs : list TextInput) (o : EncodeOptions)
  : outcome BatchEncoding :=
  match opt_max_length o with
  | Some n => if n <? 0 then Raise (LibraryError "max_length")
              else Ok (rows_of inputs o)
  | None => Ok (rows_of inputs o)
  end.

(** A pattern with an open parenthesis only is refused. *)
Definition compile (pattern : string) : outcome string :=
  if String.eqb pattern "(" then Raise (LibraryError "re.error")
  else Ok pattern.

(** A tokenizer is known by its [pad_token_type_id]. *)
Definition tokenizers (name : string) : outcome Z :=
  if String.eqb name "char" then Ok 0
  else if String.eqb name "char-pad3" then Ok 3
  else Raise (LibraryError "unknown tokenizer").

Definition reviews : list (string * list pyobj) :=
  [("train", [PDict [("text", PStr "ab"); ("title", PStr "ab"); ("stars", PInt 5)];
              PDict [("text", PStr "c"); ("title", PStr "d"); ("stars", PInt 1)]]);
   ("test", [PDict [("text", PStr "e"); ("title", PStr "c"); ("stars", PNone)]])].

Definition datasets (name : string) : outcome (list (string * list pyobj)) :=
  if String.eqb name "reviews" then Ok reviews
  else Raise (LibraryError "unknown dataset").

Definition piqa : list (string * list PiqaRow) :=
  [("train", [mkPiqaRow "g" "s" "t" 1; mkPiqaRow "h" "u" "v" 0]);
   ("test", [mkPiqaRow "k" "w" "x" (-1)])].

(** Regular expressions are without operators: a pattern matches itself. *)
Definition ext : Externals :=
  {| Tokenizer := Z;
     get_tokenizer := tokenizers;
     pad_token_type_id := λ t, t;
     pad_token_id := λ _, Some 0;
     batch_encode_plus := λ _ inputs o, batch inputs o;
     load_dataset := datasets;
     load_piqa := Ok piqa;
     Regex := string;
     re_compile := compile;
     fullmatch := String.eqb;
     Vocabulary := gset string;
     Vocabulary_empty := ∅;
     add_transformer_vocab := λ _ namespace v, {[namespace]} ∪ v |}.

Definition elements_order : SetOrder :=
  {| set_iter := elements; set_iter_perm := λ X, reflexivity (elements X) |}.


Definition empty_state : @state ext := mkState ∅ [].

(** The store after "reviews" was loaded; the dataset is at location 1. *)
Definition loaded : @state ext :=
  (@HuggingfaceDataset_run ext "reviews" empty_state).2.

Definition reviews_dataset : AllenNlpDataset :=
  mkAllenNlpDataset (map (λ kv, (kv.1, SDataset kv.2)) reviews) None
    [("source", PStr "huggingface")].

(** [Tokenize.run] on the loaded dataset, for the field "text" only and for
    every field. *)
Definition tokenize_text (order : SetOrder) : outcome loc * @state ext :=
  @Tokenize_run ext order "char" 1%positive (Some ["text"]) true (Some 512)
    false false loaded.

Definition tokenize_all (order : SetOrder) : outcome loc * @state ext :=
  @Tokenize_run ext order "char" 1%positive None true (Some 512) false false loaded.

Definition text_only : outcome loc * @state ext :=
  @TextOnlyDataset_run ext 1%positive {["text"; "stars"]} loaded.

Definition piqa_instances_run : outcome loc * @state ext :=
  @PiqaInstances_run ext "char" 512 empty_state.

(** A store with one dataset, at location 1, whose second instance is a
    string and not a dict. *)
Definition notes_dataset : AllenNlpDataset :=
  mkAllenNlpDataset [("train", SList [PDict [("text", PStr "a")]; PStr "b"])]
    None [].

Definition notes : @state ext :=
  mkState {[1%positive := ObjDataset notes_dataset]} [].

End Toy.

(** ** A tokenizer that loses the last entry

    The libraries of [Toy], with a [batch_encode_plus] that returns no row for
    the last input of a batch. *)
Module Lossy.

Definition ext : Externals :=
  {| Tokenizer := Z;
     get_tokenizer := Toy.tokenizers;
     pad_token_type_id := λ t, t;
     pad_token_id := λ _, Some 0;
     batch_encode_plus := λ _ inputs o, Toy.batch (removelast inputs) o;
     load_dataset := Toy.datasets;
     load_piqa := Ok Toy.piqa;
     Regex := string;
     re_compile := Toy.compile;
     fullmatch := String.eqb;
     Vocabulary := gset string;
     Vocabulary_empty := ∅;
     add_transformer_vocab := λ _ namespace v, {[namespace]} ∪ v |}.

Definition empty_state : @state ext := mkState ∅ [].

Definition loaded : @state ext :=
  (@HuggingfaceDataset_run ext "reviews" empty_state).2.

End Lossy.

(** ** A vocabulary that records the order of its namespaces

    The libraries of [Toy], with a vocabulary that is the list of the
    namespaces added to it, in the order in which they were added. *)
Module Recording.

Definition ext : Externals :=
  {| Tokenizer := Z;
     get_tokenizer := Toy.tokenizers;
     pad_token_type_id := λ t, t;
     pad_token_id := λ _, Some 0;
     batch_encode_plus := λ _ inputs o, Toy.batch inputs o;
     load_dataset := Toy.datasets;
     load_piqa := Ok Toy.piqa;
     Regex := string;
     re_compile := Toy.compile;
     fullmatch := String.eqb;
     Vocabulary := list string;
     Vocabulary_empty := [];
     add_transformer_vocab := λ _ namespace v, v ++ [namespace] |}.

Definition empty_state : @state ext := mkState ∅ [].

Definition loaded : @state ext :=
  (@HuggingfaceDataset_run ext "reviews" empty_state).2.


End Recording.


(** * Properties *)

Section Properties.
Context `{Ext : Externals}.

(** ** Stepping through a computation *)

Lemma bind_Ok {A B} (m : M A) (f : A → M B) σ b σ' :
  mbind f m σ = (Ok b, σ') →
  ∃ a σ1, m σ = (Ok a, σ1) ∧ f a σ1 = (Ok b, σ').
Proof.
  unfold mbind, M_bind. destruct (m σ) as [[a|e] σ1]; [eauto | discriminate].
Qed.

Lemma bind_step {A B} (m : M A) (f : A → M B) σ a σ1 :
  m σ = (Ok a, σ1) → mbind f m σ = f a σ1.
Proof. unfold mbind, M_bind. by intros ->. Qed.

Lemma bind_raise {A B} (m : M A) (f : A → M B) σ e σ1 :
  m σ = (Raise e, σ1) → mbind f m σ = (Raise e, σ1).
Proof. unfold mbind, M_bind. by intros ->. Qed.

Lemma lift_Ok {A} (o : outcome A) σ a σ' :
  lift o σ = (Ok a, σ') → o = Ok a ∧ σ' = σ.
Proof. unfold lift. by intros [= -> ->]. Qed.

Lemma py_assert_Ok b σ u σ' : py_assert b σ = (Ok u, σ') → b = true ∧ σ' = σ.
Proof. destruct b; cbv; by intros [= <-]. Qed.

Lemma read_dataset_Ok l σ d σ' :
  read_dataset l σ = (Ok d, σ') → heap σ !! l = Some (ObjDataset d) ∧ σ' = σ.
Proof.
  unfold read_dataset. destruct (heap σ !! l) as [[v|d']|]; intros [= <- <-]; auto.
Qed.

Lemma read_dataset_at l σ d :
  heap σ !! l = Some (ObjDataset d) → read_dataset l σ = (Ok d, σ).
Proof. unfold read_dataset. by intros ->. Qed.

Lemma alloc_Ok o σ l σ' :
  alloc o σ = (Ok l, σ') →
  (l ∉ dom (heap σ)) ∧ σ' = mkState (<[l := o]> (heap σ)) (log σ).
Proof. unfold alloc. intros [= <- <-]. split; [apply is_fresh | done]. Qed.

Lemma update_vocab_at l f σ v :
  heap σ !! l = Some (ObjVocab v) →
  update_vocab l f σ = (Ok (), mkState (<[l := ObjVocab (f v)]> (heap σ)) (log σ)).
Proof. unfold update_vocab. by intros ->. Qed.

(** A loop of in-place updates of the vocabulary at [l] folds the updates
    over its content. *)
Lemma for_loop_update_vocab l (f : string → Vocabulary → Vocabulary) names h lg v :
  for_loop (λ name, update_vocab l (f name)) names
           (mkState (<[l := ObjVocab v]> h) lg)
  = (Ok (), mkState (<[l := ObjVocab (foldl (λ v name, f name v) v names)]> h) lg).
Proof.
  revert v. induction names as [|name names IH]; intros v; simpl.
  - done.
  - erewrite bind_step; last first.
    { apply update_vocab_at. simpl. apply lookup_insert_eq. }
    simpl. rewrite insert_insert_eq. apply IH.
Qed.

Lemma for_loop_logging_info (msg : string → string) xs σ :
  for_loop (λ x, logging_info (msg x)) xs σ
  = (Ok (), mkState (heap σ) (log σ ++ (msg <$> xs))).
Proof.
  revert σ. induction xs as [|x xs IH]; intros σ; simpl.
  - rewrite app_nil_r. by destruct σ.
  - unfold mbind, M_bind, logging_info at 1. rewrite IH. simpl.
    by rewrite <- app_assoc.
Qed.

(** ** The objects of the store that a computation leaves alone *)

Lemma unchanged_on_refl D σ : unchanged_on D σ σ.
Proof. by intros l _. Qed.

Lemma unchanged_on_trans D σ1 σ2 σ3 :
  unchanged_on D σ1 σ2 → unchanged_on D σ2 σ3 → unchanged_on D σ1 σ3.
Proof. intros H12 H23 l Hl. rewrite H23, H12; auto. Qed.

Lemma unchanged_on_insert D σ l o lg :
  l ∉ D → unchanged_on D σ (mkState (<[l := o]> (heap σ)) lg).
Proof. intros Hl l' Hl'. simpl. apply lookup_insert_ne. set_solver. Qed.

Lemma unchanged_on_log D σ lg : unchanged_on D σ (mkState (heap σ) lg).
Proof. by intros l _. Qed.

Lemma alloc_unchanged o σ r σ' :
  alloc o σ = (r, σ') → unchanged_on (dom (heap σ)) σ σ'.
Proof.
  unfold alloc. intros [= <- <-]. apply unchanged_on_insert, is_fresh.
Qed.

Lemma deepcopy_vocab_Ok l σ l' σ' :
  deepcopy_vocab l σ = (Ok l', σ') →
  ∃ v, heap σ !! l = Some (ObjVocab v) ∧ (l' ∉ dom (heap σ))
       ∧ σ' = mkState (<[l' := ObjVocab v]> (heap σ)) (log σ).
Proof.
  unfold deepcopy_vocab. intros (v & σ1 & Hr & Ha)%bind_Ok.
  unfold read_vocab in Hr.
  destruct (heap σ !! l) as [[v'|d]|] eqn:Hl; simplify_eq.
  apply alloc_Ok in Ha as [? ->]. eauto.
Qed.

Lemma deepcopy_vocab_Raise l σ e σ' :
  deepcopy_vocab l σ = (Raise e, σ') → σ' = σ.
Proof.
  unfold deepcopy_vocab, mbind, M_bind, read_vocab.
  destruct (heap σ !! l) as [[v'|d]|]; simpl; by intros [= <-].
Qed.

Context `{Ord : SetOrder}.

(** One statement of a [run] method: case on how it ends. *)
Ltac mstep H x σx E :=
  match type of H with
  | mbind _ ?m ?σ = _ =>
      destruct (m σ) as [[x|x] σx] eqn:E;
      [ rewrite (bind_step _ _ _ _ _ E) in H
      | rewrite (bind_raise _ _ _ _ _ E) in H ]
  end.

(** What a successful [Tokenize.run] went through, and the store it leaves. *)
Lemma Tokenize_body_Ok tokenizer input fields_to_tokenize add_special_tokens
    max_length special_tokens_mask offset_mapping σ out σ' :
  Tokenize_body tokenizer input fields_to_tokenize add_special_tokens
    max_length special_tokens_mask offset_mapping σ = (Ok out, σ') →
  ∃ regexes d encoded string_to_field new_splits l' v0,
    compile_regexes fields_to_tokenize = Ok regexes
    ∧ heap σ !! input = Some (ObjDataset d)
    ∧ batch_encode_plus tokenizer (Text <$> (found_in regexes d).*2)
        (tokenize_options add_special_tokens max_length special_tokens_mask
           offset_mapping) = Ok encoded
    ∧ make_string_to_field tokenizer encoded (found_in regexes d).*2 0 ∅
      = Ok string_to_field
    ∧ for_each (λ kv, data ← replace_split string_to_field kv.2; Ok (kv.1, data))
        (splits d) = Ok new_splits
    ∧ match vocab d with
      | Some l => heap σ !! l = Some (ObjVocab v0)
      | None => v0 = Vocabulary_empty
      end
    ∧ (l' ∉ dom (heap σ)) ∧ (out ∉ dom (heap σ)) ∧ out ≠ l'
    ∧ σ' = mkState
             (<[out := ObjDataset (mkAllenNlpDataset new_splits (Some l') [])]>
                (<[l' := ObjVocab
                           (foldl (λ v name, add_transformer_vocab tokenizer name v)
                              v0 (set_iter (list_to_set (found_in regexes d).*1)))]>
                   (heap σ)))
             (log σ ++ ((λ field_name, "Tokenizing field " +:+ field_name)
                          <$> sorted (set_iter (list_to_set (found_in regexes d).*1)))).
Proof.
  unfold Tokenize_body. intros H.
  apply bind_Ok in H as (regexes & σ1 & [Hre ->]%lift_Ok & H).
  apply bind_Ok in H as (d & σ1 & [Hd ->]%read_dataset_Ok & H).
  cbv zeta in H. fold (found_in regexes d) in H.
  rewrite (bind_step _ _ _ _ _ (for_loop_logging_info _ _ _)) in H.
  apply bind_Ok in H as (encoded & σ1 & [Henc ->]%lift_Ok & H).
  apply bind_Ok in H as (m & σ1 & [Hm ->]%lift_Ok & H).
  apply bind_Ok in H as (new_splits & σ1 & [Hnew ->]%lift_Ok & H).
  apply bind_Ok in H as (l' & σ1 & Hvocab & H).
  assert (∃ v0, match vocab d with
                | Some l => heap σ !! l = Some (ObjVocab v0)
                | None => v0 = Vocabulary_empty
                end
                ∧ (l' ∉ dom (heap σ))
                ∧ σ1 = mkState (<[l' := ObjVocab v0]> (heap σ))
                         (log σ ++ ((λ field_name, "Tokenizing field " +:+ field_name)
                            <$> sorted (set_iter (list_to_set (found_in regexes d).*1)))))
    as (v0 & Hv0 & Hl' & ->).
  { destruct (vocab d) as [l|].
    - apply deepcopy_vocab_Ok in Hvocab as (v & ? & ? & ->). by exists v.
    - apply alloc_Ok in Hvocab as [? ->]. by exists Vocabulary_empty. }
  rewrite (bind_step _ _ _ _ _ (for_loop_update_vocab _ _ _ _ _ _)) in H.
  apply alloc_Ok in H as [Hout ->]. simpl in Hout.
  exists regexes, d, encoded, m, new_splits, l', v0.
  rewrite dom_insert_L in Hout.
  repeat split; try done; set_solver.
Qed.

(** Whatever its outcome, [Tokenize.run] changes no object of the store it
    started from. *)
Lemma Tokenize_body_unchanged tokenizer input fields_to_tokenize add_special_tokens
    max_length special_tokens_mask offset_mapping σ r σ' :
  Tokenize_body tokenizer input fields_to_tokenize add_special_tokens
    max_length special_tokens_mask offset_mapping σ = (r, σ') →
  unchanged_on (dom (heap σ)) σ σ'.
Proof.
  unfold Tokenize_body. intros H.
  mstep H regexes σ1 E; unfold lift in E; simplify_eq;
    [|apply unchanged_on_refl].
  mstep H d σ2 E';
    [apply read_dataset_Ok in E' as [Hd ->]
    |unfold read_dataset in E'; repeat case_match; simplify_eq;
     apply unchanged_on_refl].
  cbv zeta in H.
  rewrite (bind_step _ _ _ _ _ (for_loop_logging_info _ _ _)) in H.
  mstep H encoded σ3 E; unfold lift in E; simplify_eq; [|done].
  mstep H m σ3 E; unfold lift in E; simplify_eq; [|done].
  mstep H new_splits σ3 E; unfold lift in E; simplify_eq; [|done].
  mstep H l' σ3 E; last first.
  { simplify_eq. destruct (vocab d).
    - by apply deepcopy_vocab_Raise in E as ->.
    - unfold alloc in E. simplify_eq. }
  assert (∃ v0 lg, (l' ∉ dom (heap σ1))
                   ∧ σ3 = mkState (<[l' := ObjVocab v0]> (heap σ1)) lg)
    as (v0 & lg & Hl' & ->).
  { destruct (vocab d) as [l|].
    - apply deepcopy_vocab_Ok in E as (v & ? & ? & ->). by eexists v, _.
    - apply alloc_Ok in E as [? ->]. by eexists Vocabulary_empty, _. }
  rewrite (bind_step _ _ _ _ _ (for_loop_update_vocab _ _ _ _ _ _)) in H.
  unfold alloc in H. simpl in H. simplify_eq.
  intros l Hl. simpl.
  rewrite !lookup_insert_ne; [done|set_solver|].
  intros Heq.
  match type of Heq with
  | fresh ?X = _ => pose proof (is_fresh X) as Hfresh; rewrite Heq in Hfresh
  end.
  rewrite dom_insert_L in Hfresh. set_solver.
Qed.

Lemma Tokenize_run_Ok tokenizer_name input fields_to_tokenize add_special_tokens
    max_length special_tokens_mask offset_mapping σ out σ' :
  Tokenize_run tokenizer_name input fields_to_tokenize add_special_tokens
    max_length special_tokens_mask offset_mapping σ = (Ok out, σ') →
  ∃ tokenizer,
    get_tokenizer tokenizer_name = Ok tokenizer
    ∧ pad_token_type_id tokenizer = 0
    ∧ Tokenize_body tokenizer input fields_to_tokenize add_special_tokens
        max_length special_tokens_mask offset_mapping σ = (Ok out, σ').
Proof.
  unfold Tokenize_run. intros H.
  apply bind_Ok in H as (tokenizer & σ1 & [Htok ->]%lift_Ok & H).
  apply bind_Ok in H as ([] & σ1 & [Hpad ->]%py_assert_Ok & H).
  exists tokenizer. by apply bool_decide_eq_true in Hpad.
Qed.

Lemma Tokenize_run_unchanged tokenizer_name input fields_to_tokenize
    add_special_tokens max_length special_tokens_mask offset_mapping σ r σ' :
  Tokenize_run tokenizer_name input fields_to_tokenize add_special_tokens
    max_length special_tokens_mask offset_mapping σ = (r, σ') →
  unchanged_on (dom (heap σ)) σ σ'.
Proof.
  unfold Tokenize_run. intros H.
  mstep H tokenizer σ1 E; unfold lift in E; simplify_eq;
    [|apply unchanged_on_refl].
  unfold py_assert in H. case_bool_decide.
  - by apply Tokenize_body_unchanged in H.
  - cbv in H. simplify_eq. apply unchanged_on_refl.
Qed.

Lemma TextOnlyDataset_run_Ok input fields_to_keep σ out σ' :
  TextOnlyDataset_run input fields_to_keep σ = (Ok out, σ') →
  ∃ d new_splits,
    heap σ !! input = Some (ObjDataset d)
    ∧ for_each (λ kv, rows ← text_only_split fields_to_keep kv.2;
                      Ok (kv.1, SList rows)) (splits d) = Ok new_splits
    ∧ (out ∉ dom (heap σ))
    ∧ σ' = mkState
             (<[out := ObjDataset (mkAllenNlpDataset new_splits (vocab d) (metadata d))]>
                (heap σ))
             (log σ).
Proof.
  unfold TextOnlyDataset_run. intros H.
  apply bind_Ok in H as (d & σ1 & [Hd ->]%read_dataset_Ok & H).
  apply bind_Ok in H as (new_splits & σ1 & [Hnew ->]%lift_Ok & H).
  apply alloc_Ok in H as [Hout ->]. by exists d, new_splits.
Qed.

Lemma TextOnlyDataset_run_unchanged input fields_to_keep σ r σ' :
  TextOnlyDataset_run input fields_to_keep σ = (r, σ') →
  unchanged_on (dom (heap σ)) σ σ'.
Proof.
  unfold TextOnlyDataset_run. intros H.
  mstep H d σ1 E;
    [apply read_dataset_Ok in E as [Hd ->]
    |unfold read_dataset in E; repeat case_match; simplify_eq;
     apply unchanged_on_refl].
  mstep H new_splits σ2 E; unfold lift in E; simplify_eq;
    [|apply unchanged_on_refl].
  by apply alloc_unchanged in H.
Qed.

Lemma unchanged_on_lookup σ σ' l o :
  unchanged_on (dom (heap σ)) σ σ' →
  heap σ !! l = Some o → heap σ' !! l = Some o.
Proof.
  intros Hun Hl. rewrite Hun; [done|]. apply elem_of_dom. eauto.
Qed.

(** C4. [TextOnlyDataset.run] and [Tokenize.run] leave their input dataset
    unchanged: whatever the outcome of the call, the dataset object given as
    [input] holds the same splits, vocabulary reference and metadata after it,
    and the vocabulary object it refers to holds the same content.  The
    dataset that [TextOnlyDataset.run] returns is a new object that shares the
    vocabulary of the input; the one that [Tokenize.run] returns is a new
    object whose vocabulary is a new object too (the copy). *)
Theorem input_dataset_unchanged (input : loc) (d : AllenNlpDataset) (σ : state) :
  heap σ !! input = Some (ObjDataset d) →
  (∀ fields_to_keep r σ',
     TextOnlyDataset_run input fields_to_keep σ = (r, σ') →
     heap σ' !! input = Some (ObjDataset d)
     ∧ (∀ l v, vocab d = Some l → heap σ !! l = Some (ObjVocab v) →
               heap σ' !! l = Some (ObjVocab v))
     ∧ (∀ out, r = Ok out →
          (out ∉ dom (heap σ))
          ∧ ∃ dout, heap σ' !! out = Some (ObjDataset dout)
                    ∧ vocab dout = vocab d))
  ∧ (∀ tokenizer_name fields_to_tokenize add_special_tokens max_length
       special_tokens_mask offset_mapping r σ',
       Tokenize_run tokenizer_name input fields_to_tokenize add_special_tokens
         max_length special_tokens_mask offset_mapping σ = (r, σ') →
       heap σ' !! input = Some (ObjDataset d)
       ∧ (∀ l v, vocab d = Some l → heap σ !! l = Some (ObjVocab v) →
                 heap σ' !! l = Some (ObjVocab v))
       ∧ (∀ out, r = Ok out →
            (out ∉ dom (heap σ))
            ∧ ∃ dout l', heap σ' !! out = Some (ObjDataset dout)
                         ∧ vocab dout = Some l'
                         ∧ (l' ∉ dom (heap σ)))).
Proof.
  intros Hinput. split.
  - intros keep r σ' Hrun.
    pose proof (TextOnlyDataset_run_unchanged _ _ _ _ _ Hrun) as Hun.
    split_and!; eauto using unchanged_on_lookup.
    intros out ->.
    apply TextOnlyDataset_run_Ok in Hrun as (d' & new_splits & Hd' & _ & Hout & ->).
    simplify_eq. split; [done|]. eexists. split; [apply lookup_insert_eq|done].
  - intros name ftt ast ml stm om r σ' Hrun.
    pose proof (Tokenize_run_unchanged _ _ _ _ _ _ _ _ _ _ Hrun) as Hun.
    split_and!; eauto using unchanged_on_lookup.
    intros out ->.
    apply Tokenize_run_Ok in Hrun as (tok & _ & _ & Hbody).
    apply Tokenize_body_Ok in Hbody
      as (re & d' & enc & m & new_splits & l' & v0 & _ & _ & _ & _ & _ & _
          & Hl' & Hout & _ & ->).
    split; [done|]. eexists _, l'. simpl.
    split; [apply lookup_insert_eq|done].
Qed.

(** C7. With the tokenizer that [get_tokenizer] loads for [tokenizer_name]:
    when its [pad_token_type_id] is not 0, [Tokenize.run] and
    [PiqaInstances.run] raise [AssertionError] and leave the store and the log
    as they were (nothing was produced); when it is 0, the assertion passes and
    the run is the run of the statements that follow it. *)
Theorem pad_token_type_id_assertion (tokenizer_name : string)
    (tokenizer : Tokenizer) (σ : state) (input : loc)
    (fields_to_tokenize : option (list string)) (add_special_tokens : bool)
    (max_length : option Z) (special_tokens_mask offset_mapping : bool)
    (piqa_max_length : Z) :
  get_tokenizer tokenizer_name = Ok tokenizer →
  (pad_token_type_id tokenizer ≠ 0 →
     Tokenize_run tokenizer_name input fields_to_tokenize add_special_tokens
       max_length special_tokens_mask offset_mapping σ = (Raise AssertionError, σ)
     ∧ PiqaInstances_run tokenizer_name piqa_max_length σ = (Raise AssertionError, σ))
  ∧ (pad_token_type_id tokenizer = 0 →
     Tokenize_run tokenizer_name input fields_to_tokenize add_special_tokens
       max_length special_tokens_mask offset_mapping σ
     = Tokenize_body tokenizer input fields_to_tokenize add_special_tokens
         max_length special_tokens_mask offset_mapping σ
     ∧ PiqaInstances_run tokenizer_name piqa_max_length σ
       = PiqaInstances_body tokenizer piqa_max_length σ).
Proof.
  intros Htok. unfold Tokenize_run, PiqaInstances_run.
  rewrite !(bind_step _ _ _ _ _ (f_equal (λ o, (o, σ)) Htok : lift _ σ = _)).
  split; intros Hpad.
  - rewrite bool_decide_eq_false_2 by done. done.
  - rewrite bool_decide_eq_true_2 by done. done.
Qed.

(** ** Determinism *)







(** ** Loops and dicts *)

Lemma for_each_Ok {A B} (f : A → outcome B) xs ys :
  for_each f xs = Ok ys ↔ Forall2 (λ x y, f x = Ok y) xs ys.
Proof.
  split.
  - revert ys. induction xs as [|x xs IH]; intros ys; simpl.
    + intros [= <-]. constructor.
    + destruct (f x) as [y|e] eqn:Hx; [|done].
      destruct (for_each f xs) as [ys'|e]; [|done].
      intros [= <-]. constructor; auto.
  - induction 1 as [|x y xs ys Hx _ IH]; simpl; [done|].
    by rewrite Hx, IH.
Qed.

Lemma dict_setitem_new {V} (d : list (string * V)) k v :
  k ∉ d.*1 → dict_setitem d k v = d ++ [(k, v)].
Proof.
  induction d as [|[k' v'] d IH]; simpl; [done|]. intros Hk.
  destruct (String.eqb_spec k' k) as [->|_].
  - contradict Hk. constructor.
  - f_equal. apply IH. contradict Hk. by constructor.
Qed.

Lemma items_getitem_lookup {V} (d : list (string * V)) i k v :
  NoDup d.*1 → d !! i = Some (k, v) → items_getitem d k = Ok v.
Proof.
  revert i. induction d as [|[k' v'] d IH]; intros i Hnd Hi; [done|].
  apply NoDup_cons in Hnd as [Hk' Hnd]. simpl.
  destruct i as [|i]; simpl in Hi.
  - simplify_eq. by rewrite String.eqb_refl.
  - destruct (String.eqb_spec k' k) as [->|_]; [|by eapply IH].
    exfalso. apply Hk'. apply list_elem_of_fmap. exists (k, v).
    split; [done|]. by eapply list_elem_of_lookup_2.
Qed.

(** ** PiqaInstances *)

Lemma piqa_results_per_split_Ok tokenized_alts i0 instances results :
  piqa_results_per_split tokenized_alts i0 instances = Ok results →
  length results = length instances
  ∧ ∀ j instance, instances !! j = Some instance →
      ∃ r, results !! j = Some r
           ∧ piqa_instance tokenized_alts (i0 + j) instance = Ok r.
Proof.
  revert i0 results. induction instances as [|x xs IH]; intros i0 results; simpl.
  - intros [= <-]. split; [done|]. intros j ? Hj. by rewrite lookup_nil in Hj.
  - destruct (piqa_instance tokenized_alts i0 x) as [r|] eqn:Hr; [|done]. simpl.
    destruct (piqa_results_per_split tokenized_alts (S i0) xs) as [rs|] eqn:Hrs;
      [|done].
    simpl. intros [= <-]. apply IH in Hrs as [Hlen Hrs]. split; [simpl; lia|].
    intros [|j] instance Hj; simpl in Hj.
    + simplify_eq. exists r. by rewrite Nat.add_0_r.
    + apply Hrs in Hj as (r' & ? & ?). exists r'.
      by rewrite Nat.add_succ_r.
Qed.

Lemma piqa_result_Ok tokenized dataset_items acc result :
  NoDup (acc.*1 ++ dataset_items.*1) →
  piqa_result tokenized dataset_items acc = Ok result →
  ∃ news,
    result = acc ++ news
    ∧ Forall2 (λ kv kv',
         kv'.1 = kv.1
         ∧ ∃ tokenized_alts results,
             items_getitem tokenized kv.1 = Ok tokenized_alts
             ∧ piqa_results_per_split tokenized_alts 0 kv.2 = Ok results
             ∧ kv'.2 = SList (PInstance <$> results))
        dataset_items news.
Proof.
  revert acc. induction dataset_items as [|[name instances] rest IH];
    intros acc Hnd; simpl.
  - intros [= <-]. exists []. by rewrite app_nil_r.
  - destruct (items_getitem tokenized name) as [enc|] eqn:Henc; [|done]. simpl.
    destruct (piqa_results_per_split enc 0 instances) as [rs|] eqn:Hrs; [|done].
    simpl. intros Hres.
    assert (name ∉ acc.*1) as Hname.
    { apply NoDup_app in Hnd as (_ & Hdisj & _). intros Hin.
      apply (Hdisj _ Hin). simpl. constructor. }
    rewrite dict_setitem_new in Hres by done.
    apply IH in Hres as (news & -> & Hall).
    + exists ((name, SList (PInstance <$> rs)) :: news).
      split; [by rewrite <- app_assoc|].
      constructor; [|done]. simpl. split; [done|]. by exists enc, rs.
    + rewrite fmap_app. simpl. by rewrite <- app_assoc.
Qed.

Lemma PiqaInstances_run_Ok tokenizer_name max_length σ out σ' :
  PiqaInstances_run tokenizer_name max_length σ = (Ok out, σ') →
  ∃ tokenizer raw tokenized result l',
    get_tokenizer tokenizer_name = Ok tokenizer
    ∧ pad_token_type_id tokenizer = 0
    ∧ load_piqa = Ok raw
    ∧ for_each (λ kv, enc ← batch_encode_plus tokenizer
                              (flat_map alternatives kv.2)
                              (piqa_options max_length);
                      Ok (kv.1, enc))
        (map (λ kv, (kv.1, piqa_item <$> kv.2)) raw) = Ok tokenized
    ∧ piqa_result tokenized (map (λ kv, (kv.1, piqa_item <$> kv.2)) raw) []
      = Ok result
    ∧ (l' ∉ dom (heap σ)) ∧ (out ∉ dom (heap σ)) ∧ out ≠ l'
    ∧ σ' = mkState
             (<[out := ObjDataset (mkAllenNlpDataset result (Some l') [])]>
                (<[l' := ObjVocab (add_transformer_vocab tokenizer "tokens"
                                     Vocabulary_empty)]> (heap σ)))
             (log σ).
Proof.
  unfold PiqaInstances_run, PiqaInstances_body. intros H.
  apply bind_Ok in H as (tokenizer & σ1 & [Htok ->]%lift_Ok & H).
  apply bind_Ok in H as ([] & σ1 & [Hpad%bool_decide_eq_true ->]%py_assert_Ok & H).
  apply bind_Ok in H as (raw & σ1 & [Hraw ->]%lift_Ok & H).
  cbv zeta in H.
  apply bind_Ok in H as (tokenized & σ1 & [Htokd ->]%lift_Ok & H).
  apply bind_Ok in H as (result & σ1 & [Hres ->]%lift_Ok & H).
  apply bind_Ok in H as (l' & σ1 & [Hl' ->]%alloc_Ok & H).
  erewrite bind_step in H; last first.
  { apply update_vocab_at. simpl. apply lookup_insert_eq. }
  simpl in H. rewrite insert_insert_eq in H.
  apply alloc_Ok in H as [Hout ->]. simpl in Hout.
  rewrite dom_insert_L in Hout.
  exists tokenizer, raw, tokenized, result, l'.
  split_and!; try done; set_solver.
Qed.

(** The instance built for row [i] of split [k] of the "piqa" dataset. *)
Lemma PiqaInstances_run_instance tokenizer_name max_length σ out σ'
    raw k split_name rows i row :
  load_piqa = Ok raw →
  NoDup raw.*1 →
  PiqaInstances_run tokenizer_name max_length σ = (Ok out, σ') →
  raw !! k = Some (split_name, rows) →
  rows !! i = Some row →
  ∃ tokenizer encoded dout results r,
    get_tokenizer tokenizer_name = Ok tokenizer
    ∧ batch_encode_plus tokenizer (flat_map alternatives (piqa_item <$> rows))
        (piqa_options max_length) = Ok encoded
    ∧ heap σ' !! out = Some (ObjDataset dout)
    ∧ splits dout !! k = Some (split_name, SList (PInstance <$> results))
    ∧ length results = length rows
    ∧ results !! i = Some r
    ∧ piqa_instance encoded i (piqa_item row) = Ok r.
Proof.
  intros Hraw Hnd Hrun Hk Hi.
  apply PiqaInstances_run_Ok in Hrun
    as (tokenizer & raw' & tokenized & result & l' & Htok & _ & Hraw' & Htokd
        & Hres & _ & _ & _ & ->).
  rewrite Hraw in Hraw'. injection Hraw' as <-.
  set (dataset := map (λ kv, (kv.1, piqa_item <$> kv.2)) raw) in *.
  assert (dataset.*1 = raw.*1) as Hkeys.
  { subst dataset. rewrite <- list_fmap_compose. by apply list_fmap_ext. }
  assert (dataset !! k = Some (split_name, piqa_item <$> rows)) as Hdk.
  { subst dataset. change (map ?f raw) with (f <$> raw).
    by rewrite list_lookup_fmap, Hk. }
  apply for_each_Ok in Htokd.
  assert (tokenized.*1 = dataset.*1) as Htkeys.
  { clear -Htokd. induction Htokd as [|kv te ? ? Hte _ IH]; [done|].
    simpl. f_equal; [|done].
    destruct (batch_encode_plus _ _ _); simpl in Hte; by simplify_eq. }
  destruct (Forall2_lookup_l _ _ _ _ _ Htokd Hdk) as ([n enc] & Htk & Henc).
  simpl in Henc.
  destruct (batch_encode_plus tokenizer _ _) as [enc'|] eqn:Hbatch;
    simpl in Henc; [|done].
  injection Henc as <- <-.
  apply piqa_result_Ok in Hres as (news & -> & Hall);
    [|simpl; by rewrite Hkeys].
  destruct (Forall2_lookup_l _ _ _ _ _ Hall Hdk)
    as ([n s] & Hnk & Hn & enc & results & Hget & Hper & Hs).
  simpl in *. subst n s.
  rewrite (items_getitem_lookup tokenized k split_name enc') in Hget;
    [|by rewrite Htkeys, Hkeys|done].
  injection Hget as <-.
  apply piqa_results_per_split_Ok in Hper as [Hlen Hper].
  destruct (Hper i (piqa_item row)) as (r & Hr & Hinst).
  { by rewrite list_lookup_fmap, Hi. }
  exists tokenizer, enc', (mkAllenNlpDataset news (Some l') []), results, r.
  rewrite length_fmap in Hlen.
  split_and!; try done. apply lookup_insert_eq.
Qed.

Lemma tensor_int32_Ok xs t : tensor_int32 xs = Ok t → t = IntTensor xs.
Proof. unfold tensor_int32. case_match; by intros [= <-]. Qed.

Lemma list_getitem_Ok {A} (xs : list A) i x :
  list_getitem xs i = Ok x → xs !! i = Some x.
Proof. unfold list_getitem. case_match; by intros [= <-]. Qed.

Lemma piqa_alternative_field_Ok encoded j f :
  piqa_alternative_field encoded j = Ok f → piqa_field_of_entry encoded j f.
Proof.
  unfold piqa_alternative_field. intros H.
  destruct (list_getitem (enc_input_ids encoded) j) as [ids|] eqn:Hids; [|done].
  simpl in H. destruct (tensor_int32 ids) as [t1|] eqn:Ht1; [|done].
  simpl in H.
  destruct (list_getitem (enc_token_type_ids encoded) j) as [types|] eqn:Hty;
    [|done].
  simpl in H. destruct (tensor_int32 types) as [t2|] eqn:Ht2; [|done].
  simpl in H. injection H as <-.
  apply tensor_int32_Ok in Ht1 as ->. apply tensor_int32_Ok in Ht2 as ->.
  exists ids, types. eauto using list_getitem_Ok.
Qed.

Lemma piqa_instance_Ok encoded i instance r :
  piqa_instance encoded i instance = Ok r →
  ∃ f1 f2,
    piqa_alternative_field encoded (2 * i) = Ok f1
    ∧ piqa_alternative_field encoded (2 * i + 1) = Ok f2
    ∧ fields r =
        if bool_decide (0 ≤ correct_alternative instance)
        then [("alternatives", FieldList (mkListField [f1; f2]));
              ("correct_alternative",
               FieldIndex (mkIndexField (correct_alternative instance)
                             (mkListField [f1; f2])))]
        else [("alternatives", FieldList (mkListField [f1; f2]))].
Proof.
  unfold piqa_instance. unfold for_each.
  destruct (piqa_alternative_field encoded (2 * i)) as [f1|]; [|done].
  destruct (piqa_alternative_field encoded (2 * i + 1)) as [f2|]; [|done].
  simpl. intros [= <-]. exists f1, f2. split_and!; try done.
Qed.

Lemma piqa_alternatives_lookup (rows : list PiqaRow) i row :
  rows !! i = Some row →
  flat_map alternatives (piqa_item <$> rows) !! (2 * i)%nat
    = Some (TextPair (goal row) (sol1 row))
  ∧ flat_map alternatives (piqa_item <$> rows) !! (2 * i + 1)%nat
    = Some (TextPair (goal row) (sol2 row)).
Proof.
  revert i. induction rows as [|x rows IH]; intros i Hi; [done|].
  destruct i as [|i]; simpl in Hi.
  - by simplify_eq.
  - apply IH in Hi as [H1 H2].
    replace (2 * S i)%nat with (S (S (2 * i))) by lia. by simpl.
Qed.

(** C1. In a successful [PiqaInstances.run], for every split of the "piqa"
    dataset and every row at position [i] of it, the instance returned at
    position [i] of that split has an "alternatives" [ListField] of exactly two
    [TransformerTextField]s; they hold, in this order, the tensors of entries
    [2*i] and [2*i+1] of the batch encoding of the split, and the inputs
    number [2*i] and [2*i+1] of that batch are the pairs (goal, sol1) and
    (goal, sol2) of the same row; so, for a tokenizer whose batch encoding
    holds at each entry the encoding of the input of that number, the two
    fields hold the encodings of these two pairs. *)
Theorem piqa_alternatives_bookkeeping (tokenizer_name : string) (max_length : Z)
    (σ : state) (out : loc) (σ' : state) (raw : list (string * list PiqaRow))
    (k : nat) (split_name : string) (rows : list PiqaRow) (i : nat) (row : PiqaRow) :
  load_piqa = Ok raw →
  NoDup raw.*1 →
  PiqaInstances_run tokenizer_name max_length σ = (Ok out, σ') →
  raw !! k = Some (split_name, rows) →
  rows !! i = Some row →
  ∃ tokenizer encoded dout results r f1 f2,
    get_tokenizer tokenizer_name = Ok tokenizer
    ∧ batch_encode_plus tokenizer (flat_map alternatives (piqa_item <$> rows))
        (piqa_options max_length) = Ok encoded
    ∧ flat_map alternatives (piqa_item <$> rows) !! (2 * i)%nat
      = Some (TextPair (goal row) (sol1 row))
    ∧ flat_map alternatives (piqa_item <$> rows) !! (2 * i + 1)%nat
      = Some (TextPair (goal row) (sol2 row))
    ∧ heap σ' !! out = Some (ObjDataset dout)
    ∧ splits dout !! k = Some (split_name, SList (PInstance <$> results))
    ∧ length results = length rows
    ∧ results !! i = Some r
    ∧ items_getitem (fields r) "alternatives"
      = Ok (FieldList (mkListField [f1; f2]))
    ∧ piqa_field_of_entry encoded (2 * i) f1
    ∧ piqa_field_of_entry encoded (2 * i + 1) f2
    ∧ ∀ encode : TextInput → list Z * list Z,
        (∀ j x, flat_map alternatives (piqa_item <$> rows) !! j = Some x →
                enc_input_ids encoded !! j = Some (encode x).1
                ∧ enc_token_type_ids encoded !! j = Some (encode x).2) →
        f1 = mkTransformerTextField
               (IntTensor (encode (TextPair (goal row) (sol1 row))).1)
               (Some (IntTensor (encode (TextPair (goal row) (sol1 row))).2))
               None None None (Some 0)
        ∧ f2 = mkTransformerTextField
                 (IntTensor (encode (TextPair (goal row) (sol2 row))).1)
                 (Some (IntTensor (encode (TextPair (goal row) (sol2 row))).2))
                 None None None (Some 0).
Proof.
  intros Hraw Hnd Hrun Hk Hi.
  destruct (PiqaInstances_run_instance _ _ _ _ _ _ _ _ _ _ _ Hraw Hnd Hrun Hk Hi)
    as (tokenizer & encoded & dout & results & r & Htok & Henc & Hout & Hsplit
        & Hlen & Hr & Hinst).
  apply piqa_instance_Ok in Hinst as (f1 & f2 & Hf1 & Hf2 & Hfields).
  destruct (piqa_alternatives_lookup _ _ _ Hi) as [Hin1 Hin2].
  apply piqa_alternative_field_Ok in Hf1, Hf2.
  exists tokenizer, encoded, dout, results, r, f1, f2.
  split_and!; try done.
  - rewrite Hfields. by case_bool_decide.
  - intros encode Hentry.
    destruct Hf1 as (ids1 & types1 & Hids1 & Htypes1 & ->).
    destruct Hf2 as (ids2 & types2 & Hids2 & Htypes2 & ->).
    destruct (Hentry _ _ Hin1) as [E1 E1'], (Hentry _ _ Hin2) as [E2 E2'].
    by simplify_eq.
Qed.

(** C10. In a successful [PiqaInstances.run], the instance returned for a row
    of the "piqa" dataset has a "correct_alternative" field if and only if the
    label of the row is >= 0; it is then the [IndexField] of that label into
    the "alternatives" field, which comes first; when the label is negative,
    "alternatives" is the only field of the instance. *)
Theorem piqa_correct_alternative_iff_label (tokenizer_name : string)
    (max_length : Z) (σ : state) (out : loc) (σ' : state)
    (raw : list (string * list PiqaRow)) (k : nat) (split_name : string)
    (rows : list PiqaRow) (i : nat) (row : PiqaRow) :
  load_piqa = Ok raw →
  NoDup raw.*1 →
  PiqaInstances_run tokenizer_name max_length σ = (Ok out, σ') →
  raw !! k = Some (split_name, rows) →
  rows !! i = Some row →
  ∃ dout results r alts,
    heap σ' !! out = Some (ObjDataset dout)
    ∧ splits dout !! k = Some (split_name, SList (PInstance <$> results))
    ∧ results !! i = Some r
    ∧ ((∃ f, items_getitem (fields r) "correct_alternative" = Ok f)
       ↔ 0 ≤ label row)
    ∧ (0 ≤ label row →
       fields r = [("alternatives", FieldList alts);
                   ("correct_alternative",
                    FieldIndex (mkIndexField (label row) alts))])
    ∧ (label row < 0 → fields r = [("alternatives", FieldList alts)]).
Proof.
  intros Hraw Hnd Hrun Hk Hi.
  destruct (PiqaInstances_run_instance _ _ _ _ _ _ _ _ _ _ _ Hraw Hnd Hrun Hk Hi)
    as (tokenizer & encoded & dout & results & r & Htok & Henc & Hout & Hsplit
        & Hlen & Hr & Hinst).
  apply piqa_instance_Ok in Hinst as (f1 & f2 & Hf1 & Hf2 & Hfields).
  exists dout, results, r, (mkListField [f1; f2]).
  simpl in Hfields. rewrite Hfields.
  split_and!; try done; case_bool_decide; simpl; try done; try lia.
  - split; [done|]. eauto.
  - split; [|done]. by intros [? ?].
Qed.

(** ** TextOnlyDataset *)

Lemma text_only_instance_Ok fields_to_keep instance rows :
  text_only_instance fields_to_keep instance = Ok rows →
  ∃ items, py_items instance = Ok items
           ∧ rows = (λ v, PDict [("text", v)]) <$> kept_values fields_to_keep items.
Proof.
  unfold text_only_instance.
  destruct (py_items instance) as [items|]; [|done]. simpl.
  intros [= <-]. exists items; split; [done|].
  induction items as [|[name v] items IH]; [done|]. simpl.
  rewrite filter_cons. simpl. case_bool_decide.
  - rewrite decide_True by done. simpl. by f_equal.
  - by rewrite decide_False by done.
Qed.

Lemma text_only_split_Ok fields_to_keep split rows :
  text_only_split fields_to_keep split = Ok rows →
  ∃ instances,
    Forall2 (λ instance items, py_items instance = Ok items)
      (split_items split) instances
    ∧ rows = text_only_spec fields_to_keep instances.
Proof.
  unfold text_only_split.
  destruct (for_each _ (split_items split)) as [per_instance|] eqn:Hfor; [|done].
  simpl. intros [= <-]. apply for_each_Ok in Hfor.
  induction Hfor as [|instance rows' xs ys Hx _ (instances & Hall & IH)].
  - by exists [].
  - apply text_only_instance_Ok in Hx as (items & Hitems & ->).
    exists (items :: instances). simpl. rewrite IH. split; [|done].
    by constructor.
Qed.

Lemma elem_of_kept_values fields_to_keep items v :
  v ∈ kept_values fields_to_keep items
  ↔ ∃ name, (name, v) ∈ items ∧ name ∈ fields_to_keep.
Proof.
  induction items as [|[name' v'] items IH]; simpl.
  - split; [by intros ?%elem_of_nil|]. by intros (? & ?%elem_of_nil & _).
  - case_bool_decide as Hkeep.
    + rewrite elem_of_cons, IH. split.
      * intros [->|(name & ? & ?)].
        -- exists name'. split; [constructor|done].
        -- exists name. split; [by constructor|done].
      * intros (name & [[= -> ->]|Hin]%elem_of_cons & ?); eauto.
    + rewrite IH. split.
      * intros (name & ? & ?). exists name. split; [by constructor|done].
      * intros (name & [[= -> ->]|Hin]%elem_of_cons & ?); [done|eauto].
Qed.

Lemma elem_of_text_only_spec fields_to_keep instances o :
  o ∈ text_only_spec fields_to_keep instances
  ↔ ∃ items name v, items ∈ instances ∧ (name, v) ∈ items
                    ∧ name ∈ fields_to_keep ∧ o = PDict [("text", v)].
Proof.
  induction instances as [|items instances IH]; simpl.
  - split; [by intros ?%elem_of_nil|]. by intros (? & ? & ? & ?%elem_of_nil & _).
  - rewrite elem_of_app, list_elem_of_fmap, IH. split.
    + intros [(v & -> & (name & ? & ?)%elem_of_kept_values)
             |(items' & name & v & ? & ? & ? & ->)].
      * exists items, name, v. split_and!; try done. constructor.
      * exists items', name, v. split_and!; try done. by constructor.
    + intros (items' & name & v & [->|Hin]%elem_of_cons & ? & ? & ->).
      * left. exists v. split; [done|]. apply elem_of_kept_values. eauto.
      * right. exists items', name, v. eauto.
Qed.

(** C5. A successful [TextOnlyDataset.run] returns a dataset with the split
    names of the input, in the same order; every instance of an input split
    has items (it is a dict or an [Instance]), and the split returned for it
    is the Python list holding one instance [{"text": v}] for each (instance,
    field) pair of the input split whose field name is in [fields_to_keep]
    and whose value is [v], in input order; every instance of the output
    comes from such a pair, so a value that no kept field holds does not
    appear. *)
Theorem text_only_keeps_selected_fields (input : loc) (d : AllenNlpDataset)
    (fields_to_keep : gset string) (σ : state) (out : loc) (σ' : state) :
  heap σ !! input = Some (ObjDataset d) →
  TextOnlyDataset_run input fields_to_keep σ = (Ok out, σ') →
  ∃ dout,
    heap σ' !! out = Some (ObjDataset dout)
    ∧ (splits dout).*1 = (splits d).*1
    ∧ Forall2 (λ kv kv',
         kv'.1 = kv.1
         ∧ ∃ instances,
             Forall2 (λ instance items, py_items instance = Ok items)
               (split_items kv.2) instances
             ∧ kv'.2 = SList (text_only_spec fields_to_keep instances)
             ∧ ∀ o, o ∈ split_items kv'.2
                    ↔ ∃ instance items name v,
                        instance ∈ split_items kv.2
                        ∧ py_items instance = Ok items
                        ∧ (name, v) ∈ items
                        ∧ name ∈ fields_to_keep ∧ o = PDict [("text", v)])
        (splits d) (splits dout).
Proof.
  intros Hinput Hrun.
  apply TextOnlyDataset_run_Ok in Hrun as (d' & new_splits & Hd' & Hnew & Hout & ->).
  simplify_eq. eexists. split; [apply lookup_insert_eq|]. simpl.
  apply for_each_Ok in Hnew.
  assert (Forall2 (λ kv kv',
            kv'.1 = kv.1
            ∧ ∃ instances,
                Forall2 (λ instance items, py_items instance = Ok items)
                  (split_items kv.2) instances
                ∧ kv'.2 = SList (text_only_spec fields_to_keep instances))
            (splits d) new_splits) as Hall.
  { eapply Forall2_impl; [apply Hnew|]. intros [name split] [name' split'] H.
    simpl in *.
    destruct (text_only_split fields_to_keep split) as [rows|] eqn:Hrows; [|done].
    simpl in H. injection H as <- <-. split; [done|].
    apply text_only_split_Ok in Hrows as (instances & ? & ->).
    by exists instances. }
  split.
  - clear -Hall. induction Hall as [|? ? ? ? [Hname _] _ IH]; [done|].
    rewrite !fmap_cons. by f_equal.
  - eapply Forall2_impl; [apply Hall|].
    intros kv kv' (Hname & instances & Hitems & Hsplit). split; [done|].
    exists instances. split_and!; try done.
    intros o. rewrite Hsplit. simpl. rewrite elem_of_text_only_spec.
    split.
    + intros (items & name & v & Hin & ?).
      apply list_elem_of_lookup in Hin as [i Hi].
      destruct (Forall2_lookup_r _ _ _ _ _ Hitems Hi) as (instance & Hi' & ?).
      exists instance, items, name, v. split_and!; try done; try tauto.
      by eapply list_elem_of_lookup_2.
    + intros (instance & items & name & v & Hin & Hpy & ?).
      apply list_elem_of_lookup in Hin as [i Hi].
      destruct (Forall2_lookup_l _ _ _ _ _ Hitems Hi) as (items' & Hi' & Hpy').
      rewrite Hpy in Hpy'. injection Hpy' as <-.
      exists items, name, v. split; [|done]. by eapply list_elem_of_lookup_2.
Qed.

(** ** Tokenize: positions and field names *)

Lemma find_string_objects_list should l prefix :
  find_string_objects should (PList l) prefix
  = find_in_list should (lstrip_dot prefix) l 0.
Proof. reflexivity. Qed.

Lemma find_string_objects_dict should d prefix :
  find_string_objects should (PDict d) prefix
  = find_in_dict should (lstrip_dot prefix) d.
Proof. reflexivity. Qed.

Lemma find_in_list_lookup should prefix l i0 i x found :
  l !! i = Some x →
  found ∈ find_string_objects should x (dotted prefix (str_of_nat (i0 + i))) →
  found ∈ find_in_list should prefix l i0.
Proof.
  revert i0 i. induction l as [|y l IH]; intros i0 i Hi Hfound; [done|].
  simpl. apply elem_of_app. destruct i as [|i]; simpl in Hi.
  - simplify_eq. left. by rewrite Nat.add_0_r in Hfound.
  - right. apply (IH (S i0) i Hi). by rewrite Nat.add_succ_comm.
Qed.

Lemma find_in_dict_getitem should prefix d k x found :
  items_getitem d k = Ok x →
  found ∈ find_string_objects should x (dotted prefix k) →
  found ∈ find_in_dict should prefix d.
Proof.
  induction d as [|[k' y] d IH]; intros Hk Hfound; [done|].
  simpl in *. apply elem_of_app.
  destruct (String.eqb_spec k' k) as [->|_].
  - simplify_eq. by left.
  - right. by apply IH.
Qed.

(** A string at a position whose field name is selected is yielded by
    [find_string_objects], under that name. *)
Lemma find_string_objects_at should o prefix path s :
  value_at o path = Some (PStr s) →
  should (field_name prefix path) = true →
  (field_name prefix path, s) ∈ find_string_objects should o prefix.
Proof.
  revert o prefix. induction path as [|a path IH]; intros o prefix Hat Hsel.
  - simpl in *. simplify_eq. simpl. rewrite Hsel. constructor.
  - simpl in *. destruct (child o a) as [x|] eqn:Hx; [|done].
    specialize (IH x _ Hat Hsel).
    destruct o, a; simpl in Hx; try done.
    + rewrite find_string_objects_list.
      by eapply (find_in_list_lookup _ _ _ 0).
    + rewrite find_string_objects_dict.
      destruct (items_getitem d k) as [v|] eqn:Hk; [|done]. simplify_eq.
      by eapply find_in_dict_getitem.
Qed.

Lemma found_strings_at should input_splits k split_name split j instance path s :
  input_splits !! k = Some (split_name, split) →
  split_items split !! j = Some instance →
  value_at instance path = Some (PStr s) →
  should (field_name "" path) = true →
  (field_name "" path, s) ∈ found_strings should input_splits.
Proof.
  intros Hk Hj Hat Hsel. unfold found_strings.
  apply list_elem_of_In, in_flat_map. exists (split_name, split).
  split; [apply list_elem_of_In; by eapply list_elem_of_lookup_2|].
  simpl. apply in_flat_map. exists instance.
  split; [apply list_elem_of_In; by eapply list_elem_of_lookup_2|].
  apply list_elem_of_In. by apply find_string_objects_at.
Qed.

(** ** Tokenize: the string-to-field mapping *)

Lemma make_field_Ok tokenizer encoded i f :
  make_field tokenizer encoded i = Ok f →
  tokenize_field_of_entry tokenizer encoded i f.
Proof.
  intros Hf. split; [done|]. unfold make_field in Hf.
  destruct (list_getitem (enc_input_ids encoded) i) as [ids|] eqn:Hids; [|done].
  simpl in Hf. destruct (tensor_int32 ids) as [t1|] eqn:Ht1; [|done].
  simpl in Hf.
  destruct (list_getitem (enc_token_type_ids encoded) i) as [types|] eqn:Hty;
    [|done].
  simpl in Hf. destruct (tensor_int32 types) as [t2|] eqn:Ht2; [|done].
  simpl in Hf.
  destruct (optional_tensor (enc_attention_mask encoded) i tensor_bool); [|done].
  simpl in Hf.
  destruct (optional_tensor (enc_special_tokens_mask encoded) i tensor_bool);
    [|done].
  simpl in Hf.
  destruct (optional_tensor (enc_offset_mapping encoded) i tensor_int32_pairs);
    [|done].
  simpl in Hf. injection Hf as <-. simpl.
  apply tensor_int32_Ok in Ht1 as ->. apply tensor_int32_Ok in Ht2 as ->.
  exists ids, types. split_and!; auto using list_getitem_Ok.
Qed.

(** The mapping holds, for each collected string, the field of its last
    entry, and nothing for the other strings. *)
Lemma make_string_to_field_Ok tokenizer encoded strings i0 acc m :
  make_string_to_field tokenizer encoded strings i0 acc = Ok m →
  ∀ s,
    (s ∉ strings → m !! s = acc !! s)
    ∧ (s ∈ strings →
       ∃ j f, strings !! j = Some s
              ∧ (∀ j', (j < j')%nat → strings !! j' ≠ Some s)
              ∧ make_field tokenizer encoded (i0 + j) = Ok f
              ∧ m !! s = Some f).
Proof.
  revert i0 acc. induction strings as [|s0 strings IH]; intros i0 acc; simpl.
  - intros [= <-] s. split; [done|]. by intros ?%elem_of_nil.
  - destruct (make_field tokenizer encoded i0) as [f0|] eqn:Hf0; [|done].
    simpl. intros Hm s. destruct (IH _ _ Hm s) as [Hout Hin].
    destruct (decide (s ∈ strings)) as [Hs|Hs].
    + split; [intros Hn; contradict Hn; by constructor|]. intros _.
      destruct (Hin Hs) as (j & f & Hj & Hlast & Hf & Hms).
      exists (S j), f. split_and!; try done.
      * intros [|j'] ?; [lia|]. simpl. apply Hlast. lia.
      * by rewrite Nat.add_succ_r.
    + rewrite (Hout Hs). split.
      * intros Hn. apply lookup_insert_ne. intros ->. apply Hn. constructor.
      * intros [->|?]%elem_of_cons; [|done].
        exists 0%nat, f0. rewrite Nat.add_0_r, lookup_insert_eq.
        split_and!; try done.
        intros [|j'] ?; [lia|]. simpl. intros Hj'.
        apply Hs. by eapply list_elem_of_lookup_2.
Qed.

(** ** Tokenize: replacing the strings *)

Lemma replace_string_objects_dict m d :
  replace_string_objects m (PDict d) = PDict <$> replace_in_dict m d.
Proof. reflexivity. Qed.

(** The [try]/[except KeyError] around the lookup: a string of the mapping
    becomes its field, any other string is returned as it is. *)
Lemma replace_string_objects_str m s :
  replace_string_objects m (PStr s)
  = Ok (match m !! s with Some f => PField (FieldText f) | None => PStr s end).
Proof. simpl. unfold dict_getitem. by destruct (m !! s). Qed.

Lemma replace_in_dict_Ok m d d' :
  replace_in_dict m d = Ok d' →
  Forall2 (λ kv kv', kv'.1 = kv.1 ∧ replace_string_objects m kv.2 = Ok kv'.2) d d'.
Proof.
  revert d'. induction d as [|[k v] d IH]; intros d'; simpl.
  - intros [= <-]. constructor.
  - destruct (replace_string_objects m v) as [v'|] eqn:Hv; [|done]. simpl.
    destruct (replace_in_dict m d) as [rest'|] eqn:Hrest; [|done]. simpl.
    intros [= <-]. constructor; [done|]. by apply IH.
Qed.

(** Replacing strings raises nothing. *)
Lemma replace_string_objects_total m o :
  ∃ o', replace_string_objects m o = Ok o'.
Proof.
  induction o as [s|z| |l IH|d IH|rows IH|f|i] using pyobj_ind;
    try (by eexists).
  - rewrite replace_string_objects_str. by eexists.
  - assert (∃ l', for_each (replace_string_objects m) l = Ok l') as [l' Hl'].
    { induction IH as [|x l [x' Hx] _ [l' Hl']]; [by exists []|].
      exists (x' :: l'). simpl. by rewrite Hx, Hl'. }
    exists (PList l'). simpl. by rewrite Hl'.
  - assert (∃ d', replace_in_dict m d = Ok d') as [d' Hd'].
    { induction IH as [|[k v] d [v' Hv] _ [d' Hd']]; [by exists []|].
      exists ((k, v') :: d'). simpl in *. by rewrite Hv, Hd'. }
    exists (PDict d'). rewrite replace_string_objects_dict. by rewrite Hd'.
  - assert (∃ l', for_each (replace_string_objects m) rows = Ok l') as [l' Hl'].
    { induction IH as [|x l [x' Hx] _ [l' Hl']]; [by exists []|].
      exists (x' :: l'). simpl. by rewrite Hx, Hl'. }
    exists (PList l'). simpl. by rewrite Hl'.
Qed.

Lemma items_getitem_Forall2 {V W} (R : V → W → Prop)
    (d : list (string * V)) (d' : list (string * W)) k v :
  Forall2 (λ kv kv', kv'.1 = kv.1 ∧ R kv.2 kv'.2) d d' →
  items_getitem d k = Ok v →
  ∃ v', items_getitem d' k = Ok v' ∧ R v v'.
Proof.
  induction 1 as [|[k1 v1] [k2 v2] d d' [Hk HR] _ IH]; [done|].
  simpl in *. subst k2. destruct (String.eqb k1 k); [|done].
  intros [= <-]. eauto.
Qed.

(** The value at a position of the result is the replacement of the value at
    that position. *)
Lemma replace_string_objects_at m o o' path x :
  replace_string_objects m o = Ok o' →
  value_at o path = Some x →
  ∃ x', value_at o' path = Some x' ∧ replace_string_objects m x = Ok x'.
Proof.
  revert o o'. induction path as [|a path IH]; intros o o' Ho Hat; simpl in *.
  - simplify_eq. eauto.
  - destruct (child o a) as [y|] eqn:Hy; [|done].
    assert (∃ y', child o' a = Some y' ∧ replace_string_objects m y = Ok y')
      as (y' & Hy' & Hrep).
    { destruct o, a; simpl in Hy; try done.
      - simpl in Ho.
        destruct (for_each (replace_string_objects m) l) as [l'|] eqn:Hl; [|done].
        simpl in Ho. injection Ho as <-. apply for_each_Ok in Hl.
        destruct (Forall2_lookup_l _ _ _ _ _ Hl Hy) as (y' & ? & ?). eauto.
      - rewrite replace_string_objects_dict in Ho.
        destruct (replace_in_dict m d) as [d'|] eqn:Hd; [|done].
        simpl in Ho. injection Ho as <-. apply replace_in_dict_Ok in Hd.
        destruct (items_getitem d k) as [v|] eqn:Hk; [|done]. simplify_eq.
        destruct (items_getitem_Forall2
                    (λ v v', replace_string_objects m v = Ok v') _ _ _ _ Hd Hk)
          as (v' & Hk' & ?).
        exists v'. simpl. by rewrite Hk'. }
    rewrite Hy'. eauto.
Qed.

(** The splits that a successful [Tokenize.run] returns. *)
Lemma Tokenize_run_splits tokenizer_name input fields_to_tokenize
    add_special_tokens max_length special_tokens_mask offset_mapping σ out σ' d :
  heap σ !! input = Some (ObjDataset d) →
  Tokenize_run tokenizer_name input fields_to_tokenize add_special_tokens
    max_length special_tokens_mask offset_mapping σ = (Ok out, σ') →
  ∃ tokenizer regexes encoded string_to_field dout,
    get_tokenizer tokenizer_name = Ok tokenizer
    ∧ compile_regexes fields_to_tokenize = Ok regexes
    ∧ batch_encode_plus tokenizer (Text <$> (found_in regexes d).*2)
        (tokenize_options add_special_tokens max_length special_tokens_mask
           offset_mapping) = Ok encoded
    ∧ make_string_to_field tokenizer encoded (found_in regexes d).*2 0 ∅
      = Ok string_to_field
    ∧ heap σ' !! out = Some (ObjDataset dout)
    ∧ Forall2 (λ kv kv',
         kv'.1 = kv.1
         ∧ ∃ rows', kv'.2 = SList rows'
                    ∧ Forall2 (λ x x', replace_string_objects string_to_field x = Ok x')
                        (split_items kv.2) rows')
        (splits d) (splits dout).
Proof.
  intros Hinput Hrun.
  apply Tokenize_run_Ok in Hrun as (tokenizer & Htok & _ & Hbody).
  apply Tokenize_body_Ok in Hbody
    as (regexes & d' & encoded & m & new_splits & l' & v0 & Hre & Hd' & Henc
        & Hm & Hnew & _ & _ & _ & _ & ->).
  simplify_eq.
  exists tokenizer, regexes, encoded, m, (mkAllenNlpDataset new_splits (Some l') []).
  split_and!; try done; [apply lookup_insert_eq|]. simpl.
  apply for_each_Ok in Hnew. eapply Forall2_impl; [apply Hnew|].
  intros [name split] [name' split'] H. simpl in *.
  unfold replace_split in H.
  destruct (for_each (replace_string_objects m) (split_items split))
    as [rows'|] eqn:Hrows; [|done].
  simpl in H. injection H as <- <-. split; [done|].
  exists rows'. split; [done|]. by apply for_each_Ok.
Qed.

(** Every string of the input is, at its position in the result, what the
    string-to-field mapping gives for it. *)
Lemma Tokenize_run_at tokenizer_name input fields_to_tokenize
    add_special_tokens max_length special_tokens_mask offset_mapping σ out σ' d :
  heap σ !! input = Some (ObjDataset d) →
  Tokenize_run tokenizer_name input fields_to_tokenize add_special_tokens
    max_length special_tokens_mask offset_mapping σ = (Ok out, σ') →
  ∃ tokenizer regexes encoded string_to_field dout,
    get_tokenizer tokenizer_name = Ok tokenizer
    ∧ compile_regexes fields_to_tokenize = Ok regexes
    ∧ batch_encode_plus tokenizer (Text <$> (found_in regexes d).*2)
        (tokenize_options add_special_tokens max_length special_tokens_mask
           offset_mapping) = Ok encoded
    ∧ make_string_to_field tokenizer encoded (found_in regexes d).*2 0 ∅
      = Ok string_to_field
    ∧ heap σ' !! out = Some (ObjDataset dout)
    ∧ ∀ k split_name split j instance path s,
        splits d !! k = Some (split_name, split) →
        split_items split !! j = Some instance →
        value_at instance path = Some (PStr s) →
        ∃ rows' instance',
          splits dout !! k = Some (split_name, SList rows')
          ∧ rows' !! j = Some instance'
          ∧ value_at instance' path
            = Some (match string_to_field !! s with
                    | Some f => PField (FieldText f)
                    | None => PStr s
                    end).
Proof.
  intros Hinput Hrun.
  destruct (Tokenize_run_splits _ _ _ _ _ _ _ _ _ _ _ Hinput Hrun)
    as (tokenizer & regexes & encoded & m & dout & Htok & Hre & Henc & Hm
        & Hout & Hsplits).
  exists tokenizer, regexes, encoded, m, dout. split_and!; try done.
  intros k split_name split j instance path s Hk Hj Hat.
  destruct (Forall2_lookup_l _ _ _ _ _ Hsplits Hk)
    as ([name' split'] & Hk' & Hname & rows' & Hsplit' & Hrows).
  simpl in *. subst name' split'.
  destruct (Forall2_lookup_l _ _ _ _ _ Hrows Hj) as (instance' & Hj' & Hrep).
  destruct (replace_string_objects_at _ _ _ _ _ Hrep Hat) as (x' & Hat' & Hx').
  rewrite replace_string_objects_str in Hx'. injection Hx' as <-.
  by exists rows', instance'.
Qed.

(** A string that is not among the strings given to the tokenizer is returned
    unchanged, at its position. *)
Lemma Tokenize_run_other_strings tokenizer_name input fields_to_tokenize
    add_special_tokens max_length special_tokens_mask offset_mapping σ out σ' d :
  heap σ !! input = Some (ObjDataset d) →
  Tokenize_run tokenizer_name input fields_to_tokenize add_special_tokens
    max_length special_tokens_mask offset_mapping σ = (Ok out, σ') →
  ∃ regexes dout,
    compile_regexes fields_to_tokenize = Ok regexes
    ∧ heap σ' !! out = Some (ObjDataset dout)
    ∧ ∀ k split_name split j instance path s,
        splits d !! k = Some (split_name, split) →
        split_items split !! j = Some instance →
        value_at instance path = Some (PStr s) →
        s ∉ (found_in regexes d).*2 →
        ∃ rows' instance',
          splits dout !! k = Some (split_name, SList rows')
          ∧ rows' !! j = Some instance'
          ∧ value_at instance' path = Some (PStr s).
Proof.
  intros Hinput Hrun.
  destruct (Tokenize_run_at _ _ _ _ _ _ _ _ _ _ _ Hinput Hrun)
    as (tokenizer & regexes & encoded & m & dout & _ & Hre & _ & Hm & Hout & Hpos).
  exists regexes, dout. split_and!; try done.
  intros k split_name split j instance path s Hk Hj Hat Hs.
  destruct (Hpos _ _ _ _ _ _ _ Hk Hj Hat) as (rows' & instance' & ? & ? & Hat').
  exists rows', instance'. split_and!; try done.
  destruct (make_string_to_field_Ok _ _ _ _ _ _ Hm s) as [Hnone _].
  by rewrite (Hnone Hs), lookup_empty in Hat'.
Qed.

(** C2. In a successful [Tokenize.run], every string of the input splits (at
    a position of an instance reached through lists and dicts, the positions
    that have a dotted field name) is, at the same position of the output,
    what the string-to-field mapping gives for it: its field if it has one,
    itself otherwise; so equal strings get the same field.  A string at a
    position whose dotted field name is
    selected (every name when [fields_to_tokenize] is [None], the names that
    one of the regexes fully matches otherwise) is one of the strings given to
    the tokenizer, and the field at its position has as [input_ids] and
    [token_type_ids] the tensors of the rows that the batch encoding has for
    an entry of that string. *)
Theorem tokenize_replaces_selected_strings (tokenizer_name : string) (input : loc)
    (fields_to_tokenize : option (list string)) (add_special_tokens : bool)
    (max_length : option Z) (special_tokens_mask offset_mapping : bool)
    (σ : state) (out : loc) (σ' : state) (d : AllenNlpDataset) :
  heap σ !! input = Some (ObjDataset d) →
  Tokenize_run tokenizer_name input fields_to_tokenize add_special_tokens
    max_length special_tokens_mask offset_mapping σ = (Ok out, σ') →
  ∃ tokenizer regexes encoded string_to_field dout,
    get_tokenizer tokenizer_name = Ok tokenizer
    ∧ compile_regexes fields_to_tokenize = Ok regexes
    ∧ batch_encode_plus tokenizer (Text <$> (found_in regexes d).*2)
        (tokenize_options add_special_tokens max_length special_tokens_mask
           offset_mapping) = Ok encoded
    ∧ make_string_to_field tokenizer encoded (found_in regexes d).*2 0 ∅
      = Ok string_to_field
    ∧ heap σ' !! out = Some (ObjDataset dout)
    ∧ ∀ k split_name split j instance path s,
        splits d !! k = Some (split_name, split) →
        split_items split !! j = Some instance →
        value_at instance path = Some (PStr s) →
        ∃ rows' instance',
          splits dout !! k = Some (split_name, SList rows')
          ∧ rows' !! j = Some instance'
          ∧ value_at instance' path
            = Some (match string_to_field !! s with
                    | Some f => PField (FieldText f)
                    | None => PStr s
                    end)
          ∧ (should_tokenize_field regexes (field_name "" path) = true →
             ∃ i f,
               (found_in regexes d).*2 !! i = Some s
               ∧ tokenize_field_of_entry tokenizer encoded i f
               ∧ value_at instance' path = Some (PField (FieldText f))).
Proof.
  intros Hinput Hrun.
  destruct (Tokenize_run_at _ _ _ _ _ _ _ _ _ _ _ Hinput Hrun)
    as (tokenizer & regexes & encoded & m & dout & Htok & Hre & Henc & Hm
        & Hout & Hpos).
  exists tokenizer, regexes, encoded, m, dout. split_and!; try done.
  intros k split_name split j instance path s Hk Hj Hat.
  destruct (Hpos _ _ _ _ _ _ _ Hk Hj Hat) as (rows' & instance' & ? & ? & Hat').
  exists rows', instance'. split_and!; try done.
  intros Hsel.
  assert (s ∈ (found_in regexes d).*2) as Hs.
  { apply list_elem_of_fmap. exists (field_name "" path, s). split; [done|].
    by eapply found_strings_at. }
  destruct (make_string_to_field_Ok _ _ _ _ _ _ Hm s) as [_ Hin].
  destruct (Hin Hs) as (i & f & Hi & _ & Hf & Hms).
  exists i, f. rewrite Hat', Hms. split_and!; try done.
  by apply make_field_Ok.
Qed.

(** ** Tokenize: the structure of the result *)

Lemma replace_string_objects_shape m o o' :
  replace_string_objects m o = Ok o' → same_shape o o'.
Proof.
  revert o'.
  induction o as [s|z| |l IH|d IH|rows IH|f|i] using pyobj_ind; intros o' Ho;
    try (simpl in Ho; injection Ho as <-; constructor).
  - rewrite replace_string_objects_str in Ho. injection Ho as <-.
    destruct (m !! s); constructor.
  - simpl in Ho.
    destruct (for_each (replace_string_objects m) l) as [l'|] eqn:Hl; [|done].
    simpl in Ho. injection Ho as <-. constructor.
    apply for_each_Ok in Hl. revert IH.
    induction Hl as [|x x' l l' Hx _ IHl]; intros IH; constructor.
    + apply Forall_cons in IH as [IHx _]. by apply IHx.
    + apply Forall_cons in IH as [_ IH]. by apply IHl.
  - rewrite replace_string_objects_dict in Ho.
    destruct (replace_in_dict m d) as [d'|] eqn:Hd; [|done].
    simpl in Ho. injection Ho as <-. constructor.
    apply replace_in_dict_Ok in Hd. revert IH.
    induction Hd as [|kv kv' d d' [Hk Hv] _ IHd]; intros IH; constructor.
    + apply Forall_cons in IH as [IHv _]. split; [done|]. by apply IHv.
    + apply Forall_cons in IH as [_ IH]. by apply IHd.
  - simpl in Ho.
    destruct (for_each (replace_string_objects m) rows) as [l'|] eqn:Hl; [|done].
    simpl in Ho. injection Ho as <-. constructor.
    apply for_each_Ok in Hl. revert IH.
    induction Hl as [|x x' l l' Hx _ IHl]; intros IH; constructor.
    + apply Forall_cons in IH as [IHx _]. by apply IHx.
    + apply Forall_cons in IH as [_ IH]. by apply IHl.
Qed.

(** C8. A successful [Tokenize.run] returns a dataset with the split names of
    the input, in the same order, and each split of the output has the
    structure of the split of the input: every dict keeps its keys, every list
    (and every Dataset, which comes back as a list) keeps its length and the
    order of its elements, every leaf that is not a string is returned
    unchanged, and a string is returned unchanged or replaced by a field. *)
Theorem tokenize_preserves_structure (tokenizer_name : string) (input : loc)
    (fields_to_tokenize : option (list string)) (add_special_tokens : bool)
    (max_length : option Z) (special_tokens_mask offset_mapping : bool)
    (σ : state) (out : loc) (σ' : state) (d : AllenNlpDataset) :
  heap σ !! input = Some (ObjDataset d) →
  Tokenize_run tokenizer_name input fields_to_tokenize add_special_tokens
    max_length special_tokens_mask offset_mapping σ = (Ok out, σ') →
  ∃ dout,
    heap σ' !! out = Some (ObjDataset dout)
    ∧ (splits dout).*1 = (splits d).*1
    ∧ Forall2 (λ kv kv',
         kv'.1 = kv.1
         ∧ length (split_items kv'.2) = length (split_items kv.2)
         ∧ same_shape (pyobj_of_split kv.2) (pyobj_of_split kv'.2))
        (splits d) (splits dout).
Proof.
  intros Hinput Hrun.
  destruct (Tokenize_run_splits _ _ _ _ _ _ _ _ _ _ _ Hinput Hrun)
    as (tokenizer & regexes & encoded & m & dout & _ & _ & _ & _ & Hout & Hsplits).
  exists dout. split_and!; try done.
  - clear -Hsplits. induction Hsplits as [|? ? ? ? [Hname _] _ IH]; [done|].
    rewrite !fmap_cons. by f_equal.
  - eapply Forall2_impl; [apply Hsplits|].
    intros [name split] [name' split'] (Hname & rows' & -> & Hrows). simpl in *.
    split_and!; try done.
    + symmetry. by eapply Forall2_length.
    + assert (Forall2 same_shape (split_items split) rows') as Hshape.
      { eapply Forall2_impl; [apply Hrows|].
        intros x x'. apply replace_string_objects_shape. }
      destruct split; by constructor.
Qed.

(** ** Tokenize: failures *)

Lemma new_splits_total m (input_splits : list (string * Split)) :
  ∃ new_splits,
    for_each (λ kv, data ← replace_split m kv.2; Ok (kv.1, data)) input_splits
    = Ok new_splits.
Proof.
  induction input_splits as [|[name split] rest [new Hnew]]; [by exists []|].
  assert (∃ rows, for_each (replace_string_objects m) (split_items split) = Ok rows)
    as [rows Hrows].
  { induction (split_items split) as [|x xs [rows Hrows]]; [by exists []|].
    destruct (replace_string_objects_total m x) as [x' Hx].
    exists (x' :: rows). simpl. by rewrite Hx, Hrows. }
  exists ((name, SList rows) :: new). apply for_each_Ok.
  constructor; [|by apply for_each_Ok].
  unfold replace_split. simpl. by rewrite Hrows.
Qed.

Lemma Tokenize_run_passes tokenizer_name tokenizer input fields_to_tokenize
    add_special_tokens max_length special_tokens_mask offset_mapping σ :
  get_tokenizer tokenizer_name = Ok tokenizer →
  pad_token_type_id tokenizer = 0 →
  Tokenize_run tokenizer_name input fields_to_tokenize add_special_tokens
    max_length special_tokens_mask offset_mapping σ
  = Tokenize_body tokenizer input fields_to_tokenize add_special_tokens
      max_length special_tokens_mask offset_mapping σ.
Proof.
  intros Htok Hpad. unfold Tokenize_run.
  rewrite (bind_step _ _ _ _ _ (f_equal (λ o, (o, σ)) Htok : lift _ σ = _)).
  by rewrite bool_decide_eq_true_2 by done.
Qed.



(** ** The runs return *)

Lemma make_string_to_field_returns tokenizer encoded strings i0 acc :
  (∀ j, (j < length strings)%nat →
        ∃ f, make_field tokenizer encoded (i0 + j) = Ok f) →
  ∃ m, make_string_to_field tokenizer encoded strings i0 acc = Ok m.
Proof.
  revert i0 acc. induction strings as [|s strings IH]; intros i0 acc Hall; simpl.
  - by eexists.
  - destruct (Hall 0%nat) as [f Hf]; [simpl; lia|].
    rewrite Nat.add_0_r in Hf. rewrite Hf. simpl. apply IH.
    intros j Hj. rewrite Nat.add_succ_comm. apply Hall. simpl. lia.
Qed.

(** [Tokenize.run] returns a dataset when the tokenizer loads with a
    [pad_token_type_id] of 0, the regexes compile, the input and its
    vocabulary are in the store, and the batch encoding has a row, within 32
    bits, for every string. *)
Lemma Tokenize_run_returns tokenizer_name tokenizer input fields_to_tokenize
    add_special_tokens max_length special_tokens_mask offset_mapping σ
    regexes d encoded :
  get_tokenizer tokenizer_name = Ok tokenizer →
  pad_token_type_id tokenizer = 0 →
  compile_regexes fields_to_tokenize = Ok regexes →
  heap σ !! input = Some (ObjDataset d) →
  (∀ l, vocab d = Some l → ∃ v, heap σ !! l = Some (ObjVocab v)) →
  batch_encode_plus tokenizer (Text <$> (found_in regexes d).*2)
    (tokenize_options add_special_tokens max_length special_tokens_mask
       offset_mapping) = Ok encoded →
  (∀ j, (j < length (found_in regexes d).*2)%nat →
        ∃ f, make_field tokenizer encoded j = Ok f) →
  ∃ out σ',
    Tokenize_run tokenizer_name input fields_to_tokenize add_special_tokens
      max_length special_tokens_mask offset_mapping σ = (Ok out, σ').
Proof.
  intros Htok Hpad Hre Hd Hvocab Henc Hfields.
  rewrite (Tokenize_run_passes _ _ _ _ _ _ _ _ _ Htok Hpad).
  unfold Tokenize_body.
  rewrite (bind_step _ _ _ _ _ (f_equal (λ o, (o, σ)) Hre : lift _ σ = _)).
  rewrite (bind_step _ _ _ _ _ (read_dataset_at _ _ _ Hd)). cbv zeta.
  rewrite (bind_step _ _ _ _ _ (for_loop_logging_info _ _ _)).
  fold (found_in regexes d).
  rewrite (bind_step _ _ _ _ _ (f_equal (λ o, (o, _)) Henc : lift _ _ = _)).
  destruct (make_string_to_field_returns tokenizer encoded
              (found_in regexes d).*2 0 ∅ Hfields) as [m Hm].
  rewrite (bind_step _ _ _ _ _ (f_equal (λ o, (o, _)) Hm : lift _ _ = _)).
  destruct (new_splits_total m (splits d)) as [new_splits Hnew].
  rewrite (bind_step _ _ _ _ _ (f_equal (λ o, (o, _)) Hnew : lift _ _ = _)).
  set (σl := mkState (heap σ) _).
  assert (∃ l' v0,
            match vocab d with
            | Some l => deepcopy_vocab l
            | None => alloc (ObjVocab Vocabulary_empty)
            end σl
            = (Ok l', mkState (<[l' := ObjVocab v0]> (heap σl)) (log σl)))
    as (l' & v0 & Hl').
  { destruct (vocab d) as [l|].
    - destruct (Hvocab l eq_refl) as [v Hv]. eexists _, v.
      unfold deepcopy_vocab.
      erewrite bind_step; [reflexivity|]. unfold read_vocab. simpl. by rewrite Hv.
    - by eexists _, _. }
  rewrite (bind_step _ _ _ _ _ Hl').
  rewrite (bind_step _ _ _ _ _ (for_loop_update_vocab _ _ _ _ _ _)).
  by eexists _, _.
Qed.

(** [TextOnlyDataset.run] returns a dataset when the input is in the store
    and all its instances have items. *)
Lemma TextOnlyDataset_run_returns input fields_to_keep σ d :
  heap σ !! input = Some (ObjDataset d) →
  (∀ kv instance, kv ∈ splits d → instance ∈ split_items kv.2 →
                  ∃ items, py_items instance = Ok items) →
  ∃ out σ', TextOnlyDataset_run input fields_to_keep σ = (Ok out, σ').
Proof.
  intros Hd Hitems. unfold TextOnlyDataset_run.
  rewrite (bind_step _ _ _ _ _ (read_dataset_at _ _ _ Hd)).
  assert (∃ new_splits,
            for_each (λ kv, rows ← text_only_split fields_to_keep kv.2;
                            Ok (kv.1, SList rows)) (splits d) = Ok new_splits)
    as [new_splits Hnew].
  { induction (splits d) as [|kv rest IH]; [by exists []|].
    destruct IH as [new Hnew].
    { intros kv' instance Hkv'. apply Hitems. by constructor. }
    assert (∃ per_instance,
              for_each (text_only_instance fields_to_keep) (split_items kv.2)
              = Ok per_instance) as [per_instance Hper].
    { assert (∀ instance, instance ∈ split_items kv.2 →
                          ∃ items, py_items instance = Ok items) as Hkv.
      { intros instance. apply Hitems. constructor. }
      induction (split_items kv.2) as [|x xs IHx]; [by exists []|].
      destruct IHx as [per Hper].
      { intros instance ?. apply Hkv. by constructor. }
      destruct (Hkv x) as [items Hx]; [constructor|].
      eexists. simpl. unfold text_only_instance at 1. rewrite Hx. simpl.
      by rewrite Hper. }
    eexists. simpl. unfold text_only_split at 1. rewrite Hper. simpl.
    by rewrite Hnew. }
  rewrite (bind_step _ _ _ _ _ (f_equal (λ o, (o, _)) Hnew : lift _ _ = _)).
  by eexists _, _.
Qed.

Lemma piqa_results_per_split_returns tokenized_alts i0 instances :
  (∀ j, (j < 2 * (i0 + length instances))%nat →
        ∃ f, piqa_alternative_field tokenized_alts j = Ok f) →
  ∃ results, piqa_results_per_split tokenized_alts i0 instances = Ok results.
Proof.
  revert i0. induction instances as [|x xs IH]; intros i0 Hall; simpl.
  - by eexists.
  - destruct (Hall (2 * i0)%nat) as [f1 Hf1]; [simpl; lia|].
    destruct (Hall (2 * i0 + 1)%nat) as [f2 Hf2]; [simpl; lia|].
    destruct (IH (S i0)) as [rs Hrs].
    { intros j Hj. apply Hall. simpl in *. lia. }
    unfold piqa_instance, for_each. rewrite Hf1, Hf2. simpl.
    rewrite Hrs. by eexists.
Qed.

Lemma piqa_result_returns tokenized dataset_items acc :
  (∀ kv, kv ∈ dataset_items →
         ∃ tokenized_alts results,
           items_getitem tokenized kv.1 = Ok tokenized_alts
           ∧ piqa_results_per_split tokenized_alts 0 kv.2 = Ok results) →
  ∃ result, piqa_result tokenized dataset_items acc = Ok result.
Proof.
  revert acc. induction dataset_items as [|[name instances] rest IH];
    intros acc Hall; simpl.
  - by eexists.
  - destruct (Hall (name, instances)) as (enc & rs & Henc & Hrs); [constructor|].
    simpl in *. rewrite Henc. simpl. rewrite Hrs. simpl. apply IH.
    intros kv Hkv. apply Hall. by constructor.
Qed.

(** [PiqaInstances.run] returns a dataset when the tokenizer loads with a
    [pad_token_type_id] of 0, the dataset loads, and the batch encoding of
    every split has a row, within 32 bits, for each of its pairs. *)
Lemma PiqaInstances_run_returns tokenizer_name tokenizer max_length σ raw :
  get_tokenizer tokenizer_name = Ok tokenizer →
  pad_token_type_id tokenizer = 0 →
  load_piqa = Ok raw →
  NoDup raw.*1 →
  (∀ kv, kv ∈ raw →
         ∃ encoded,
           batch_encode_plus tokenizer (flat_map alternatives (piqa_item <$> kv.2))
             (piqa_options max_length) = Ok encoded
           ∧ ∀ j, (j < 2 * length kv.2)%nat →
                  ∃ f, piqa_alternative_field encoded j = Ok f) →
  ∃ out σ', PiqaInstances_run tokenizer_name max_length σ = (Ok out, σ').
Proof.
  intros Htok Hpad Hraw Hnd Hall. unfold PiqaInstances_run.
  rewrite (bind_step _ _ _ _ _ (f_equal (λ o, (o, σ)) Htok : lift _ σ = _)).
  unfold py_assert. rewrite bool_decide_eq_true_2 by done.
  rewrite (bind_step _ _ _ _ _ (eq_refl : (mret () : M unit) σ = _)).
  unfold PiqaInstances_body.
  rewrite (bind_step _ _ _ _ _ (f_equal (λ o, (o, σ)) Hraw : lift _ σ = _)).
  cbv zeta. set (dataset := map (λ kv, (kv.1, piqa_item <$> kv.2)) raw).
  assert (∃ tokenized,
            Forall2 (λ kv te,
                       te.1 = kv.1
                       ∧ batch_encode_plus tokenizer
                           (flat_map alternatives (piqa_item <$> kv.2))
                           (piqa_options max_length) = Ok te.2)
              raw tokenized) as [tokenized Htokd].
  { clear -Hall. induction raw as [|kv rest IH]; [by exists []|].
    destruct IH as [tokd Htokd].
    { intros kv' ?. apply Hall. by constructor. }
    destruct (Hall kv) as (enc & Henc & _); [constructor|].
    exists ((kv.1, enc) :: tokd). by constructor. }
  assert (for_each (λ kv, enc ← batch_encode_plus tokenizer
                                  (flat_map alternatives kv.2)
                                  (piqa_options max_length);
                          Ok (kv.1, enc)) dataset = Ok tokenized) as Hfor.
  { apply for_each_Ok. subst dataset. apply Forall2_fmap_l.
    eapply Forall2_impl; [apply Htokd|].
    intros kv [n enc] [Hn Henc]. simpl in *. rewrite Henc. simpl. by subst n. }
  rewrite (bind_step _ _ _ _ _ (f_equal (λ o, (o, σ)) Hfor : lift _ σ = _)).
  assert (tokenized.*1 = raw.*1) as Hkeys.
  { clear -Htokd. induction Htokd as [|? ? ? ? [Hn _] _ IH]; [done|].
    rewrite !fmap_cons. by f_equal. }
  destruct (piqa_result_returns tokenized dataset []) as [result Hres].
  { intros kv Hkv. subst dataset.
    apply (list_elem_of_fmap (λ kv, (kv.1, piqa_item <$> kv.2))) in Hkv
      as (kv0 & -> & Hkv0).
    apply list_elem_of_lookup in Hkv0 as [k Hk].
    destruct (Forall2_lookup_l _ _ _ _ _ Htokd Hk) as ([n enc] & Htk & Hn & Henc).
    simpl in *. subst n.
    destruct (Hall kv0) as (enc' & Henc' & Hrows);
      [by eapply list_elem_of_lookup_2|].
    rewrite Henc in Henc'. injection Henc' as <-.
    destruct (piqa_results_per_split_returns enc 0 (piqa_item <$> kv0.2))
      as [rs Hrs].
    { intros j Hj. apply Hrows. rewrite length_fmap in Hj. simpl in Hj. lia. }
    exists enc, rs. split; [|done].
    eapply items_getitem_lookup; [by rewrite Hkeys|done]. }
  rewrite (bind_step _ _ _ _ _ (f_equal (λ o, (o, σ)) Hres : lift _ σ = _)).
  unfold alloc at 2. unfold mbind at 1, M_bind at 1. cbv zeta.
  erewrite bind_step; last first.
  { apply update_vocab_at. simpl. apply lookup_insert_eq. }
  by eexists _, _.
Qed.

End Properties.

(** * Further properties of the steps *)

Section Further.
Context `{Ext : Externals}.
Context `{Ord : SetOrder}.

(** ** Field names *)

Lemma string_app_assoc (a b c : string) : (a +:+ b) +:+ c = a +:+ b +:+ c.
Proof.
  induction a as [|x a IH]; [done|].
  change (String x ((a +:+ b) +:+ c) = String x (a +:+ b +:+ c)). by f_equal.
Qed.

Lemma string_app_empty_r (a : string) : a +:+ "" = a.
Proof.
  induction a as [|x a IH]; [done|].
  change (String x (a +:+ "") = String x a). by f_equal.
Qed.

Lemma lstrip_dot_app (p x : string) :
  lstrip_dot (lstrip_dot p +:+ x) = lstrip_dot (p +:+ x).
Proof.
  induction p as [|c p IH]; [done|].
  change (String c p +:+ x) with (String c (p +:+ x)). simpl.
  destruct (Ascii.eqb c ".") eqn:Hc; [done|].
  change (String c p +:+ x) with (String c (p +:+ x)). simpl. by rewrite Hc.
Qed.

Lemma lstrip_dot_idemp (p : string) : lstrip_dot (lstrip_dot p) = lstrip_dot p.
Proof.
  rewrite <- (string_app_empty_r (lstrip_dot p)), lstrip_dot_app.
  by rewrite !string_app_empty_r.
Qed.

Lemma elem_of_find_in_list should prefix l i0 found :
  found ∈ find_in_list should prefix l i0
  ↔ ∃ i x, l !! i = Some x
           ∧ found ∈ find_string_objects should x
                       (dotted prefix (str_of_nat (i0 + i))).
Proof.
  revert i0. induction l as [|y l IH]; intros i0; simpl.
  - split; [by intros ?%elem_of_nil|]. by intros (i & x & ? & _).
  - rewrite elem_of_app, IH. split.
    + intros [H|(i & x & Hi & H)].
      * exists 0%nat, y. by rewrite Nat.add_0_r.
      * exists (S i), x. by rewrite Nat.add_succ_r.
    + intros ([|i] & x & Hi & H); simpl in Hi.
      * left. simplify_eq. by rewrite Nat.add_0_r in H.
      * right. exists i, x. by rewrite Nat.add_succ_r in H.
Qed.

Lemma elem_of_find_in_dict should prefix d found :
  found ∈ find_in_dict should prefix d
  ↔ ∃ k x, (k, x) ∈ d ∧ found ∈ find_string_objects should x (dotted prefix k).
Proof.
  induction d as [|[k' y] d IH]; simpl.
  - split; [by intros ?%elem_of_nil|]. by intros (k & x & ?%elem_of_nil & _).
  - rewrite elem_of_app, IH. split.
    + intros [H|(k & x & Hk & H)].
      * exists k', y. split; [constructor|done].
      * exists k, x. split; [by constructor|done].
    + intros (k & x & [[= -> ->]|Hk]%elem_of_cons & H); [by left|].
      right. by exists k, x.
Qed.

Lemma lstrip_dot_dotted prefix name rest :
  lstrip_dot (dotted (lstrip_dot prefix) name +:+ rest)
  = lstrip_dot (prefix +:+ "." +:+ name +:+ rest).
Proof. unfold dotted. by rewrite !string_app_assoc, lstrip_dot_app. Qed.

(** What [find_string_objects] yields, and under which names. *)
Lemma find_string_objects_spec should o prefix field s :
  (field, s) ∈ find_string_objects should o prefix
  ↔ ∃ path, reaches o path (PStr s)
            ∧ field = lstrip_dot (prefix +:+ dotted_path path)
            ∧ should field = true.
Proof.
  revert prefix.
  induction o as [s0|z| |l IH|d IH|rows IH|f|i] using pyobj_ind; intros prefix;
    try (split; [by intros ?%elem_of_nil
                |intros (path & Hreach & _); by inversion Hreach]).
  - simpl. split.
    + destruct (should (lstrip_dot prefix)) eqn:Hsel; [|by intros ?%elem_of_nil].
      intros [= -> ->]%list_elem_of_singleton. exists [].
      split; [constructor|]. simpl. by rewrite string_app_empty_r.
    + intros (path & Hreach & -> & Hsel). inversion Hreach; subst.
      simpl in *. rewrite string_app_empty_r in Hsel |- *. rewrite Hsel.
      constructor.
  - rewrite find_string_objects_list, elem_of_find_in_list. split.
    + intros (i & x & Hi & Hfound).
      rewrite Forall_lookup in IH. apply (IH _ _ Hi) in Hfound
        as (path & Hreach & -> & Hsel).
      exists (Index i :: path). split; [by econstructor|].
      rewrite lstrip_dot_dotted in Hsel |- *. done.
    + intros (path & Hreach & -> & Hsel). inversion Hreach; subst.
      exists i, x. split; [done|]. rewrite Forall_lookup in IH.
      eapply IH; [done|]. eexists. split; [done|].
      rewrite lstrip_dot_dotted. done.
  - rewrite find_string_objects_dict, elem_of_find_in_dict. split.
    + intros (k & x & Hk & Hfound).
      rewrite Forall_forall in IH. apply (IH _ Hk) in Hfound
        as (path & Hreach & -> & Hsel).
      exists (Key k :: path). split; [by econstructor|].
      rewrite lstrip_dot_dotted in Hsel |- *. done.
    + intros (path & Hreach & -> & Hsel). inversion Hreach; subst.
      exists k, x. split; [done|]. rewrite Forall_forall in IH.
      eapply (IH (k, x)); [done|]. eexists. split; [done|].
      rewrite lstrip_dot_dotted. done.
Qed.

Lemma found_strings_at_selected should input_splits field s :
  (field, s) ∈ found_strings should input_splits → should field = true.
Proof.
  unfold found_strings. rewrite list_elem_of_In, in_flat_map.
  intros ([split_name split] & _ & Hin). simpl in Hin.
  apply in_flat_map in Hin as (instance & _ & Hin).
  apply list_elem_of_In, find_string_objects_spec in Hin as (? & ? & ? & ?).
  done.
Qed.

Lemma elem_of_found_strings (should : string → bool)
    (input_splits : list (string * Split)) (field s : string) :
  (field, s) ∈ found_strings should input_splits
  ↔ ∃ k split_name split j instance path,
      input_splits !! k = Some (split_name, split)
      ∧ split_items split !! j = Some instance
      ∧ reaches instance path (PStr s)
      ∧ field = lstrip_dot (dotted_path path)
      ∧ should field = true.
Proof.
  unfold found_strings. rewrite list_elem_of_In, in_flat_map. split.
  - intros ([split_name split] & [k Hk]%list_elem_of_In%list_elem_of_lookup
            & Hin).
    simpl in Hin. apply in_flat_map in Hin
      as (instance & [j Hj]%list_elem_of_In%list_elem_of_lookup & Hin).
    apply list_elem_of_In, find_string_objects_spec in Hin
      as (path & Hreach & Hfield & Hsel).
    by exists k, split_name, split, j, instance, path.
  - intros (k & split_name & split & j & instance & path & Hk & Hj & Hreach
            & Hfield & Hsel).
    exists (split_name, split).
    split; [apply list_elem_of_In; by eapply list_elem_of_lookup_2|].
    simpl. apply in_flat_map. exists instance.
    split; [apply list_elem_of_In; by eapply list_elem_of_lookup_2|].
    apply list_elem_of_In, find_string_objects_spec. by exists path.
Qed.

(** X1. The loops of [Tokenize.run] over the splits collect a pair
    (field name, string) exactly for the strings that sit in an instance at a
    position reached through lists and dicts whose field name is selected; the
    field name is the dot-joined names of the steps of the position with the
    leading dots stripped, so it never starts with a dot. *)
Theorem found_strings_spec (should : string → bool)
    (input_splits : list (string * Split)) (field s : string) :
  ((field, s) ∈ found_strings should input_splits
   ↔ ∃ k split_name split j instance path,
       input_splits !! k = Some (split_name, split)
       ∧ split_items split !! j = Some instance
       ∧ reaches instance path (PStr s)
       ∧ field = lstrip_dot (dotted_path path)
       ∧ should field = true)
  ∧ ((field, s) ∈ found_strings should input_splits → lstrip_dot field = field).
Proof.
  split; [apply elem_of_found_strings|].
  intros (k & split_name & split & j & instance & path & _ & _ & _ & -> & _)
    %elem_of_found_strings.
  apply lstrip_dot_idemp.
Qed.

(** ** The vocabulary and the log of Tokenize *)

Lemma field_names_used_spec (regexes : option (list Regex)) (d : AllenNlpDataset) :
  let names := set_iter (list_to_set (found_in regexes d).*1) in
  NoDup names
  ∧ (∀ n, n ∈ names ↔ ∃ s, (n, s) ∈ found_in regexes d)
  ∧ (∀ n, n ∈ names → should_tokenize_field regexes n = true).
Proof.
  intros names.
  assert (∀ n, n ∈ names ↔ ∃ s, (n, s) ∈ found_in regexes d) as Hnames.
  { intros n. subst names. rewrite set_iter_perm, elem_of_elements.
    rewrite elem_of_list_to_set, list_elem_of_fmap. split.
    - intros ([n' s] & -> & ?). by exists s.
    - intros (s & ?). by exists (n, s). }
  split_and!; [|done|].
  - subst names. rewrite set_iter_perm. apply NoDup_elements.
  - intros n (s & Hin)%Hnames. unfold found_in in Hin.
    apply found_strings_at_selected in Hin. done.
Qed.

(** X2. The dataset that a successful [Tokenize.run] returns has no
    metadata and a vocabulary object of its own, not in the store before:
    the content of the input's vocabulary (the empty vocabulary when the
    input has none) with the transformer vocab added once under each field
    name used, that is, under each name that a collected string was found
    under; all these names are selected. *)
Theorem tokenize_vocabulary (tokenizer_name : string) (input : loc)
    (fields_to_tokenize : option (list string)) (add_special_tokens : bool)
    (max_length : option Z) (special_tokens_mask offset_mapping : bool)
    (σ : state) (out : loc) (σ' : state) (d : AllenNlpDataset) :
  heap σ !! input = Some (ObjDataset d) →
  Tokenize_run tokenizer_name input fields_to_tokenize add_special_tokens
    max_length special_tokens_mask offset_mapping σ = (Ok out, σ') →
  ∃ tokenizer regexes dout l' v0 names,
    get_tokenizer tokenizer_name = Ok tokenizer
    ∧ compile_regexes fields_to_tokenize = Ok regexes
    ∧ heap σ' !! out = Some (ObjDataset dout)
    ∧ vocab dout = Some l'
    ∧ metadata dout = []
    ∧ (l' ∉ dom (heap σ))
    ∧ match vocab d with
      | Some l => heap σ !! l = Some (ObjVocab v0)
      | None => v0 = Vocabulary_empty
      end
    ∧ NoDup names
    ∧ (∀ n, n ∈ names ↔ ∃ s, (n, s) ∈ found_in regexes d)
    ∧ (∀ n, n ∈ names → should_tokenize_field regexes n = true)
    ∧ heap σ' !! l'
      = Some (ObjVocab
                (foldl (λ v n, add_transformer_vocab tokenizer n v) v0 names)).
Proof.
  intros Hinput Hrun.
  apply Tokenize_run_Ok in Hrun as (tokenizer & Htok & _ & Hbody).
  apply Tokenize_body_Ok in Hbody
    as (regexes & d' & encoded & m & new_splits & l' & v0 & Hre & Hd' & _
        & _ & _ & Hv0 & Hl' & _ & Hne & ->).
  simplify_eq.
  destruct (field_names_used_spec regexes d) as (Hnd & Hnames & Hsel).
  eexists tokenizer, regexes, _, l', v0, _.
  split_and!; try done; simpl.
  - apply lookup_insert_eq.
  - done.
  - done.
  - by rewrite lookup_insert_ne, lookup_insert_eq.
Qed.

(** X3. A successful [Tokenize.run] adds to the log one message
    "Tokenizing field <name>" for each field name used, in increasing order
    of the names and nothing else, whatever the order in which the set of
    names is visited. *)
Theorem tokenize_log (tokenizer_name : string) (input : loc)
    (fields_to_tokenize : option (list string)) (add_special_tokens : bool)
    (max_length : option Z) (special_tokens_mask offset_mapping : bool)
    (σ : state) (out : loc) (σ' : state) (d : AllenNlpDataset) :
  heap σ !! input = Some (ObjDataset d) →
  Tokenize_run tokenizer_name input fields_to_tokenize add_special_tokens
    max_length special_tokens_mask offset_mapping σ = (Ok out, σ') →
  ∃ regexes names,
    compile_regexes fields_to_tokenize = Ok regexes
    ∧ log σ' = log σ ++ ((λ n, "Tokenizing field " +:+ n) <$> names)
    ∧ StronglySorted String.le names
    ∧ NoDup names
    ∧ (∀ n, n ∈ names ↔ ∃ s, (n, s) ∈ found_in regexes d).
Proof.
  intros Hinput Hrun.
  apply Tokenize_run_Ok in Hrun as (tokenizer & Htok & _ & Hbody).
  apply Tokenize_body_Ok in Hbody
    as (regexes & d' & encoded & m & new_splits & l' & v0 & Hre & Hd' & _
        & _ & _ & _ & _ & _ & _ & ->).
  simplify_eq.
  destruct (field_names_used_spec regexes d) as (Hnd & Hnames & _).
  eexists regexes, _. split_and!; [done|reflexivity|..].
  - apply StronglySorted_merge_sort; apply _.
  - unfold sorted. by rewrite merge_sort_Permutation.
  - intros n. unfold sorted. by rewrite merge_sort_Permutation.
Qed.

(** ** Rows of the batch encoding *)

Lemma list_getitem_lt {A} (xs : list A) i :
  (i <? length xs)%nat = true → ∃ x, list_getitem xs i = Ok x ∧ xs !! i = Some x.
Proof.
  intros Hi%Nat.ltb_lt. unfold list_getitem.
  destruct (lookup_lt_is_Some_2 xs i Hi) as [x Hx]. rewrite Hx. eauto.
Qed.

Lemma list_getitem_ge {A} (xs : list A) i :
  (i <? length xs)%nat = false → list_getitem xs i = Raise IndexError.
Proof.
  intros Hi%Nat.ltb_ge. unfold list_getitem. by rewrite lookup_ge_None_2.
Qed.

Lemma tensor_int32_in_range (rows : list (list Z)) i ids :
  forallb (forallb int32_ok) rows = true → rows !! i = Some ids →
  tensor_int32 ids = Ok (IntTensor ids).
Proof.
  intros Hall Hi. unfold tensor_int32.
  rewrite forallb_forall in Hall. rewrite (Hall ids); [done|].
  apply list_elem_of_In. by eapply list_elem_of_lookup_2.
Qed.

Lemma optional_tensor_outcome {A} (rows : option (list A)) i
    (tensor : A → outcome Tensor) :
  (∀ all row, rows = Some all → all !! i = Some row → ∃ t, tensor row = Ok t) →
  if from_option (λ rows, i <? length rows)%nat true rows
  then ∃ t, optional_tensor rows i tensor = Ok t
  else optional_tensor rows i tensor = Raise IndexError.
Proof.
  intros Htensor. destruct rows as [all|]; simpl; [|by eexists].
  destruct (i <? length all)%nat eqn:Hi.
  - destruct (list_getitem_lt _ _ Hi) as (row & -> & Hrow). simpl.
    destruct (Htensor all row eq_refl Hrow) as [t ->]. by eexists.
  - by rewrite list_getitem_ge.
Qed.

(** With numbers that fit 32 bits, [make_field] builds the field of an
    entry that the encoding has and raises [IndexError] for one it lacks. *)
Lemma make_field_outcome tokenizer encoded i :
  encoding_int32 encoded = true →
  if has_entry encoded i
  then ∃ f, make_field tokenizer encoded i = Ok f
  else make_field tokenizer encoded i = Raise IndexError.
Proof.
  unfold encoding_int32, ids_int32, has_entry, piqa_has_entry, make_field.
  intros [[Hids Htypes]%andb_true_iff Hoffsets]%andb_true_iff.
  destruct (i <? length (enc_input_ids encoded))%nat eqn:Hi; simpl;
    [|by rewrite (list_getitem_ge _ _ Hi)].
  destruct (list_getitem_lt _ _ Hi) as (ids & -> & Hidsi). simpl.
  rewrite (tensor_int32_in_range _ _ _ Hids Hidsi). simpl.
  destruct (i <? length (enc_token_type_ids encoded))%nat eqn:Hj; simpl;
    [|by rewrite (list_getitem_ge _ _ Hj)].
  destruct (list_getitem_lt _ _ Hj) as (types & -> & Htypesi). simpl.
  rewrite (tensor_int32_in_range _ _ _ Htypes Htypesi). simpl.
  pose proof (optional_tensor_outcome (enc_attention_mask encoded) i tensor_bool
                ltac:(intros; by eexists)) as Hatt.
  destruct (from_option _ true (enc_attention_mask encoded)); simpl;
    [|by rewrite Hatt].
  destruct Hatt as [t1 ->]. simpl.
  pose proof (optional_tensor_outcome (enc_special_tokens_mask encoded) i
                tensor_bool ltac:(intros; by eexists)) as Hsp.
  destruct (from_option _ true (enc_special_tokens_mask encoded)); simpl;
    [|by rewrite Hsp].
  destruct Hsp as [t2 ->]. simpl.
  assert (∀ all row, enc_offset_mapping encoded = Some all →
                     all !! i = Some row →
                     ∃ t, tensor_int32_pairs row = Ok t) as Hpairs.
  { intros all row Hall Hrow. rewrite Hall in Hoffsets.
    unfold tensor_int32_pairs. rewrite forallb_forall in Hoffsets.
    rewrite (Hoffsets row); [by eexists|].
    apply list_elem_of_In. by eapply list_elem_of_lookup_2. }
  pose proof (optional_tensor_outcome (enc_offset_mapping encoded) i
                tensor_int32_pairs Hpairs) as Hoff.
  destruct (from_option _ true (enc_offset_mapping encoded)); simpl.
  - destruct Hoff as [t3 ->]. simpl. by eexists.
  - by rewrite Hoff.
Qed.

Lemma make_string_to_field_outcome tokenizer encoded strings i0 acc :
  encoding_int32 encoded = true →
  (∀ j, (j < length strings)%nat → has_entry encoded (i0 + j) = true)
  ∧ (∃ m, make_string_to_field tokenizer encoded strings i0 acc = Ok m)
  ∨ (∃ j, (j < length strings)%nat ∧ has_entry encoded (i0 + j) = false)
    ∧ make_string_to_field tokenizer encoded strings i0 acc = Raise IndexError.
Proof.
  intros Hrange. revert i0 acc.
  induction strings as [|s strings IH]; intros i0 acc; simpl.
  - left. split; [intros; lia|by eexists].
  - pose proof (make_field_outcome tokenizer encoded i0 Hrange) as Hf.
    destruct (has_entry encoded i0) eqn:Hi0.
    + destruct Hf as [f ->]. simpl.
      destruct (IH (S i0) (<[s := f]> acc)) as [[Hall Hm]|[(j & Hj & Hno) Hm]].
      * left. split; [|done]. intros [|j] Hj.
        -- by rewrite Nat.add_0_r.
        -- rewrite Nat.add_succ_r. apply Hall. lia.
      * right. split; [|done]. exists (S j).
        split; [lia|]. by rewrite Nat.add_succ_r.
    + right. rewrite Hf. split; [|done]. exists 0%nat.
      split; [lia|]. by rewrite Nat.add_0_r.
Qed.

(** X4. With the tokenizer loaded, the regexes compiled, the input and its
    vocabulary in the store and a batch encoding whose numbers fit 32 bits:
    [Tokenize.run] returns a dataset when the encoding has an entry for each
    of the strings it was given, and raises [IndexError], with no object added
    to the store, when an entry is missing. *)
Theorem tokenize_batch_rows (tokenizer_name : string) (tokenizer : Tokenizer)
    (input : loc) (fields_to_tokenize : option (list string))
    (add_special_tokens : bool) (max_length : option Z)
    (special_tokens_mask offset_mapping : bool) (σ : state)
    (regexes : option (list Regex)) (d : AllenNlpDataset)
    (encoded : BatchEncoding) :
  get_tokenizer tokenizer_name = Ok tokenizer →
  pad_token_type_id tokenizer = 0 →
  compile_regexes fields_to_tokenize = Ok regexes →
  heap σ !! input = Some (ObjDataset d) →
  (∀ l, vocab d = Some l → ∃ v, heap σ !! l = Some (ObjVocab v)) →
  batch_encode_plus tokenizer (Text <$> (found_in regexes d).*2)
    (tokenize_options add_special_tokens max_length special_tokens_mask
       offset_mapping) = Ok encoded →
  encoding_int32 encoded = true →
  ((∀ j, (j < length (found_in regexes d).*2)%nat → has_entry encoded j = true) →
   ∃ out σ',
     Tokenize_run tokenizer_name input fields_to_tokenize add_special_tokens
       max_length special_tokens_mask offset_mapping σ = (Ok out, σ'))
  ∧ ((∃ j, (j < length (found_in regexes d).*2)%nat
           ∧ has_entry encoded j = false) →
     ∃ σ',
       Tokenize_run tokenizer_name input fields_to_tokenize add_special_tokens
         max_length special_tokens_mask offset_mapping σ = (Raise IndexError, σ')
       ∧ heap σ' = heap σ).
Proof.
  intros Htok Hpad Hre Hd Hvocab Henc Hrange. split.
  - intros Hall. eapply Tokenize_run_returns; try done.
    intros j Hj. pose proof (make_field_outcome tokenizer encoded j Hrange) as Hf.
    by rewrite (Hall j Hj) in Hf.
  - intros (j & Hj & Hno).
    rewrite (Tokenize_run_passes _ _ _ _ _ _ _ _ _ Htok Hpad).
    unfold Tokenize_body.
    rewrite (bind_step _ _ _ _ _ (f_equal (λ o, (o, σ)) Hre : lift _ σ = _)).
    rewrite (bind_step _ _ _ _ _ (read_dataset_at _ _ _ Hd)). cbv zeta.
    rewrite (bind_step _ _ _ _ _ (for_loop_logging_info _ _ _)).
    fold (found_in regexes d).
    rewrite (bind_step _ _ _ _ _ (f_equal (λ o, (o, _)) Henc : lift _ _ = _)).
    destruct (make_string_to_field_outcome tokenizer encoded
                (found_in regexes d).*2 0 ∅ Hrange) as [[Hall _]|[_ Hm]].
    { specialize (Hall j Hj). simpl in Hall. by rewrite Hall in Hno. }
    rewrite (bind_raise _ _ _ _ _ (f_equal (λ o, (o, _)) Hm : lift _ _ = _)).
    by eexists.
Qed.

(** ** The string-to-field mapping *)

Lemma make_string_to_field_all tokenizer encoded strings i0 acc m :
  make_string_to_field tokenizer encoded strings i0 acc = Ok m →
  ∀ j, (j < length strings)%nat →
       ∃ f, make_field tokenizer encoded (i0 + j) = Ok f.
Proof.
  revert i0 acc. induction strings as [|s strings IH]; intros i0 acc; simpl.
  - intros _ j Hj. lia.
  - destruct (make_field tokenizer encoded i0) as [f0|] eqn:Hf0; [|done].
    simpl. intros Hm [|j] Hj.
    + rewrite Nat.add_0_r. by eexists.
    + rewrite Nat.add_succ_r. apply (IH _ _ Hm). lia.
Qed.

(** X5. When the dict comprehension [string_to_field] is built, a field was
    made from every entry of the batch encoding, one per collected string with
    repetitions; the keys of the dict are exactly the collected strings, and
    the field of a string that was collected several times is the one made
    from its last entry. *)
Theorem string_to_field_spec (tokenizer : Tokenizer) (encoded : BatchEncoding)
    (strings : list string) (m : gmap string TransformerTextField) :
  make_string_to_field tokenizer encoded strings 0 ∅ = Ok m →
  (∀ j, (j < length strings)%nat → ∃ f, make_field tokenizer encoded j = Ok f)
  ∧ (∀ s, is_Some (m !! s) ↔ s ∈ strings)
  ∧ (∀ s f, m !! s = Some f →
            ∃ j, strings !! j = Some s
                 ∧ (∀ j', (j < j')%nat → strings !! j' ≠ Some s)
                 ∧ make_field tokenizer encoded j = Ok f).
Proof.
  intros Hm. split_and!.
  - apply (make_string_to_field_all _ _ _ _ _ _ Hm).
  - intros s. destruct (make_string_to_field_Ok _ _ _ _ _ _ Hm s) as [Hout Hin].
    split.
    + intros [f Hf]. destruct (decide (s ∈ strings)) as [|Hs]; [done|].
      by rewrite (Hout Hs), lookup_empty in Hf.
    + intros (j & f & _ & _ & _ & ->)%Hin. by eexists.
  - intros s f Hf. destruct (make_string_to_field_Ok _ _ _ _ _ _ Hm s) as [Hout Hin].
    destruct (decide (s ∈ strings)) as [Hs|Hs].
    + destruct (Hin Hs) as (j & f' & Hj & Hlast & Hf' & Hms).
      exists j. by simplify_eq.
    + by rewrite (Hout Hs), lookup_empty in Hf.
Qed.

(** ** Tokenize with nothing selected *)

Lemma for_each_map {A B} (f : A → outcome B) (g : A → B) xs :
  Forall (λ x, f x = Ok (g x)) xs → for_each f xs = Ok (map g xs).
Proof.
  induction 1 as [|x xs Hx _ IH]; simpl; [done|]. by rewrite Hx, IH.
Qed.

(** With the empty mapping, no string is replaced: the result is the value
    itself, every Dataset in it turned into a list. *)
Lemma replace_string_objects_empty o :
  replace_string_objects ∅ o = Ok (materialize o).
Proof.
  induction o as [s|z| |l IH|d IH|rows IH|f|i] using pyobj_ind; try done.
  - simpl. by rewrite (for_each_map _ materialize).
  - rewrite replace_string_objects_dict.
    assert (replace_in_dict ∅ d
            = Ok (map (λ '(key, value), (key, materialize value)) d)) as ->; [|done].
    induction IH as [|[k v] d Hv _ IHd]; simpl in *; [done|].
    by rewrite Hv, IHd.
  - simpl. by rewrite (for_each_map _ materialize).
Qed.

Lemma found_in_no_regex (d : AllenNlpDataset) : found_in (Some []) d = [].
Proof.
  destruct (found_in (Some []) d) as [|[field s] rest] eqn:Hfound; [done|].
  assert ((field, s) ∈ found_in (Some []) d) as Hin by (rewrite Hfound; constructor).
  by apply found_strings_at_selected in Hin.
Qed.

Lemma set_iter_empty : set_iter (∅ : gset string) = [].
Proof. apply Permutation_nil_r. by rewrite set_iter_perm, elements_empty. Qed.

Lemma sorted_nil : sorted [] = [].
Proof. apply Permutation_nil_r. unfold sorted. apply merge_sort_Permutation. Qed.

(** X6. With [fields_to_tokenize] the empty list, a successful
    [Tokenize.run] tokenizes nothing: the tokenizer is called on the empty
    batch, every instance is returned as it is but for Datasets, which come
    back as lists, nothing is logged and the vocabulary of the result holds
    what the vocabulary of the input holds (nothing when the input has
    none). *)
Theorem tokenize_empty_selection (tokenizer_name : string) (input : loc)
    (add_special_tokens : bool) (max_length : option Z)
    (special_tokens_mask offset_mapping : bool)
    (σ : state) (out : loc) (σ' : state) (d : AllenNlpDataset) :
  heap σ !! input = Some (ObjDataset d) →
  Tokenize_run tokenizer_name input (Some []) add_special_tokens
    max_length special_tokens_mask offset_mapping σ = (Ok out, σ') →
  ∃ tokenizer encoded dout l' v0,
    get_tokenizer tokenizer_name = Ok tokenizer
    ∧ batch_encode_plus tokenizer []
        (tokenize_options add_special_tokens max_length special_tokens_mask
           offset_mapping) = Ok encoded
    ∧ heap σ' !! out = Some (ObjDataset dout)
    ∧ splits dout
      = (λ kv, (kv.1, SList (materialize <$> split_items kv.2))) <$> splits d
    ∧ vocab dout = Some l'
    ∧ heap σ' !! l' = Some (ObjVocab v0)
    ∧ match vocab d with
      | Some l => heap σ !! l = Some (ObjVocab v0)
      | None => v0 = Vocabulary_empty
      end
    ∧ log σ' = log σ.
Proof.
  intros Hinput Hrun.
  apply Tokenize_run_Ok in Hrun as (tokenizer & Htok & _ & Hbody).
  apply Tokenize_body_Ok in Hbody
    as (regexes & d' & encoded & m & new_splits & l' & v0 & Hre & Hd' & Henc
        & Hm & Hnew & Hv0 & Hl' & _ & Hne & ->).
  simplify_eq. injection Hre as <-.
  rewrite found_in_no_regex in *. simpl in Hm, Henc. injection Hm as <-.
  replace (set_iter (list_to_set ([] : list (string * string)).*1))
    with ([] : list string) by (symmetry; apply set_iter_empty).
  rewrite sorted_nil. simpl.
  assert (new_splits
          = (λ kv, (kv.1, SList (materialize <$> split_items kv.2))) <$> splits d)
    as ->.
  { erewrite for_each_map in Hnew; [by injection Hnew as <-|].
    apply Forall_forall. intros [name split] _. simpl. unfold replace_split.
    rewrite (for_each_map _ materialize); [done|].
    apply Forall_forall. intros x _. apply replace_string_objects_empty. }
  eexists tokenizer, encoded, _, l', v0.
  split_and!; try done; simpl.
  - apply lookup_insert_eq.
  - done.
  - done.
  - by rewrite lookup_insert_ne, lookup_insert_eq.
  - by rewrite app_nil_r.
Qed.

(** ** TextOnlyDataset: failures, empty results, composition *)

Lemma for_each_Raise {A B} (f : A → outcome B) xs e :
  for_each f xs = Raise e → ∃ x, x ∈ xs ∧ f x = Raise e.
Proof.
  induction xs as [|x xs IH]; simpl; [done|].
  destruct (f x) as [y|e'] eqn:Hx.
  - destruct (for_each f xs) as [ys|e']; [done|]. intros [= ->].
    destruct IH as (x' & ? & ?); [done|]. exists x'. split; [by constructor|done].
  - intros [= ->]. exists x. split; [constructor|done].
Qed.

Lemma text_only_split_Raise fields_to_keep split e :
  text_only_split fields_to_keep split = Raise e →
  e = AttributeError "items"
  ∧ ∃ instance, instance ∈ split_items split
                ∧ py_items instance = Raise (AttributeError "items").
Proof.
  unfold text_only_split.
  destruct (for_each _ (split_items split)) as [per|e'] eqn:Hfor; [done|].
  simpl. intros [= ->]. apply for_each_Raise in Hfor as (x & Hx & Hraise).
  unfold text_only_instance in Hraise.
  destruct x; simpl in Hraise; simplify_eq; split; try done; eexists; split;
    try done.
Qed.

(** X7. [TextOnlyDataset.run] on a dataset of the store returns a dataset when
    every instance of every split has items (it is a dict or an [Instance]);
    when some instance has none (a string, a number, [None], a list, a
    Dataset or a field), it raises [AttributeError] and leaves the store and
    the log as they were. *)
Theorem text_only_attribute_error (input : loc) (fields_to_keep : gset string)
    (σ : state) (d : AllenNlpDataset) :
  heap σ !! input = Some (ObjDataset d) →
  ((∀ kv instance, kv ∈ splits d → instance ∈ split_items kv.2 →
                   ∃ items, py_items instance = Ok items) →
   ∃ out σ', TextOnlyDataset_run input fields_to_keep σ = (Ok out, σ'))
  ∧ ((∃ kv instance, kv ∈ splits d ∧ instance ∈ split_items kv.2
                     ∧ ∀ items, py_items instance ≠ Ok items) →
     TextOnlyDataset_run input fields_to_keep σ
     = (Raise (AttributeError "items"), σ)).
Proof.
  intros Hd. split; [by apply TextOnlyDataset_run_returns|].
  intros (kv & instance & Hkv & Hinstance & Hnone).
  unfold TextOnlyDataset_run.
  rewrite (bind_step _ _ _ _ _ (read_dataset_at _ _ _ Hd)).
  destruct (for_each (λ kv, rows ← text_only_split fields_to_keep kv.2;
                            Ok (kv.1, SList rows)) (splits d))
    as [new_splits|e] eqn:Hnew.
  - exfalso. apply for_each_Ok in Hnew.
    apply list_elem_of_lookup in Hkv as [k Hk].
    destruct (Forall2_lookup_l _ _ _ _ _ Hnew Hk) as (kv' & _ & Hkv').
    destruct (text_only_split fields_to_keep kv.2) as [rows|] eqn:Hrows; [|done].
    apply text_only_split_Ok in Hrows as (instances & Hall & _).
    apply list_elem_of_lookup in Hinstance as [j Hj].
    destruct (Forall2_lookup_l _ _ _ _ _ Hall Hj) as (items & _ & Hitems).
    by apply (Hnone items).
  - apply for_each_Raise in Hnew as (kv' & _ & Hraise).
    destruct (text_only_split fields_to_keep kv'.2) as [rows|e'] eqn:Hrows;
      [done|].
    simpl in Hraise. injection Hraise as ->.
    apply text_only_split_Raise in Hrows as [-> _]. done.
Qed.

Lemma text_only_spec_nil fields_to_keep instances :
  (∀ items name v, items ∈ instances → (name, v) ∈ items →
                   name ∉ fields_to_keep) →
  text_only_spec fields_to_keep instances = [].
Proof.
  intros Hnone.
  destruct (text_only_spec fields_to_keep instances) as [|o rest] eqn:Hspec;
    [done|].
  assert (o ∈ text_only_spec fields_to_keep instances) as Hin
    by (rewrite Hspec; constructor).
  apply elem_of_text_only_spec in Hin as (items & name & v & ? & ? & ? & _).
  by destruct (Hnone items name v).
Qed.

(** X8. When no field of any instance has its name in [fields_to_keep] (for
    one, when [fields_to_keep] is empty), a successful [TextOnlyDataset.run]
    returns every split of the input, under its name, as the empty list. *)
Theorem text_only_nothing_kept (input : loc) (fields_to_keep : gset string)
    (σ : state) (out : loc) (σ' : state) (d : AllenNlpDataset) :
  heap σ !! input = Some (ObjDataset d) →
  (∀ kv instance items name v,
     kv ∈ splits d → instance ∈ split_items kv.2 →
     py_items instance = Ok items → (name, v) ∈ items →
     name ∉ fields_to_keep) →
  TextOnlyDataset_run input fields_to_keep σ = (Ok out, σ') →
  ∃ dout,
    heap σ' !! out = Some (ObjDataset dout)
    ∧ splits dout = (λ kv, (kv.1, SList [])) <$> splits d.
Proof.
  intros Hd Hnone Hrun.
  apply TextOnlyDataset_run_Ok in Hrun as (d' & new_splits & Hd' & Hnew & _ & ->).
  simplify_eq. eexists. split; [apply lookup_insert_eq|]. simpl.
  apply for_each_Ok in Hnew.
  assert (∀ kv, kv ∈ splits d →
                ∀ instance items name v,
                  instance ∈ split_items kv.2 → py_items instance = Ok items →
                  (name, v) ∈ items → name ∉ fields_to_keep) as Hnone'
    by (intros; eauto).
  clear Hnone Hd. induction Hnew as [|kv kv' rest rest' Hkv _ IH]; [done|].
  rewrite fmap_cons. f_equal.
  - destruct (text_only_split fields_to_keep kv.2) as [rows|] eqn:Hrows; [|done].
    simpl in Hkv. injection Hkv as <-.
    apply text_only_split_Ok in Hrows as (instances & Hall & ->).
    rewrite text_only_spec_nil; [done|].
    intros items name v [j Hj]%list_elem_of_lookup Hin.
    destruct (Forall2_lookup_r _ _ _ _ _ Hall Hj) as (instance & Hi & Hitems).
    eapply (Hnone' kv); [constructor|by eapply list_elem_of_lookup_2|done..].
  - apply IH. intros kv0 Hkv0. apply Hnone'. by constructor.
Qed.

Lemma text_only_spec_rows fields_to_keep instances :
  Forall (λ row, ∃ v, row = PDict [("text", v)])
    (text_only_spec fields_to_keep instances).
Proof.
  induction instances as [|items instances IH]; simpl; [constructor|].
  apply Forall_app. split; [|done].
  apply Forall_fmap, Forall_forall. intros v _. by exists v.
Qed.

Lemma text_only_split_text fields_to_keep rows :
  Forall (λ row, ∃ v, row = PDict [("text", v)]) rows →
  text_only_split fields_to_keep (SList rows)
  = Ok (if bool_decide ("text" ∈ fields_to_keep) then rows else []).
Proof.
  intros Hrows. unfold text_only_split. simpl.
  rewrite (for_each_map _
             (λ row, if bool_decide ("text" ∈ fields_to_keep) then [row] else [])).
  - simpl. f_equal. clear Hrows.
    induction rows as [|row rows IH]; simpl; [by case_bool_decide|].
    rewrite IH. by case_bool_decide.
  - eapply Forall_impl; [apply Hrows|]. intros row [v ->].
    unfold text_only_instance. simpl. rewrite filter_cons, filter_nil. simpl.
    case_bool_decide.
    + by rewrite decide_True.
    + by rewrite decide_False.
Qed.

(** X9. [TextOnlyDataset.run] on the dataset that a [TextOnlyDataset.run]
    returned always returns: when "text" is in its [fields_to_keep], a
    dataset with the same splits; otherwise, a dataset with the same split
    names and empty splits.  Either way the vocabulary reference and the
    metadata are those of the first result. *)
Theorem text_only_twice (input : loc) (keep1 keep2 : gset string)
    (σ : state) (out1 : loc) (σ1 : state) :
  TextOnlyDataset_run input keep1 σ = (Ok out1, σ1) →
  ∃ d1 out2 σ2 d2,
    heap σ1 !! out1 = Some (ObjDataset d1)
    ∧ TextOnlyDataset_run out1 keep2 σ1 = (Ok out2, σ2)
    ∧ heap σ2 !! out2 = Some (ObjDataset d2)
    ∧ splits d2 = (if bool_decide ("text" ∈ keep2) then splits d1
                   else (λ kv, (kv.1, SList [])) <$> splits d1)
    ∧ vocab d2 = vocab d1
    ∧ metadata d2 = metadata d1.
Proof.
  intros Hrun.
  apply TextOnlyDataset_run_Ok in Hrun as (d & new_splits & Hd & Hnew & Hout & ->).
  set (d1 := mkAllenNlpDataset new_splits (vocab d) (metadata d)).
  set (σ1 := mkState _ _).
  assert (heap σ1 !! out1 = Some (ObjDataset d1)) as Hd1
    by apply lookup_insert_eq.
  assert (for_each (λ kv, rows ← text_only_split keep2 kv.2;
                          Ok (kv.1, SList rows)) new_splits
          = Ok (if bool_decide ("text" ∈ keep2) then new_splits
                else (λ kv, (kv.1, SList [])) <$> new_splits)) as Hsecond.
  { apply for_each_Ok in Hnew. clear -Hnew.
    rewrite (for_each_map _
               (λ kv, if bool_decide ("text" ∈ keep2) then kv
                      else (kv.1, SList []))).
    - f_equal. case_bool_decide; [apply map_id|done].
    - apply Forall_forall. intros kv' [k Hk]%list_elem_of_lookup.
      destruct (Forall2_lookup_r _ _ _ _ _ Hnew Hk) as (kv & _ & Hkv).
      destruct (text_only_split keep1 kv.2) as [rows|] eqn:Hrows; [|done].
      simpl in Hkv. injection Hkv as <-. simpl.
      apply text_only_split_Ok in Hrows as (instances & _ & ->).
      rewrite (text_only_split_text _ _ (text_only_spec_rows _ _)). simpl.
      by case_bool_decide. }
  unfold TextOnlyDataset_run at 1.
  rewrite (bind_step _ _ _ _ _ (read_dataset_at _ _ _ Hd1)).
  rewrite (bind_step _ _ _ _ _
             (f_equal (λ o, (o, σ1)) Hsecond : lift _ σ1 = _)).
  eexists d1, _, _, _. split_and!; [done|reflexivity|apply lookup_insert_eq|..];
    done.
Qed.

(** ** The store across a run *)

Ltac mstep H x σx E :=
  match type of H with
  | mbind _ ?m ?σ = _ =>
      destruct (m σ) as [[x|x] σx] eqn:E;
      [ rewrite (bind_step _ _ _ _ _ E) in H
      | rewrite (bind_raise _ _ _ _ _ E) in H ]
  end.

Lemma read_dataset_Raise l σ e σ' : read_dataset l σ = (Raise e, σ') → σ' = σ.
Proof. unfold read_dataset. repeat case_match; by intros [= <-]. Qed.

Lemma Tokenize_body_Raise tokenizer input fields_to_tokenize add_special_tokens
    max_length special_tokens_mask offset_mapping σ e σ' :
  Tokenize_body tokenizer input fields_to_tokenize add_special_tokens
    max_length special_tokens_mask offset_mapping σ = (Raise e, σ') →
  heap σ' = heap σ ∧ ∃ messages, log σ' = log σ ++ messages.
Proof.
  unfold Tokenize_body. intros H.
  mstep H regexes σ1 E; unfold lift in E; simplify_eq;
    [|split; [done|exists []; by rewrite app_nil_r]].
  mstep H d σ2 E'; [apply read_dataset_Ok in E' as [Hd ->]|]; last first.
  { apply read_dataset_Raise in E' as ->. simplify_eq.
    split; [done|exists []; by rewrite app_nil_r]. }
  cbv zeta in H.
  rewrite (bind_step _ _ _ _ _ (for_loop_logging_info _ _ _)) in H.
  mstep H encoded σ3 E; unfold lift in E; simplify_eq; [|by eauto].
  mstep H m σ3 E; unfold lift in E; simplify_eq; [|by eauto].
  mstep H new_splits σ3 E; unfold lift in E; simplify_eq; [|by eauto].
  mstep H l' σ3 E; last first.
  { simplify_eq. destruct (vocab d).
    - apply deepcopy_vocab_Raise in E as ->. by eauto.
    - unfold alloc in E. simplify_eq. }
  assert (∃ v0 h lg, σ3 = mkState (<[l' := ObjVocab v0]> h) lg)
    as (v0 & h & lg & ->).
  { destruct (vocab d) as [l|].
    - apply deepcopy_vocab_Ok in E as (v & ? & ? & ->). by eexists _, _, _.
    - apply alloc_Ok in E as [? ->]. by eexists _, _, _. }
  rewrite (bind_step _ _ _ _ _ (for_loop_update_vocab _ _ _ _ _ _)) in H.
  unfold alloc in H. simplify_eq.
Qed.

Lemma PiqaInstances_body_Raise tokenizer max_length σ e σ' :
  PiqaInstances_body tokenizer max_length σ = (Raise e, σ') → σ' = σ.
Proof.
  unfold PiqaInstances_body. intros H.
  mstep H raw σ1 E; unfold lift in E; simplify_eq; [|done].
  cbv zeta in H.
  mstep H tokenized σ2 E2; unfold lift in E2; simplify_eq; [|done].
  mstep H res σ3 E3; unfold lift in E3; simplify_eq; [|done].
  mstep H l' σ4 E; [|unfold alloc in E; simplify_eq].
  apply alloc_Ok in E as [_ ->].
  erewrite bind_step in H; last first.
  { apply update_vocab_at. simpl. apply lookup_insert_eq. }
  unfold alloc in H. simplify_eq.
Qed.

(** X10. A run that raises adds no object to the store and changes none:
    every object that a step builds is built after its last point of
    failure.  The log is as it was, but for the messages that
    [Tokenize.run] logged before it failed. *)
Theorem failed_run_leaves_store (call : StepCall) (σ : state) (e : exn)
    (σ' : state) :
  run call σ = (Raise e, σ') →
  heap σ' = heap σ
  ∧ match call with
    | hf_tokenizer _ _ _ _ _ _ _ => ∃ messages, log σ' = log σ ++ messages
    | _ => log σ' = log σ
    end.
Proof.
  destruct call; simpl; intros H.
  - unfold HuggingfaceDataset_run in H.
    mstep H ds σ1 E; unfold lift, alloc in *; by simplify_eq.
  - unfold TextOnlyDataset_run in H.
    mstep H d σ1 E; [apply read_dataset_Ok in E as [Hd ->]|]; last first.
    { apply read_dataset_Raise in E as ->. by simplify_eq. }
    mstep H new_splits σ2 E; unfold lift, alloc in *; by simplify_eq.
  - unfold Tokenize_run in H.
    mstep H tokenizer σ1 E; unfold lift in E; simplify_eq;
      [|split; [done|exists []; by rewrite app_nil_r]].
    unfold py_assert in H. case_bool_decide.
    + rewrite (bind_step _ _ _ _ _ (eq_refl : (mret () : M unit) σ1 = _)) in H.
      by apply Tokenize_body_Raise in H.
    + cbv in H. simplify_eq. split; [done|exists []; by rewrite app_nil_r].
  - unfold PiqaInstances_run in H.
    mstep H tokenizer σ1 E; unfold lift in E; simplify_eq; [|done].
    unfold py_assert in H. case_bool_decide.
    + rewrite (bind_step _ _ _ _ _ (eq_refl : (mret () : M unit) σ1 = _)) in H.
      by apply PiqaInstances_body_Raise in H as ->.
    + cbv in H. by simplify_eq.
Qed.

Lemma HuggingfaceDataset_run_Ok dataset_name σ out σ' :
  HuggingfaceDataset_run dataset_name σ = (Ok out, σ') →
  ∃ ds, load_dataset dataset_name = Ok ds
        ∧ (out ∉ dom (heap σ))
        ∧ σ' = mkState
                 (<[out := ObjDataset
                             (mkAllenNlpDataset
                                (map (λ kv, (kv.1, SDataset kv.2)) ds) None
                                [("source", PStr "huggingface")])]> (heap σ))
                 (log σ).
Proof.
  unfold HuggingfaceDataset_run. intros H.
  apply bind_Ok in H as (ds & σ1 & [Hds ->]%lift_Ok & H).
  apply alloc_Ok in H as [Hout ->]. by exists ds.
Qed.

Lemma store_ok_insert_dataset σ out d lg :
  store_ok σ → out ∉ dom (heap σ) →
  (∀ lv, vocab d = Some lv → ∃ v, heap σ !! lv = Some (ObjVocab v)) →
  store_ok (mkState (<[out := ObjDataset d]> (heap σ)) lg).
Proof.
  intros Hok Hout Hd l d' lv. simpl.
  assert (∀ lv v, heap σ !! lv = Some (ObjVocab v) →
                  <[out := ObjDataset d]> (heap σ) !! lv = Some (ObjVocab v))
    as Hkeep.
  { intros lv' v Hlv. rewrite lookup_insert_ne; [done|]. intros <-.
    apply Hout, elem_of_dom. eauto. }
  destruct (decide (l = out)) as [->|Hne].
  - rewrite lookup_insert_eq. intros [= <-] Hlv.
    destruct (Hd lv Hlv) as [v Hv]. eauto.
  - rewrite lookup_insert_ne by done. intros Hl Hlv.
    destruct (Hok l d' lv Hl Hlv) as [v Hv]. eauto.
Qed.

Lemma store_ok_insert_vocab σ l' v lg :
  store_ok σ → l' ∉ dom (heap σ) →
  store_ok (mkState (<[l' := ObjVocab v]> (heap σ)) lg).
Proof.
  intros Hok Hl' l d lv. simpl.
  destruct (decide (l = l')) as [->|Hne]; [by rewrite lookup_insert_eq|].
  rewrite lookup_insert_ne by done. intros Hl Hlv.
  destruct (Hok l d lv Hl Hlv) as [v' Hv']. exists v'.
  rewrite lookup_insert_ne; [done|]. intros <-. apply Hl', elem_of_dom. eauto.
Qed.

(** X11. In a store where every dataset refers to a vocabulary of the store,
    each of the four steps, whatever its outcome, leaves such a store, in
    which every object of the store it started from is unchanged. *)
Theorem run_keeps_store_ok (call : StepCall) (σ : state) (r : outcome loc)
    (σ' : state) :
  store_ok σ →
  run call σ = (r, σ') →
  store_ok σ' ∧ ∀ l o, heap σ !! l = Some o → heap σ' !! l = Some o.
Proof.
  intros Hok Hrun. destruct r as [out|e]; last first.
  { assert (heap σ' = heap σ) as Hheap.
    { destruct call; simpl in Hrun.
      - unfold HuggingfaceDataset_run in Hrun.
        mstep Hrun ds σ1 E; unfold lift, alloc in *; by simplify_eq.
      - unfold TextOnlyDataset_run in Hrun.
        mstep Hrun d σ1 E; [apply read_dataset_Ok in E as [Hd ->]|]; last first.
        { apply read_dataset_Raise in E as ->. by simplify_eq. }
        mstep Hrun new_splits σ2 E; unfold lift, alloc in *; by simplify_eq.
      - unfold Tokenize_run in Hrun.
        mstep Hrun tokenizer σ1 E; unfold lift in E; simplify_eq; [|done].
        unfold py_assert in Hrun. case_bool_decide.
        + rewrite (bind_step _ _ _ _ _ (eq_refl : (mret () : M unit) σ1 = _))
            in Hrun.
          by apply Tokenize_body_Raise in Hrun as [? _].
        + cbv in Hrun. by simplify_eq.
      - unfold PiqaInstances_run in Hrun.
        mstep Hrun tokenizer σ1 E; unfold lift in E; simplify_eq; [|done].
        unfold py_assert in Hrun. case_bool_decide.
        + rewrite (bind_step _ _ _ _ _ (eq_refl : (mret () : M unit) σ1 = _))
            in Hrun.
          by apply PiqaInstances_body_Raise in Hrun as ->.
        + cbv in Hrun. by simplify_eq. }
    split; [|by rewrite Hheap].
    intros l d lv. rewrite Hheap. apply Hok. }
  assert (∀ (h : gmap loc obj) l o l' o',
            l' ∉ dom h → h !! l = Some o → <[l' := o']> h !! l = Some o)
    as Hfresh.
  { intros h l o l' o' Hl' Hl. rewrite lookup_insert_ne; [done|].
    intros <-. apply Hl', elem_of_dom. eauto. }
  destruct call; simpl in Hrun.
  - apply HuggingfaceDataset_run_Ok in Hrun as (ds & _ & Hout & ->).
    split; [by apply store_ok_insert_dataset|]. intros l o. by apply Hfresh.
  - apply TextOnlyDataset_run_Ok in Hrun as (d & new_splits & Hd & _ & Hout & ->).
    split; [|intros l o; by apply Hfresh].
    apply store_ok_insert_dataset; [done..|]. simpl. intros lv.
    by apply (Hok input d lv).
  - apply Tokenize_run_Ok in Hrun as (tokenizer & _ & _ & Hbody).
    apply Tokenize_body_Ok in Hbody
      as (regexes & d & encoded & m & new_splits & l' & v0 & _ & _ & _ & _ & _
          & _ & Hl' & Hout & Hne & ->).
    split.
    + match goal with
      | |- store_ok (mkState (<[_ := _]> ?h) ?lg) =>
          apply (store_ok_insert_dataset (mkState h lg))
      end.
      * by apply store_ok_insert_vocab.
      * cbn [heap]. rewrite dom_insert_L.
        intros [?%elem_of_singleton|?]%elem_of_union; done.
      * cbn [heap vocab]. intros lv [= <-]. rewrite lookup_insert_eq. by eexists.
    + intros l o Hl. cbn [heap]. apply Hfresh; [|by apply Hfresh].
      rewrite dom_insert_L.
      intros [?%elem_of_singleton|?]%elem_of_union; done.
  - apply PiqaInstances_run_Ok in Hrun
      as (tokenizer & raw & tokenized & result & l' & _ & _ & _ & _ & _ & Hl'
          & Hout & Hne & ->).
    split.
    + match goal with
      | |- store_ok (mkState (<[_ := _]> ?h) ?lg) =>
          apply (store_ok_insert_dataset (mkState h lg))
      end.
      * by apply store_ok_insert_vocab.
      * cbn [heap]. rewrite dom_insert_L.
        intros [?%elem_of_singleton|?]%elem_of_union; done.
      * cbn [heap vocab]. intros lv [= <-]. rewrite lookup_insert_eq. by eexists.
    + intros l o Hl. cbn [heap]. apply Hfresh; [|by apply Hfresh].
      rewrite dom_insert_L.
      intros [?%elem_of_singleton|?]%elem_of_union; done.
Qed.

(** ** PiqaInstances: the rows of the batch encodings, the dataset returned *)

Lemma piqa_alternative_field_outcome encoded j :
  ids_int32 encoded = true →
  if piqa_has_entry encoded j
  then ∃ f, piqa_alternative_field encoded j = Ok f
  else piqa_alternative_field encoded j = Raise IndexError.
Proof.
  unfold ids_int32, piqa_has_entry, piqa_alternative_field.
  intros [Hids Htypes]%andb_true_iff.
  destruct (j <? length (enc_input_ids encoded))%nat eqn:Hi; simpl;
    [|by rewrite (list_getitem_ge _ _ Hi)].
  destruct (list_getitem_lt _ _ Hi) as (ids & -> & Hidsi). simpl.
  rewrite (tensor_int32_in_range _ _ _ Hids Hidsi). simpl.
  destruct (j <? length (enc_token_type_ids encoded))%nat eqn:Hj; simpl;
    [|by rewrite (list_getitem_ge _ _ Hj)].
  destruct (list_getitem_lt _ _ Hj) as (types & -> & Htypesi). simpl.
  rewrite (tensor_int32_in_range _ _ _ Htypes Htypesi). simpl. by eexists.
Qed.

Lemma piqa_instance_outcome encoded i instance :
  ids_int32 encoded = true →
  if piqa_has_entry encoded (2 * i) && piqa_has_entry encoded (2 * i + 1)
  then ∃ r, piqa_instance encoded i instance = Ok r
  else piqa_instance encoded i instance = Raise IndexError.
Proof.
  intros Hrange. unfold piqa_instance.
  generalize (2 * i + 1)%nat. generalize (2 * i)%nat. intros a b.
  pose proof (piqa_alternative_field_outcome encoded a Hrange) as H1.
  pose proof (piqa_alternative_field_outcome encoded b Hrange) as H2.
  cbn [for_each].
  destruct (piqa_has_entry encoded a); cbn [andb]; [|by rewrite H1].
  destruct H1 as [f1 ->].
  destruct (piqa_has_entry encoded b); [|by rewrite H2].
  destruct H2 as [f2 ->]. by eexists.
Qed.

Lemma piqa_results_per_split_outcome encoded i0 instances :
  ids_int32 encoded = true →
  (∀ j, (2 * i0 ≤ j < 2 * (i0 + length instances))%nat →
        piqa_has_entry encoded j = true)
  ∧ (∃ rs, piqa_results_per_split encoded i0 instances = Ok rs)
  ∨ (∃ j, (2 * i0 ≤ j < 2 * (i0 + length instances))%nat
          ∧ piqa_has_entry encoded j = false)
    ∧ piqa_results_per_split encoded i0 instances = Raise IndexError.
Proof.
  intros Hrange. revert i0.
  induction instances as [|x xs IH]; intros i0.
  - left. split; [intros j Hj; simpl in Hj; lia|by eexists].
  - cbn [piqa_results_per_split length].
    pose proof (piqa_instance_outcome encoded i0 x Hrange) as Hx.
    destruct (piqa_has_entry encoded (2 * i0)) eqn:H1; cbn [andb] in Hx.
    + destruct (piqa_has_entry encoded (2 * i0 + 1)) eqn:H2.
      * destruct Hx as [r ->].
        destruct (IH (S i0)) as [[Hall [rs ->]]|[(j & Hj & Hno) ->]].
        -- left. split; [|by eexists]. intros j Hj.
           destruct (decide (j = 2 * i0)%nat) as [->|]; [done|].
           destruct (decide (j = 2 * i0 + 1)%nat) as [->|]; [done|].
           apply Hall. lia.
        -- right. split; [|done]. exists j. split; [lia|done].
      * right. rewrite Hx. split; [|done]. exists (2 * i0 + 1)%nat.
        split; [lia|done].
    + right. rewrite Hx. split; [|done]. exists (2 * i0)%nat.
      split; [lia|done].
Qed.

Lemma piqa_result_outcome tokenized dataset_items acc :
  (∀ kv, kv ∈ dataset_items →
         ∃ encoded, items_getitem tokenized kv.1 = Ok encoded
                    ∧ ids_int32 encoded = true) →
  (∀ kv encoded j, kv ∈ dataset_items →
                   items_getitem tokenized kv.1 = Ok encoded →
                   (j < 2 * length kv.2)%nat →
                   piqa_has_entry encoded j = true)
  ∧ (∃ result, piqa_result tokenized dataset_items acc = Ok result)
  ∨ (∃ kv encoded j, kv ∈ dataset_items
                     ∧ items_getitem tokenized kv.1 = Ok encoded
                     ∧ (j < 2 * length kv.2)%nat
                     ∧ piqa_has_entry encoded j = false)
    ∧ piqa_result tokenized dataset_items acc = Raise IndexError.
Proof.
  revert acc. induction dataset_items as [|[name instances] rest IH];
    intros acc Hget.
  - left. split; [|by eexists]. intros kv ? ? Hkv. by apply elem_of_nil in Hkv.
  - cbn [piqa_result].
    destruct (Hget (name, instances)) as (encoded & Henc & Hrange); [constructor|].
    simpl in Henc. rewrite Henc. simpl.
    destruct (piqa_results_per_split_outcome encoded 0 instances Hrange)
      as [[Hall [rs ->]]|[(j & Hj & Hno) ->]]; simpl.
    + destruct (IH (dict_setitem acc name (SList (PInstance <$> rs))))
        as [[Hrest Hres]|[(kv & enc & j & Hkv & Hkvenc & Hj & Hno) Hres]].
      { intros kv Hkv. apply Hget. by constructor. }
      * left. split; [|done]. intros kv enc j Hkv Hkvenc Hj.
        apply elem_of_cons in Hkv as [->|Hkv]; [|by eapply Hrest].
        simpl in Hkvenc, Hj. rewrite Henc in Hkvenc. injection Hkvenc as <-.
        apply Hall. lia.
      * right. split; [|done]. exists kv, enc, j.
        split_and!; try done. by constructor.
    + right. split; [|done]. exists (name, instances), encoded, j.
      split_and!; try done; [constructor|simpl; lia].
Qed.

(** The batch encodings of the splits, under the names of the splits. *)
Lemma piqa_tokenized tokenizer max_length (raw : list (string * list PiqaRow)) :
  NoDup raw.*1 →
  (∀ kv, kv ∈ raw →
         ∃ encoded,
           batch_encode_plus tokenizer (flat_map alternatives (piqa_item <$> kv.2))
             (piqa_options max_length) = Ok encoded) →
  ∃ tokenized,
    for_each (λ kv, enc ← batch_encode_plus tokenizer
                              (flat_map alternatives kv.2)
                              (piqa_options max_length);
                    Ok (kv.1, enc))
      (map (λ kv, (kv.1, piqa_item <$> kv.2)) raw) = Ok tokenized
    ∧ ∀ kv, kv ∈ raw →
            ∃ encoded,
              batch_encode_plus tokenizer
                (flat_map alternatives (piqa_item <$> kv.2))
                (piqa_options max_length) = Ok encoded
              ∧ items_getitem tokenized kv.1 = Ok encoded.
Proof.
  intros Hnd Hall.
  assert (∃ tokenized,
            Forall2 (λ kv te,
                       te.1 = kv.1
                       ∧ batch_encode_plus tokenizer
                           (flat_map alternatives (piqa_item <$> kv.2))
                           (piqa_options max_length) = Ok te.2)
              raw tokenized) as [tokenized Htokd].
  { clear -Hall. induction raw as [|kv rest IH]; [by exists []|].
    destruct IH as [tokd Htokd].
    { intros kv' ?. apply Hall. by constructor. }
    destruct (Hall kv) as (enc & Henc); [constructor|].
    exists ((kv.1, enc) :: tokd). by constructor. }
  exists tokenized. split.
  - apply for_each_Ok. apply Forall2_fmap_l.
    eapply Forall2_impl; [apply Htokd|].
    intros kv [n enc] [Hn Henc]. simpl in *. rewrite Henc. simpl. by subst n.
  - assert (tokenized.*1 = raw.*1) as Hkeys.
    { clear -Htokd. induction Htokd as [|? ? ? ? [Hn _] _ IH]; [done|].
      rewrite !fmap_cons. by f_equal. }
    intros kv [k Hk]%list_elem_of_lookup.
    destruct (Forall2_lookup_l _ _ _ _ _ Htokd Hk) as ([n enc] & Htk & Hn & Henc).
    simpl in *. subst n. exists enc. split; [done|].
    eapply items_getitem_lookup; [by rewrite Hkeys|done].
Qed.

(** X12. With the tokenizer and the "piqa" dataset loaded and batch
    encodings whose numbers fit 32 bits: [PiqaInstances.run] returns a dataset
    when the encoding of every split has the rows 0 .. 2n-1 under "input_ids"
    and "token_type_ids", n the number of rows of the split, and raises
    [IndexError] with the store as it was when a split lacks one of them. *)
Theorem piqa_batch_rows (tokenizer_name : string) (tokenizer : Tokenizer)
    (max_length : Z) (σ : state) (raw : list (string * list PiqaRow)) :
  get_tokenizer tokenizer_name = Ok tokenizer →
  pad_token_type_id tokenizer = 0 →
  load_piqa = Ok raw →
  NoDup raw.*1 →
  (∀ kv, kv ∈ raw →
         ∃ encoded,
           batch_encode_plus tokenizer (flat_map alternatives (piqa_item <$> kv.2))
             (piqa_options max_length) = Ok encoded
           ∧ ids_int32 encoded = true) →
  ((∀ kv encoded j,
      kv ∈ raw →
      batch_encode_plus tokenizer (flat_map alternatives (piqa_item <$> kv.2))
        (piqa_options max_length) = Ok encoded →
      (j < 2 * length kv.2)%nat →
      piqa_has_entry encoded j = true) →
   ∃ out σ', PiqaInstances_run tokenizer_name max_length σ = (Ok out, σ'))
  ∧ ((∃ kv encoded j,
        kv ∈ raw
        ∧ batch_encode_plus tokenizer (flat_map alternatives (piqa_item <$> kv.2))
            (piqa_options max_length) = Ok encoded
        ∧ (j < 2 * length kv.2)%nat
        ∧ piqa_has_entry encoded j = false) →
     PiqaInstances_run tokenizer_name max_length σ = (Raise IndexError, σ)).
Proof.
  intros Htok Hpad Hraw Hnd Hall. split.
  - intros Hrows. eapply PiqaInstances_run_returns; try done.
    intros kv Hkv. destruct (Hall kv Hkv) as (encoded & Henc & Hrange).
    exists encoded. split; [done|]. intros j Hj.
    pose proof (piqa_alternative_field_outcome encoded j Hrange) as Hf.
    by rewrite (Hrows kv encoded j Hkv Henc Hj) in Hf.
  - intros (kv0 & encoded0 & j0 & Hkv0 & Henc0 & Hj0 & Hno).
    destruct (piqa_tokenized tokenizer max_length raw Hnd) as (tokenized & Hfor & Hget).
    { intros kv Hkv. destruct (Hall kv Hkv) as (encoded & Henc & _). eauto. }
    unfold PiqaInstances_run.
    rewrite (bind_step _ _ _ _ _ (f_equal (λ o, (o, σ)) Htok : lift _ σ = _)).
    unfold py_assert. rewrite bool_decide_eq_true_2 by done.
    rewrite (bind_step _ _ _ _ _ (eq_refl : (mret () : M unit) σ = _)).
    unfold PiqaInstances_body.
    rewrite (bind_step _ _ _ _ _ (f_equal (λ o, (o, σ)) Hraw : lift _ σ = _)).
    cbv zeta.
    rewrite (bind_step _ _ _ _ _ (f_equal (λ o, (o, σ)) Hfor : lift _ σ = _)).
    destruct (piqa_result_outcome tokenized
                (map (λ kv, (kv.1, piqa_item <$> kv.2)) raw) [])
      as [[Hrows _]|[_ Hres]].
    { intros kv Hkv.
      apply (list_elem_of_fmap (λ kv, (kv.1, piqa_item <$> kv.2))) in Hkv
        as (kv' & -> & Hkv').
      destruct (Hall kv' Hkv') as (encoded & Henc & Hrange).
      destruct (Hget kv' Hkv') as (encoded' & Henc' & Hitem).
      rewrite Henc in Henc'. injection Henc' as <-. by exists encoded. }
    + destruct (Hget kv0 Hkv0) as (encoded' & Henc' & Hitem).
      rewrite Henc0 in Henc'. injection Henc' as <-.
      rewrite (Hrows (kv0.1, piqa_item <$> kv0.2) encoded0 j0) in Hno; [done|..].
      * apply (list_elem_of_fmap (λ kv, (kv.1, piqa_item <$> kv.2))).
        by exists kv0.
      * done.
      * simpl. by rewrite length_fmap.
    + by rewrite (bind_raise _ _ _ _ _ (f_equal (λ o, (o, σ)) Hres : lift _ σ = _)).
Qed.

(** X13. The dataset that a successful [PiqaInstances.run] returns has the
    splits of the "piqa" dataset, under their names and in their order, each a
    list of as many instances as the split has rows; it has no metadata, and
    its vocabulary is a new object: the empty vocabulary with the transformer
    vocab added under "tokens".  Nothing else of the store changes and nothing
    is logged. *)
Theorem piqa_output_dataset (tokenizer_name : string) (max_length : Z)
    (σ : state) (out : loc) (σ' : state) (raw : list (string * list PiqaRow)) :
  load_piqa = Ok raw →
  NoDup raw.*1 →
  PiqaInstances_run tokenizer_name max_length σ = (Ok out, σ') →
  ∃ tokenizer dout l',
    get_tokenizer tokenizer_name = Ok tokenizer
    ∧ (l' ∉ dom (heap σ)) ∧ (out ∉ dom (heap σ)) ∧ out ≠ l'
    ∧ heap σ'
      = <[out := ObjDataset dout]>
          (<[l' := ObjVocab (add_transformer_vocab tokenizer "tokens"
                               Vocabulary_empty)]> (heap σ))
    ∧ log σ' = log σ
    ∧ vocab dout = Some l'
    ∧ metadata dout = []
    ∧ Forall2 (λ kv kv',
         kv'.1 = kv.1
         ∧ ∃ results, kv'.2 = SList (PInstance <$> results)
                      ∧ length results = length kv.2)
        raw (splits dout).
Proof.
  intros Hraw Hnd Hrun.
  apply PiqaInstances_run_Ok in Hrun
    as (tokenizer & raw' & tokenized & result & l' & Htok & _ & Hraw' & _
        & Hres & Hl' & Hout & Hne & ->).
  rewrite Hraw in Hraw'. injection Hraw' as <-.
  apply piqa_result_Ok in Hres as (news & -> & Hall).
  2:{ simpl.
      replace ((map (λ kv : string * list PiqaRow, (kv.1, piqa_item <$> kv.2))
                  raw).*1) with raw.*1; [done|].
      rewrite <- list_fmap_compose. by apply list_fmap_ext. }
  exists tokenizer, (mkAllenNlpDataset news (Some l') []), l'.
  split_and!; try done. simpl.
  apply Forall2_fmap_l in Hall. eapply Forall2_impl; [apply Hall|].
  intros [name rows] [name' split'] [Hname (enc & rs & _ & Hrs & Hsplit)].
  simpl in *. split; [done|]. exists rs. split; [done|].
  apply piqa_results_per_split_Ok in Hrs as [Hlen _].
  by rewrite length_fmap in Hlen.
Qed.

(** ** Tokenize on its own result *)

(** A string of the result sits at a position that held the same string,
    and the mapping has no field for it. *)
Lemma replace_string_objects_reaches m o o' path s :
  no_dataset o = true →
  replace_string_objects m o = Ok o' →
  reaches o' path (PStr s) →
  reaches o path (PStr s) ∧ m !! s = None.
Proof.
  revert o' path.
  induction o as [s0|z| |l IH|d IH|rows IH|f|i] using pyobj_ind;
    intros o' path Hnd Ho Hreach;
    try (simpl in Ho; injection Ho as <-; by inversion Hreach).
  - rewrite replace_string_objects_str in Ho. injection Ho as <-.
    destruct (m !! s0) eqn:Hs0; inversion Hreach; subst.
    split; [constructor|done].
  - simpl in Ho.
    destruct (for_each (replace_string_objects m) l) as [l'|] eqn:Hl; [|done].
    simpl in Ho. injection Ho as <-. apply for_each_Ok in Hl.
    inversion Hreach as [|? j x' path' ? Hj Hx'|]; subst.
    destruct (Forall2_lookup_r _ _ _ _ _ Hl Hj) as (x & Hx & Hrep).
    rewrite Forall_lookup in IH. simpl in Hnd. rewrite forallb_forall in Hnd.
    destruct (IH j x Hx x' path') as [Hreach' Hnone]; try done.
    + apply Hnd, list_elem_of_In. by eapply list_elem_of_lookup_2.
    + split; [|done]. by econstructor.
  - rewrite replace_string_objects_dict in Ho.
    destruct (replace_in_dict m d) as [d'|] eqn:Hd; [|done].
    simpl in Ho. injection Ho as <-. apply replace_in_dict_Ok in Hd.
    inversion Hreach as [| |? k x' path' ? Hk Hx']; subst.
    apply list_elem_of_lookup in Hk as [j Hj].
    destruct (Forall2_lookup_r _ _ _ _ _ Hd Hj) as ([k0 x] & Hx & Hk0 & Hrep).
    simpl in Hk0, Hrep. subst k0.
    rewrite Forall_lookup in IH. simpl in Hnd. rewrite forallb_forall in Hnd.
    destruct (IH j (k, x) Hx x' path') as [Hreach' Hnone]; try done.
    + apply (Hnd (k, x)), list_elem_of_In. by eapply list_elem_of_lookup_2.
    + split; [|done]. econstructor; [|done]. by eapply list_elem_of_lookup_2.
  - done.
Qed.

(** The result of replacing strings holds no Dataset. *)
Lemma replace_string_objects_no_dataset m o o' :
  replace_string_objects m o = Ok o' → no_dataset o' = true.
Proof.
  revert o'.
  induction o as [s0|z| |l IH|d IH|rows IH|f|i] using pyobj_ind; intros o' Ho;
    try (simpl in Ho; by injection Ho as <-).
  - rewrite replace_string_objects_str in Ho. injection Ho as <-.
    by destruct (m !! s0).
  - simpl in Ho.
    destruct (for_each (replace_string_objects m) l) as [l'|] eqn:Hl; [|done].
    simpl in Ho. injection Ho as <-. apply for_each_Ok in Hl. simpl.
    induction Hl as [|x x' l l' Hx _ IHl]; [done|].
    apply Forall_cons in IH as [IHx IH]. simpl.
    by rewrite (IHx _ Hx), (IHl IH).
  - rewrite replace_string_objects_dict in Ho.
    destruct (replace_in_dict m d) as [d'|] eqn:Hd; [|done].
    simpl in Ho. injection Ho as <-. apply replace_in_dict_Ok in Hd. simpl.
    induction Hd as [|[k x] [k' x'] d d' [_ Hx] _ IHd]; [done|].
    apply Forall_cons in IH as [IHx IH]. simpl in *.
    by rewrite (IHx _ Hx), (IHd IH).
  - simpl in Ho.
    destruct (for_each (replace_string_objects m) rows) as [l'|] eqn:Hl; [|done].
    simpl in Ho. injection Ho as <-. apply for_each_Ok in Hl. simpl.
    induction Hl as [|x x' l l' Hx _ IHl]; [done|].
    apply Forall_cons in IH as [IHx IH]. simpl.
    by rewrite (IHx _ Hx), (IHl IH).
Qed.

Lemma materialize_no_dataset o : no_dataset o = true → materialize o = o.
Proof.
  induction o as [s0|z| |l IH|d IH|rows IH|f|i] using pyobj_ind; intros Hnd;
    try done; simpl in *; f_equal.
  - induction IH as [|x l Hx _ IHl]; [done|]. simpl in *.
    apply andb_true_iff in Hnd as [? ?]. by rewrite Hx, IHl.
  - induction IH as [|[k x] d Hx _ IHd]; [done|]. simpl in *.
    apply andb_true_iff in Hnd as [? ?]. by rewrite Hx, IHd.
Qed.

(** [Tokenize.run] on a dataset none of whose strings is selected. *)
Lemma Tokenize_run_nothing_found tokenizer_name tokenizer input fields_to_tokenize
    add_special_tokens max_length special_tokens_mask offset_mapping σ
    regexes d encoded :
  get_tokenizer tokenizer_name = Ok tokenizer →
  pad_token_type_id tokenizer = 0 →
  compile_regexes fields_to_tokenize = Ok regexes →
  heap σ !! input = Some (ObjDataset d) →
  (∀ l, vocab d = Some l → ∃ v, heap σ !! l = Some (ObjVocab v)) →
  found_in regexes d = [] →
  batch_encode_plus tokenizer []
    (tokenize_options add_special_tokens max_length special_tokens_mask
       offset_mapping) = Ok encoded →
  ∃ out σ' l' v0,
    Tokenize_run tokenizer_name input fields_to_tokenize add_special_tokens
      max_length special_tokens_mask offset_mapping σ = (Ok out, σ')
    ∧ (l' ∉ dom (heap σ)) ∧ (out ∉ dom (heap σ)) ∧ out ≠ l'
    ∧ match vocab d with
      | Some l => heap σ !! l = Some (ObjVocab v0)
      | None => v0 = Vocabulary_empty
      end
    ∧ σ' = mkState
             (<[out := ObjDataset
                         (mkAllenNlpDataset
                            ((λ kv, (kv.1, SList (materialize <$> split_items kv.2)))
                               <$> splits d)
                            (Some l') [])]>
                (<[l' := ObjVocab v0]> (heap σ)))
             (log σ).
Proof.
  intros Htok Hpad Hre Hd Hvocab Hnone Henc.
  destruct (Tokenize_run_returns tokenizer_name tokenizer input fields_to_tokenize
              add_special_tokens max_length special_tokens_mask offset_mapping
              σ regexes d encoded) as (out & σ' & Hrun); try done.
  { by rewrite Hnone. }
  { rewrite Hnone. simpl. intros; lia. }
  exists out, σ'. pose proof Hrun as Hrun'.
  apply Tokenize_run_Ok in Hrun' as (tokenizer' & Htok' & _ & Hbody).
  rewrite Htok in Htok'. injection Htok' as <-.
  apply Tokenize_body_Ok in Hbody
    as (regexes' & d' & encoded' & m & new_splits & l' & v0 & Hre' & Hd' & _
        & Hm & Hnew & Hv0 & Hl' & Hout & Hne & Hσ').
  rewrite Hre in Hre'. injection Hre' as <-.
  rewrite Hd in Hd'. injection Hd' as <-.
  rewrite Hnone in Hm, Hσ'. simpl in Hm. injection Hm as <-.
  replace (set_iter (list_to_set ([] : list (string * string)).*1))
    with ([] : list string) in Hσ' by (symmetry; apply set_iter_empty).
  rewrite sorted_nil in Hσ'. simpl in Hσ'. rewrite app_nil_r in Hσ'.
  assert (new_splits
          = (λ kv, (kv.1, SList (materialize <$> split_items kv.2))) <$> splits d)
    as ->.
  { erewrite for_each_map in Hnew; [by injection Hnew as <-|].
    apply Forall_forall. intros [name split] _. simpl. unfold replace_split.
    rewrite (for_each_map _ materialize); [done|].
    apply Forall_forall. intros x _. apply replace_string_objects_empty. }
  by exists l', v0.
Qed.

(** X14. Running [Tokenize.run] again, with the same arguments, on the
    dataset it returned, when no instance of the first input holds a Dataset
    and the tokenizer accepts the empty batch: no string of the first result
    sits at a selected position, so the second run collects nothing, logs
    nothing, and returns a new dataset with the same splits and a new
    vocabulary object with the same content. *)
Theorem tokenize_twice (tokenizer_name : string) (input : loc)
    (fields_to_tokenize : option (list string)) (add_special_tokens : bool)
    (max_length : option Z) (special_tokens_mask offset_mapping : bool)
    (σ : state) (out1 : loc) (σ1 : state) (d : AllenNlpDataset) :
  heap σ !! input = Some (ObjDataset d) →
  (∀ kv instance, kv ∈ splits d → instance ∈ split_items kv.2 →
                  no_dataset instance = true) →
  Tokenize_run tokenizer_name input fields_to_tokenize add_special_tokens
    max_length special_tokens_mask offset_mapping σ = (Ok out1, σ1) →
  (∀ tokenizer, get_tokenizer tokenizer_name = Ok tokenizer →
                ∃ encoded,
                  batch_encode_plus tokenizer []
                    (tokenize_options add_special_tokens max_length
                       special_tokens_mask offset_mapping) = Ok encoded) →
  ∃ regexes d1 l1 v1 out2 σ2 d2 l2,
    compile_regexes fields_to_tokenize = Ok regexes
    ∧ heap σ1 !! out1 = Some (ObjDataset d1)
    ∧ vocab d1 = Some l1
    ∧ heap σ1 !! l1 = Some (ObjVocab v1)
    ∧ found_in regexes d1 = []
    ∧ Tokenize_run tokenizer_name out1 fields_to_tokenize add_special_tokens
        max_length special_tokens_mask offset_mapping σ1 = (Ok out2, σ2)
    ∧ heap σ2 !! out2 = Some (ObjDataset d2)
    ∧ splits d2 = splits d1
    ∧ metadata d2 = metadata d1
    ∧ vocab d2 = Some l2
    ∧ l2 ≠ l1
    ∧ heap σ2 !! l2 = Some (ObjVocab v1)
    ∧ log σ2 = log σ1.
Proof.
  intros Hinput Hnd Hrun Hempty.
  apply Tokenize_run_Ok in Hrun as (tokenizer & Htok & Hpad & Hbody).
  apply Tokenize_body_Ok in Hbody
    as (regexes & d' & encoded & m & new_splits & l1 & v0 & Hre & Hd' & Henc
        & Hm & Hnew & Hv0 & Hl1 & Hout1 & Hne & ->).
  rewrite Hinput in Hd'. injection Hd' as <-.
  set (d1 := mkAllenNlpDataset new_splits (Some l1) []).
  set (v1 := foldl (λ v name, add_transformer_vocab tokenizer name v) v0
               (set_iter (list_to_set (found_in regexes d).*1))).
  apply for_each_Ok in Hnew.
  assert (found_in regexes d1 = []) as Hnone.
  { destruct (found_in regexes d1) as [|[field s] rest] eqn:Hfound; [done|].
    exfalso.
    assert ((field, s) ∈ found_in regexes d1) as Hin
      by (rewrite Hfound; constructor).
    apply elem_of_found_strings in Hin
      as (k & name & split' & j & instance' & path & Hk & Hj & Hreach & Hfield
          & Hsel).
    destruct (Forall2_lookup_r _ _ _ _ _ Hnew Hk) as ([name0 split] & Hk0 & Hrep).
    simpl in Hrep. unfold replace_split in Hrep.
    destruct (for_each (replace_string_objects m) (split_items split))
      as [rows'|] eqn:Hrows; [|done].
    simpl in Hrep. injection Hrep as <- <-. apply for_each_Ok in Hrows.
    simpl in Hj.
    destruct (Forall2_lookup_r _ _ _ _ _ Hrows Hj) as (instance & Hj0 & Hinst).
    destruct (replace_string_objects_reaches m instance instance' path s)
      as [Hreach0 Hms]; try done.
    { apply (Hnd (name0, split)); by eapply list_elem_of_lookup_2. }
    assert ((field, s) ∈ found_in regexes d) as Hin0.
    { apply elem_of_found_strings.
      by exists k, name0, split, j, instance, path. }
    destruct (make_string_to_field_Ok _ _ _ _ _ _ Hm s) as [_ Hhas].
    destruct Hhas as (? & f & _ & _ & _ & Hf).
    { apply list_elem_of_fmap. by exists (field, s). }
    by rewrite Hf in Hms. }
  destruct (Hempty tokenizer Htok) as [encoded0 Henc0].
  destruct (Tokenize_run_nothing_found tokenizer_name tokenizer out1
              fields_to_tokenize add_special_tokens max_length
              special_tokens_mask offset_mapping
              (mkState (<[out1 := ObjDataset d1]> (<[l1 := ObjVocab v1]> (heap σ)))
                 (log σ ++ ((λ field_name, "Tokenizing field " +:+ field_name)
                              <$> sorted (set_iter
                                            (list_to_set (found_in regexes d).*1)))))
              regexes d1 encoded0)
    as (out2 & σ2 & l2 & v1' & Hrun2 & Hl2 & Hout2 & Hne2 & Hv1' & ->);
    try done.
  { apply lookup_insert_eq. }
  { intros l [= <-]. exists v1. cbn [heap].
    by rewrite lookup_insert_ne, lookup_insert_eq. }
  cbn [vocab d1 heap] in Hv1', Hl2.
  rewrite lookup_insert_ne, lookup_insert_eq in Hv1' by done.
  injection Hv1' as <-.
  eexists regexes, d1, l1, v1, out2, _,
    (mkAllenNlpDataset
       ((λ kv, (kv.1, SList (materialize <$> split_items kv.2))) <$> splits d1)
       (Some l2) []), l2.
  split_and!; try done; cbn [heap log splits vocab metadata].
  - apply lookup_insert_eq.
  - by rewrite lookup_insert_ne, lookup_insert_eq.
  - apply lookup_insert_eq.
  - subst d1. cbn [splits].
    apply list_eq. intros k. rewrite list_lookup_fmap.
    destruct (new_splits !! k) as [[name split']|] eqn:Hk; [|done].
    destruct (Forall2_lookup_r _ _ _ _ _ Hnew Hk) as ([name0 split] & Hk0 & Hrep).
    simpl in Hrep. unfold replace_split in Hrep.
    destruct (for_each (replace_string_objects m) (split_items split))
      as [rows'|] eqn:Hrows; [|done].
    simpl in Hrep. injection Hrep as <- <-. apply for_each_Ok in Hrows.
    simpl. do 3 f_equal.
    apply list_eq. intros j. rewrite list_lookup_fmap.
    destruct (rows' !! j) as [x'|] eqn:Hj; [|done]. simpl. f_equal.
    destruct (Forall2_lookup_r _ _ _ _ _ Hrows Hj) as (x & _ & Hx).
    apply materialize_no_dataset.
    by eapply replace_string_objects_no_dataset.
  - intros ->. apply Hl2. rewrite !dom_insert_L.
    apply elem_of_union_r, elem_of_union_l. by apply elem_of_singleton.
  - by rewrite lookup_insert_ne, lookup_insert_eq.
Qed.

(** ** The steps one after the other *)

(** Every instance that [TextOnlyDataset.run] builds is a dict with the one
    key "text". *)
Lemma text_only_splits_shape fields_to_keep (input_splits : list (string * Split))
    new_splits :
  for_each (λ kv, rows ← text_only_split fields_to_keep kv.2;
                  Ok (kv.1, SList rows)) input_splits = Ok new_splits →
  Forall (λ kv, ∃ rows, kv.2 = SList rows
                        ∧ Forall (λ row, ∃ v, row = PDict [("text", v)]) rows)
    new_splits.
Proof.
  intros Hnew%for_each_Ok. apply Forall_lookup. intros k kv' Hk.
  destruct (Forall2_lookup_r _ _ _ _ _ Hnew Hk) as (kv & _ & Hkv).
  destruct (text_only_split fields_to_keep kv.2) as [rows|] eqn:Hrows; [|done].
  simpl in Hkv. injection Hkv as <-. exists rows. split; [done|].
  apply text_only_split_Ok in Hrows as (instances & _ & ->).
  apply text_only_spec_rows.
Qed.

(** X15. [Tokenize.run] on the dataset that a [TextOnlyDataset.run] returned:
    every field name under which a string is collected is "text" followed by
    the dotted position inside the value, so "text" when the value is itself
    a string; the result has the split names of the intermediate dataset, and
    each of its instances is again a dict with the one key "text". *)
Theorem text_only_then_tokenize (input : loc) (fields_to_keep : gset string)
    (tokenizer_name : string) (fields_to_tokenize : option (list string))
    (add_special_tokens : bool) (max_length : option Z)
    (special_tokens_mask offset_mapping : bool)
    (σ : state) (out1 : loc) (σ1 : state) (out2 : loc) (σ2 : state) :
  TextOnlyDataset_run input fields_to_keep σ = (Ok out1, σ1) →
  Tokenize_run tokenizer_name out1 fields_to_tokenize add_special_tokens
    max_length special_tokens_mask offset_mapping σ1 = (Ok out2, σ2) →
  ∃ regexes d1 d2,
    compile_regexes fields_to_tokenize = Ok regexes
    ∧ heap σ1 !! out1 = Some (ObjDataset d1)
    ∧ heap σ2 !! out2 = Some (ObjDataset d2)
    ∧ (∀ field s, (field, s) ∈ found_in regexes d1 →
                  ∃ path, field = "text" +:+ dotted_path path)
    ∧ (splits d2).*1 = (splits d1).*1
    ∧ Forall (λ kv, ∃ rows,
                kv.2 = SList rows
                ∧ Forall (λ row, ∃ v, row = PDict [("text", v)]) rows)
        (splits d2).
Proof.
  intros Hrun1 Hrun2.
  apply TextOnlyDataset_run_Ok in Hrun1
    as (d & new_splits & Hd & Hnew & Hout & ->).
  apply text_only_splits_shape in Hnew.
  set (d1 := mkAllenNlpDataset new_splits (vocab d) (metadata d)) in *.
  assert (heap (mkState (<[out1 := ObjDataset d1]> (heap σ)) (log σ)) !! out1
          = Some (ObjDataset d1)) as Hd1 by apply lookup_insert_eq.
  apply Tokenize_run_Ok in Hrun2 as (tokenizer & _ & _ & Hbody).
  apply Tokenize_body_Ok in Hbody
    as (regexes & d' & encoded & m & new_splits2 & l' & v0 & Hre & Hd' & _
        & _ & Hnew2 & _ & _ & _ & _ & ->).
  rewrite Hd1 in Hd'. injection Hd' as <-.
  apply for_each_Ok in Hnew2.
  exists regexes, d1, (mkAllenNlpDataset new_splits2 (Some l') []).
  split_and!; try done.
  - apply lookup_insert_eq.
  - intros field s
      (k & name & split & j & instance & path & Hk & Hj & Hreach & -> & _)
      %elem_of_found_strings.
    rewrite Forall_lookup in Hnew.
    destruct (Hnew k _ Hk) as (rows & Hsplit & Hrows). simpl in Hsplit.
    subst split. simpl in Hj. rewrite Forall_lookup in Hrows.
    destruct (Hrows j _ Hj) as [v ->].
    inversion Hreach as [| |? key x path' ? Hkey Hx]; subst.
    apply list_elem_of_singleton in Hkey. injection Hkey as -> ->.
    exists path'. reflexivity.
  - simpl. change (splits d1) with new_splits in Hnew2. clear -Hnew2.
    induction Hnew2 as [|kv kv' ? ? Hkv _ IH]; [done|].
    rewrite !fmap_cons. f_equal; [|done].
    destruct (replace_split m kv.2); simpl in Hkv; by simplify_eq.
  - simpl. apply Forall_lookup. intros k [name' split'] Hk.
    destruct (Forall2_lookup_r _ _ _ _ _ Hnew2 Hk) as ([name split] & Hk0 & Hrep).
    simpl in Hrep. unfold replace_split in Hrep.
    destruct (for_each (replace_string_objects m) (split_items split))
      as [rows'|] eqn:Hrows'; [|done].
    simpl in Hrep. injection Hrep as <- <-. apply for_each_Ok in Hrows'.
    exists rows'. split; [done|].
    rewrite Forall_lookup in Hnew.
    destruct (Hnew k _ Hk0) as (rows & Hsplit & Hrows). simpl in Hsplit.
    subst split. simpl in Hrows'.
    apply Forall_lookup. intros j row' Hj.
    destruct (Forall2_lookup_r _ _ _ _ _ Hrows' Hj) as (row & Hj0 & Hrow).
    rewrite Forall_lookup in Hrows. destruct (Hrows j _ Hj0) as [v ->].
    rewrite replace_string_objects_dict in Hrow.
    destruct (replace_in_dict m [("text", v)]) as [d''|] eqn:Hd''; [|done].
    simpl in Hrow. injection Hrow as <-. apply replace_in_dict_Ok in Hd''.
    inversion Hd'' as [|? [key v'] ? ? [Hkey _] Hnil]; subst.
    inversion Hnil; subst. simpl in Hkey. subst key. by exists v'.
Qed.

(** X16. [HuggingfaceDataset.run] fails exactly when [load_dataset] does,
    with the exception of the library and the store as it was; otherwise it
    returns a new dataset on which a [TextOnlyDataset.run] that returns gives
    a dataset without vocabulary whose metadata is the "source" entry, and a
    [Tokenize.run] that returns gives a dataset without metadata whose
    vocabulary is the empty vocabulary with the transformer vocab added under
    the field names used. *)
Theorem hf_dataset_then_steps (dataset_name : string) (σ : state) :
  match load_dataset dataset_name with
  | Raise e => HuggingfaceDataset_run dataset_name σ = (Raise e, σ)
  | Ok ds =>
      ∃ l σ0,
        HuggingfaceDataset_run dataset_name σ = (Ok l, σ0)
        ∧ (l ∉ dom (heap σ))
        ∧ (∀ fields_to_keep out σ',
             TextOnlyDataset_run l fields_to_keep σ0 = (Ok out, σ') →
             ∃ dout,
               heap σ' !! out = Some (ObjDataset dout)
               ∧ vocab dout = None
               ∧ metadata dout = [("source", PStr "huggingface")])
        ∧ (∀ tokenizer_name fields_to_tokenize add_special_tokens max_length
             special_tokens_mask offset_mapping out σ',
             Tokenize_run tokenizer_name l fields_to_tokenize add_special_tokens
               max_length special_tokens_mask offset_mapping σ0 = (Ok out, σ') →
             ∃ tokenizer regexes dout l',
               get_tokenizer tokenizer_name = Ok tokenizer
               ∧ compile_regexes fields_to_tokenize = Ok regexes
               ∧ heap σ' !! out = Some (ObjDataset dout)
               ∧ metadata dout = []
               ∧ vocab dout = Some l'
               ∧ heap σ' !! l'
                 = Some (ObjVocab
                           (foldl (λ v n, add_transformer_vocab tokenizer n v)
                              Vocabulary_empty
                              (set_iter
                                 (list_to_set
                                    (found_strings (should_tokenize_field regexes)
                                       (map (λ kv, (kv.1, SDataset kv.2)) ds)).*1)))))
  end.
Proof.
  destruct (load_dataset dataset_name) as [ds|e] eqn:Hds.
  - set (d0 := mkAllenNlpDataset (map (λ kv, (kv.1, SDataset kv.2)) ds) None
                 [("source", PStr "huggingface")]).
    set (l := fresh (dom (heap σ))).
    exists l, (mkState (<[l := ObjDataset d0]> (heap σ)) (log σ)).
    split_and!.
    + unfold HuggingfaceDataset_run.
      by rewrite (bind_step _ _ _ _ _ (f_equal (λ o, (o, σ)) Hds : lift _ σ = _)).
    + apply is_fresh.
    + intros fields_to_keep out σ' Hrun.
      apply TextOnlyDataset_run_Ok in Hrun as (d & new_splits & Hd & _ & _ & ->).
      cbn [heap] in Hd. rewrite lookup_insert_eq in Hd. injection Hd as <-.
      eexists. split; [apply lookup_insert_eq|]. done.
    + intros tokenizer_name fields_to_tokenize add_special_tokens max_length
        special_tokens_mask offset_mapping out σ' Hrun.
      apply Tokenize_run_Ok in Hrun as (tokenizer & Htok & _ & Hbody).
      apply Tokenize_body_Ok in Hbody
        as (regexes & d & encoded & m & new_splits & l' & v0 & Hre & Hd & _
            & _ & _ & Hv0 & _ & _ & Hne & ->).
      cbn [heap] in Hd. rewrite lookup_insert_eq in Hd. injection Hd as <-.
      cbn [vocab d0] in Hv0. subst v0.
      eexists tokenizer, regexes, _, l'.
      split_and!; [done|done|apply lookup_insert_eq|done|done|].
      cbn [heap]. by rewrite lookup_insert_ne, lookup_insert_eq.
  - unfold HuggingfaceDataset_run.
    by rewrite (bind_raise _ _ _ _ _ (f_equal (λ o, (o, σ)) Hds : lift _ σ = _)).
Qed.

End Further.

(** * The steps on the concrete instance *)

Section Examples.
Local Existing Instance Toy.ext.


(** With a tokenizer whose [pad_token_type_id] is 3, both steps stop at the
    assertion; with one whose [pad_token_type_id] is 0, they go on. *)
Lemma pad_token_type_id_assertion_witness :
  (Tokenize_run (Ord:=Toy.elements_order) "char-pad3" 1%positive None true
     (Some 512) false false Toy.loaded = (Raise AssertionError, Toy.loaded)
   ∧ PiqaInstances_run "char-pad3" 512 Toy.loaded
     = (Raise AssertionError, Toy.loaded))
  ∧ (Tokenize_run (Ord:=Toy.elements_order) "char" 1%positive None true
       (Some 512) false false Toy.loaded
     = Tokenize_body (Ord:=Toy.elements_order) (0 : Tokenizer) 1%positive None
         true (Some 512) false false Toy.loaded
     ∧ PiqaInstances_run "char" 512 Toy.loaded
       = PiqaInstances_body (0 : Tokenizer) 512 Toy.loaded).
Proof.
  split.
  - apply (proj1 (pad_token_type_id_assertion (Ext:=Toy.ext)
                    (Ord:=Toy.elements_order) "char-pad3" 3 Toy.loaded
                    1%positive None true (Some 512) false false 512 eq_refl)).
    vm_compute. discriminate.
  - apply (proj2 (pad_token_type_id_assertion (Ext:=Toy.ext)
                    (Ord:=Toy.elements_order) "char" 0 Toy.loaded
                    1%positive None true (Some 512) false false 512 eq_refl)).
    reflexivity.
Defined.



(** The "reviews" dataset at location 1 is the same after each of the two
    steps ran on it. *)
Lemma input_dataset_unchanged_witness :
  heap (Toy.text_only).2 !! 1%positive = Some (ObjDataset Toy.reviews_dataset)
  ∧ heap (Toy.tokenize_all Toy.elements_order).2 !! 1%positive
    = Some (ObjDataset Toy.reviews_dataset).
Proof.
  destruct (input_dataset_unchanged (Ord:=Toy.elements_order) 1%positive
              Toy.reviews_dataset Toy.loaded eq_refl) as [Htext Htok].
  split.
  - exact (proj1 (Htext _ _ _ (surjective_pairing Toy.text_only))).
  - exact (proj1 (Htok _ _ _ _ _ _ _ _
                    (surjective_pairing (Toy.tokenize_all Toy.elements_order)))).
Defined.

(** Keeping "text" and "stars" of "reviews": the result is a new dataset at
    location 2, with the two splits of the input. *)
Lemma text_only_keeps_selected_fields_witness :
  ∃ dout,
    heap (Toy.text_only).2 !! 2%positive = Some (ObjDataset dout)
    ∧ (splits dout).*1 = ["train"; "test"].
Proof.
  destruct (text_only_keeps_selected_fields 1%positive Toy.reviews_dataset
              {["text"; "stars"]} Toy.loaded 2%positive (Toy.text_only).2
              eq_refl eq_refl)
    as (dout & Hout & Hnames & Hall).
  exists dout. split; [exact Hout|exact Hnames].
Defined.

(** Tokenizing the field "text" of "reviews": the string "ab" at the position
    "text" of the first training instance is one of the strings given to the
    tokenizer and is replaced by the field of its entry. *)
Lemma tokenize_replaces_selected_strings_witness :
  ∃ dout rows' instance' i f ids types,
    heap (Toy.tokenize_text Toy.elements_order).2 !! 3%positive
      = Some (ObjDataset dout)
    ∧ splits dout !! 0%nat = Some ("train", SList rows')
    ∧ rows' !! 0%nat = Some instance'
    ∧ value_at instance' [Key "text"] = Some (PField (FieldText f))
    ∧ (found_in (Some ["text"]) Toy.reviews_dataset).*2 !! i = Some "ab"
    ∧ input_ids f = IntTensor ids
    ∧ token_type_ids f = Some (IntTensor types).
Proof.
  destruct (tokenize_replaces_selected_strings (Ord:=Toy.elements_order)
              "char" 1%positive (Some ["text"]) true (Some 512) false false
              Toy.loaded 3%positive (Toy.tokenize_text Toy.elements_order).2
              Toy.reviews_dataset eq_refl eq_refl)
    as (tokenizer & regexes & encoded & m & dout & Htok & Hre & Henc & Hm
        & Hout & Hpos).
  injection Hre as <-.
  destruct (Hpos 0%nat "train"
              (SDataset [PDict [("text", PStr "ab"); ("title", PStr "ab");
                                ("stars", PInt 5)];
                         PDict [("text", PStr "c"); ("title", PStr "d");
                                ("stars", PInt 1)]])
              0%nat
              (PDict [("text", PStr "ab"); ("title", PStr "ab"); ("stars", PInt 5)])
              [Key "text"] "ab" eq_refl eq_refl eq_refl)
    as (rows' & instance' & Hsplit & Hrow & _ & Hsel).
  destruct (Hsel eq_refl)
    as (i & f & Hi & [_ (ids & types & Hids & Htypes & Hf1 & Hf2)] & Hat).
  exists dout, rows', instance', i, f, ids, types.
  split_and!; assumption.
Defined.

(** Tokenizing "reviews": the result has the two splits of the input. *)
Lemma tokenize_preserves_structure_witness :
  ∃ dout,
    heap (Toy.tokenize_text Toy.elements_order).2 !! 3%positive
      = Some (ObjDataset dout)
    ∧ (splits dout).*1 = ["train"; "test"].
Proof.
  destruct (tokenize_preserves_structure (Ord:=Toy.elements_order)
              "char" 1%positive (Some ["text"]) true (Some 512) false false
              Toy.loaded 3%positive (Toy.tokenize_text Toy.elements_order).2
              Toy.reviews_dataset eq_refl eq_refl)
    as (dout & Hout & Hnames & Hall).
  exists dout. split; [exact Hout|exact Hnames].
Defined.

Lemma toy_piqa_split_names : NoDup Toy.piqa.*1.
Proof. apply (bool_decide_unpack _). reflexivity. Qed.

(** "piqa": the instance for the second training row takes entries 2 and 3
    of the batch encoding of the split, whose inputs are the two pairs of that
    row. *)
Lemma piqa_alternatives_bookkeeping_witness :
  ∃ dout results r f1 f2,
    heap (Toy.piqa_instances_run).2 !! 2%positive = Some (ObjDataset dout)
    ∧ splits dout !! 0%nat = Some ("train", SList (PInstance <$> results))
    ∧ results !! 1%nat = Some r
    ∧ items_getitem (fields r) "alternatives"
      = Ok (FieldList (mkListField [f1; f2]))
    ∧ f1 = mkTransformerTextField (IntTensor [104; 117])
             (Some (IntTensor [0; 1])) None None None (Some 0)
    ∧ f2 = mkTransformerTextField (IntTensor [104; 118])
             (Some (IntTensor [0; 1])) None None None (Some 0)
    ∧ flat_map alternatives
        (piqa_item <$> [mkPiqaRow "g" "s" "t" 1; mkPiqaRow "h" "u" "v" 0])
        !! 2%nat = Some (TextPair "h" "u")
    ∧ flat_map alternatives
        (piqa_item <$> [mkPiqaRow "g" "s" "t" 1; mkPiqaRow "h" "u" "v" 0])
        !! 3%nat = Some (TextPair "h" "v").
Proof.
  destruct (piqa_alternatives_bookkeeping "char" 512 Toy.empty_state 2%positive
              (Toy.piqa_instances_run).2 Toy.piqa 0%nat "train"
              [mkPiqaRow "g" "s" "t" 1; mkPiqaRow "h" "u" "v" 0] 1%nat
              (mkPiqaRow "h" "u" "v" 0)
              eq_refl toy_piqa_split_names eq_refl eq_refl eq_refl)
    as (tokenizer & encoded & dout & results & r & f1 & f2 & _ & Henc & Hin1
        & Hin2 & Hout & Hsplit & _ & Hr & Halts & _ & _ & Hentry).
  injection Henc as <-.
  destruct (Hentry (Toy.encode_one (piqa_options 512))) as [Hf1 Hf2].
  { intros [|[|[|[|j]]]] x Hx; simpl in Hx; by simplify_eq. }
  exists dout, results, r, f1, f2. split_and!; assumption.
Defined.

(** "piqa": the test row has label -1 and its instance has the field
    "alternatives" only; the second training row has label 0 and its instance
    has the index field too. *)
Lemma piqa_correct_alternative_iff_label_witness :
  (∃ dout results r alts,
     heap (Toy.piqa_instances_run).2 !! 2%positive = Some (ObjDataset dout)
     ∧ splits dout !! 1%nat = Some ("test", SList (PInstance <$> results))
     ∧ results !! 0%nat = Some r
     ∧ ¬ (∃ f, items_getitem (fields r) "correct_alternative" = Ok f)
     ∧ fields r = [("alternatives", FieldList alts)])
  ∧ (∃ dout results r alts,
       heap (Toy.piqa_instances_run).2 !! 2%positive = Some (ObjDataset dout)
       ∧ splits dout !! 0%nat = Some ("train", SList (PInstance <$> results))
       ∧ results !! 1%nat = Some r
       ∧ (∃ f, items_getitem (fields r) "correct_alternative" = Ok f)
       ∧ fields r = [("alternatives", FieldList alts);
                     ("correct_alternative", FieldIndex (mkIndexField 0 alts))]).
Proof.
  split.
  - destruct (piqa_correct_alternative_iff_label "char" 512 Toy.empty_state
                2%positive (Toy.piqa_instances_run).2 Toy.piqa 1%nat "test"
                [mkPiqaRow "k" "w" "x" (-1)] 0%nat (mkPiqaRow "k" "w" "x" (-1))
                eq_refl toy_piqa_split_names eq_refl eq_refl eq_refl)
      as (dout & results & r & alts & Hout & Hsplit & Hr & Hiff & _ & Hneg).
    exists dout, results, r, alts. split_and!; try assumption.
    + intros Hf. apply Hiff in Hf. simpl in Hf. lia.
    + apply Hneg. simpl. lia.
  - destruct (piqa_correct_alternative_iff_label "char" 512 Toy.empty_state
                2%positive (Toy.piqa_instances_run).2 Toy.piqa 0%nat "train"
                [mkPiqaRow "g" "s" "t" 1; mkPiqaRow "h" "u" "v" 0] 1%nat
                (mkPiqaRow "h" "u" "v" 0)
                eq_refl toy_piqa_split_names eq_refl eq_refl eq_refl)
      as (dout & results & r & alts & Hout & Hsplit & Hr & Hiff & Hpos & _).
    exists dout, results, r, alts. split_and!; try assumption.
    + apply Hiff. simpl. lia.
    + apply Hpos. simpl. lia.
Defined.



(** C9 fails on the code.  Tokenizing the field "text" of "reviews": the
    field name "title" is not selected, the title of the first training
    instance is the string "ab", which is also the text of that instance, and
    the result holds a field at the position of the title. *)
Lemma unselected_equal_string_is_replaced :
  should_tokenize_field (Some ["text"]) (field_name "" [Key "title"]) = false
  ∧ dataset_value Toy.loaded 1%positive 0 0 [Key "title"] = Some (PStr "ab")
  ∧ dataset_value Toy.loaded 1%positive 0 0 [Key "text"] = Some (PStr "ab")
  ∧ (Toy.tokenize_text Toy.elements_order).1 = Ok 3%positive
  ∧ dataset_value (Toy.tokenize_text Toy.elements_order).2 3%positive 0 0
      [Key "title"]
    = Some (PField (FieldText (mkTransformerTextField (IntTensor [97; 98])
                      (Some (IntTensor [0; 0])) None None None (Some 0)))).
Proof.
  split_and!; reflexivity.
Qed.

(** The fields that the steps build on the concrete instance. *)
Example tokenize_text_first_instance :
  dataset_value (Toy.tokenize_text Toy.elements_order).2 3%positive 0 0 []
  = Some (PDict
            [("text", PField (FieldText
                                (mkTransformerTextField (IntTensor [97; 98])
                                   (Some (IntTensor [0; 0])) None None None
                                   (Some 0))));
             ("title", PField (FieldText
                                 (mkTransformerTextField (IntTensor [97; 98])
                                    (Some (IntTensor [0; 0])) None None None
                                    (Some 0))));
             ("stars", PInt 5)]).
Proof. reflexivity. Qed.

Example tokenize_text_log :
  log (Toy.tokenize_text Toy.elements_order).2 = ["Tokenizing field text"].
Proof. reflexivity. Qed.

Example piqa_second_instance :
  dataset_value (Toy.piqa_instances_run).2 2%positive 0 1 []
  = Some (PInstance
            (mkInstance
               [("alternatives",
                 FieldList
                   (mkListField
                      [mkTransformerTextField (IntTensor [104; 117])
                         (Some (IntTensor [0; 1])) None None None (Some 0);
                       mkTransformerTextField (IntTensor [104; 118])
                         (Some (IntTensor [0; 1])) None None None (Some 0)]));
                ("correct_alternative",
                 FieldIndex
                   (mkIndexField 0
                      (mkListField
                         [mkTransformerTextField (IntTensor [104; 117])
                            (Some (IntTensor [0; 1])) None None None (Some 0);
                          mkTransformerTextField (IntTensor [104; 118])
                            (Some (IntTensor [0; 1])) None None None (Some 0)])))])).
Proof. reflexivity. Qed.

Example text_only_first_split :
  splits <$> (match heap (Toy.text_only).2 !! 2%positive with
              | Some (ObjDataset d) => Some d
              | _ => None
              end)
  = Some [("train", SList [PDict [("text", PStr "ab")];
                           PDict [("text", PInt 5)];
                           PDict [("text", PStr "c")];
                           PDict [("text", PInt 1)]]);
          ("test", SList [PDict [("text", PStr "e")];
                          PDict [("text", PNone)]])].
Proof. reflexivity. Qed.

(** ** The further properties on the concrete instance *)

(** Tokenizing the field "text" of "reviews": the result has no metadata and
    a vocabulary of its own that holds the namespace "text" only. *)
Lemma tokenize_vocabulary_witness :
  ∃ dout l' names,
    heap (Toy.tokenize_text Toy.elements_order).2 !! 3%positive
      = Some (ObjDataset dout)
    ∧ vocab dout = Some l'
    ∧ metadata dout = []
    ∧ NoDup names
    ∧ heap (Toy.tokenize_text Toy.elements_order).2 !! l'
      = Some (ObjVocab
                (foldl (λ v n, add_transformer_vocab (0 : Tokenizer) n v)
                   Vocabulary_empty names)).
Proof.
  destruct (tokenize_vocabulary (Ord:=Toy.elements_order)
              "char" 1%positive (Some ["text"]) true (Some 512) false false
              Toy.loaded 3%positive (Toy.tokenize_text Toy.elements_order).2
              Toy.reviews_dataset eq_refl eq_refl)
    as (tokenizer & regexes & dout & l' & v0 & names & Htok & _ & Hout & Hvocab
        & Hmeta & _ & Hv0 & Hnd & _ & _ & Hl').
  injection Htok as <-.
  change (v0 = Vocabulary_empty) in Hv0. subst v0.
  exists dout, l', names. split_and!; assumption.
Defined.

(** Tokenizing the field "text" of "reviews" adds sorted messages to the log. *)
Lemma tokenize_log_witness :
  ∃ names,
    log (Toy.tokenize_text Toy.elements_order).2
    = log Toy.loaded ++ ((λ n, "Tokenizing field " +:+ n) <$> names)
    ∧ StronglySorted String.le names.
Proof.
  destruct (tokenize_log (Ord:=Toy.elements_order)
              "char" 1%positive (Some ["text"]) true (Some 512) false false
              Toy.loaded 3%positive (Toy.tokenize_text Toy.elements_order).2
              Toy.reviews_dataset eq_refl eq_refl)
    as (regexes & names & _ & Hlog & Hsorted & _).
  exists names. split; assumption.
Defined.

(** The tokenizer of [Toy] returns a row for each of the three texts of
    "reviews" and the run returns; the tokenizer of [Lossy] returns no row for
    the last one and the run raises [IndexError]. *)
Lemma tokenize_batch_rows_witness :
  (∃ out σ',
     Tokenize_run (Ext:=Toy.ext) (Ord:=Toy.elements_order) "char" 1%positive
       (Some ["text"]) true (Some 512) false false Toy.loaded = (Ok out, σ'))
  ∧ (∃ σ',
       Tokenize_run (Ext:=Lossy.ext) (Ord:=Toy.elements_order) "char" 1%positive
         (Some ["text"]) true (Some 512) false false Lossy.loaded
       = (Raise IndexError, σ')
       ∧ heap σ' = heap Lossy.loaded).
Proof.
  split.
  - apply (proj1 (tokenize_batch_rows (Ext:=Toy.ext) (Ord:=Toy.elements_order)
                    "char" (0 : @Tokenizer Toy.ext) 1%positive (Some ["text"])
                    true (Some 512) false false Toy.loaded (Some ["text"])
                    Toy.reviews_dataset
                    (Toy.rows_of (Text <$> ["ab"; "c"; "e"])
                       (tokenize_options true (Some 512) false false))
                    eq_refl eq_refl eq_refl eq_refl
                    (λ l (H : None = Some l), False_ind _ (eq_ind None
                       (λ o, match o with None => True | Some _ => False end)
                       I _ H))
                    eq_refl eq_refl)).
    intros [|[|[|j]]] Hj; [reflexivity..|].
    exfalso. change (S (S (S j)) < 3)%nat in Hj. lia.
  - assert (encoding_int32
              (Toy.rows_of (Text <$> ["ab"; "c"])
                 (tokenize_options true (Some 512) false false)) = true)
      as Hrange by reflexivity.
    apply (proj2 (tokenize_batch_rows (Ext:=Lossy.ext) (Ord:=Toy.elements_order)
                    "char" (0 : @Tokenizer Lossy.ext) 1%positive (Some ["text"])
                    true (Some 512) false false Lossy.loaded (Some ["text"])
                    Toy.reviews_dataset
                    (Toy.rows_of (Text <$> ["ab"; "c"])
                       (tokenize_options true (Some 512) false false))
                    eq_refl eq_refl eq_refl eq_refl
                    (λ l (H : None = Some l), False_ind _ (eq_ind None
                       (λ o, match o with None => True | Some _ => False end)
                       I _ H))
                    eq_refl Hrange)).
    exists 2%nat. split; [exact (le_n 3)|reflexivity].
Defined.

(** The string "ab" collected twice: the mapping has the keys "ab" and "c",
    and the field of "ab" is the one of entry 2. *)
Lemma string_to_field_spec_witness :
  ∃ m,
    make_string_to_field (0 : Tokenizer)
      (Toy.rows_of (Text <$> ["ab"; "c"; "ab"])
         (tokenize_options true (Some 512) false false))
      ["ab"; "c"; "ab"] 0 ∅ = Ok m
    ∧ (∀ s, is_Some (m !! s) ↔ s ∈ ["ab"; "c"; "ab"]).
Proof.
  assert (∃ m, make_string_to_field (0 : Tokenizer)
                 (Toy.rows_of (Text <$> ["ab"; "c"; "ab"])
                    (tokenize_options true (Some 512) false false))
                 ["ab"; "c"; "ab"] 0 ∅ = Ok m) as [m Hm]
    by (eexists; reflexivity).
  exists m. split; [exact Hm|].
  apply (string_to_field_spec (Ext:=Toy.ext) (0 : @Tokenizer Toy.ext)
           (Toy.rows_of (Text <$> ["ab"; "c"; "ab"])
              (tokenize_options true (Some 512) false false))
           ["ab"; "c"; "ab"] m Hm).
Defined.

(** Tokenizing "reviews" with the empty list of fields logs nothing. *)
Lemma tokenize_empty_selection_witness :
  ∃ dout,
    heap (Tokenize_run (Ord:=Toy.elements_order) "char" 1%positive (Some [])
            true (Some 512) false false Toy.loaded).2 !! 3%positive
    = Some (ObjDataset dout)
    ∧ splits dout
      = (λ kv, (kv.1, SList (materialize <$> split_items kv.2)))
          <$> splits Toy.reviews_dataset
    ∧ log (Tokenize_run (Ord:=Toy.elements_order) "char" 1%positive (Some [])
             true (Some 512) false false Toy.loaded).2
      = log Toy.loaded.
Proof.
  destruct (tokenize_empty_selection (Ord:=Toy.elements_order)
              "char" 1%positive true (Some 512) false false
              Toy.loaded 3%positive
              (Tokenize_run (Ord:=Toy.elements_order) "char" 1%positive (Some [])
                 true (Some 512) false false Toy.loaded).2
              Toy.reviews_dataset eq_refl eq_refl)
    as (tokenizer & encoded & dout & l' & v0 & _ & _ & Hout & Hsplits & _ & _ & _
        & Hlog).
  exists dout. split_and!; assumption.
Defined.

(** The second instance of the dataset of [Toy.notes] is a string, which has
    no [items]. *)
Lemma text_only_attribute_error_witness :
  TextOnlyDataset_run 1%positive {["text"]} Toy.notes
  = (Raise (AttributeError "items"), Toy.notes).
Proof.
  apply (proj2 (text_only_attribute_error (Ext:=Toy.ext) 1%positive {["text"]}
                  Toy.notes Toy.notes_dataset eq_refl)).
  exists ("train", SList [PDict [("text", PStr "a")]; PStr "b"]), (PStr "b").
  split_and!.
  - constructor.
  - simpl. constructor. constructor.
  - intros items H. discriminate H.
Defined.

(** Keeping no field of "reviews": the two splits come back empty. *)
Lemma text_only_nothing_kept_witness :
  ∃ dout,
    heap (TextOnlyDataset_run 1%positive ∅ Toy.loaded).2 !! 2%positive
    = Some (ObjDataset dout)
    ∧ splits dout = [("train", SList []); ("test", SList [])].
Proof.
  apply (text_only_nothing_kept (Ext:=Toy.ext) 1%positive ∅ Toy.loaded 2%positive
           (TextOnlyDataset_run 1%positive ∅ Toy.loaded).2 Toy.reviews_dataset
           eq_refl).
  - intros kv instance items name v _ _ _ _. apply not_elem_of_empty.
  - reflexivity.
Defined.

(** [TextOnlyDataset.run] on the result of [Toy.text_only], keeping "title". *)
Lemma text_only_twice_witness :
  ∃ d1 out2 σ2 d2,
    heap (Toy.text_only).2 !! 2%positive = Some (ObjDataset d1)
    ∧ TextOnlyDataset_run 2%positive {["title"]} (Toy.text_only).2 = (Ok out2, σ2)
    ∧ heap σ2 !! out2 = Some (ObjDataset d2)
    ∧ vocab d2 = vocab d1.
Proof.
  destruct (text_only_twice (Ext:=Toy.ext) 1%positive {["text"; "stars"]}
              {["title"]} Toy.loaded 2%positive (Toy.text_only).2 eq_refl)
    as (d1 & out2 & σ2 & d2 & Hd1 & Hrun & Hd2 & _ & Hvocab & _).
  exists d1, out2, σ2, d2. split_and!; assumption.
Defined.

(** A [max_length] that the tokenizer refuses: the run fails after it
    logged, and the store holds what it held. *)
Lemma failed_run_leaves_store_witness :
  heap (run (Ord:=Toy.elements_order)
          (hf_tokenizer "char" 1%positive None true (Some (-1)) false false)
          Toy.loaded).2
  = heap Toy.loaded.
Proof.
  apply (failed_run_leaves_store (Ext:=Toy.ext) (Ord:=Toy.elements_order)
           (hf_tokenizer "char" 1%positive None true (Some (-1)) false false)
           Toy.loaded (LibraryError "max_length")
           (run (Ord:=Toy.elements_order)
              (hf_tokenizer "char" 1%positive None true (Some (-1)) false false)
              Toy.loaded).2
           eq_refl).
Defined.

(** From the empty store, loading "reviews" and tokenizing it leave stores
    in which every dataset refers to a vocabulary of the store. *)
Lemma run_keeps_store_ok_witness :
  store_ok Toy.loaded ∧ store_ok (Toy.tokenize_text Toy.elements_order).2.
Proof.
  assert (store_ok Toy.empty_state) as H0.
  { intros l d lv Hl. unfold Toy.empty_state in Hl. cbn [heap] in Hl.
    rewrite lookup_empty in Hl. discriminate Hl. }
  destruct (run_keeps_store_ok (Ext:=Toy.ext) (Ord:=Toy.elements_order)
              (hf_dataset "reviews") Toy.empty_state
              (Ok 1%positive) Toy.loaded H0 eq_refl) as [H1 _].
  destruct (run_keeps_store_ok (Ext:=Toy.ext) (Ord:=Toy.elements_order)
              (hf_tokenizer "char" 1%positive (Some ["text"]) true (Some 512)
                 false false)
              Toy.loaded (Ok 3%positive) (Toy.tokenize_text Toy.elements_order).2
              H1 eq_refl) as [H2 _].
  split; assumption.
Defined.

(** "piqa": with the tokenizer of [Toy] every pair has its row and the run
    returns; with the one of [Lossy] the row of the last pair of a split is
    missing and the run raises [IndexError]. *)
Lemma piqa_batch_rows_witness :
  (∃ out σ', PiqaInstances_run (Ext:=Toy.ext) "char" 512 Toy.empty_state
             = (Ok out, σ'))
  ∧ PiqaInstances_run (Ext:=Lossy.ext) "char" 512 Lossy.empty_state
    = (Raise IndexError, Lossy.empty_state).
Proof.
  split.
  - apply (proj1 (piqa_batch_rows (Ext:=Toy.ext) "char" (0 : @Tokenizer Toy.ext)
                    512 Toy.empty_state Toy.piqa eq_refl eq_refl eq_refl
                    toy_piqa_split_names
                    ltac:(intros kv Hkv;
                          apply elem_of_cons in Hkv as [->|Hkv];
                            [eexists; split; reflexivity|];
                          apply elem_of_cons in Hkv as [->|Hkv];
                            [eexists; split; reflexivity|];
                          by apply elem_of_nil in Hkv))).
    intros kv encoded j Hkv Henc Hj.
    apply elem_of_cons in Hkv as [->|Hkv].
    { change (Ok (Toy.rows_of
                    (flat_map alternatives
                       (piqa_item <$> [mkPiqaRow "g" "s" "t" 1;
                                       mkPiqaRow "h" "u" "v" 0]))
                    (piqa_options 512)) = Ok encoded) in Henc.
      injection Henc as <-.
      destruct j as [|[|[|[|j]]]]; [reflexivity..|].
      exfalso. change (S (S (S (S j))) < 4)%nat in Hj. lia. }
    apply elem_of_cons in Hkv as [->|Hkv]; [|by apply elem_of_nil in Hkv].
    change (Ok (Toy.rows_of
                  (flat_map alternatives
                     (piqa_item <$> [mkPiqaRow "k" "w" "x" (-1)]))
                  (piqa_options 512)) = Ok encoded) in Henc.
    injection Henc as <-.
    destruct j as [|[|j]]; [reflexivity..|].
    exfalso. change (S (S j) < 2)%nat in Hj. lia.
  - apply (proj2 (piqa_batch_rows (Ext:=Lossy.ext) "char"
                    (0 : @Tokenizer Lossy.ext) 512 Lossy.empty_state Toy.piqa
                    eq_refl eq_refl eq_refl toy_piqa_split_names
                    ltac:(intros kv Hkv;
                          apply elem_of_cons in Hkv as [->|Hkv];
                            [eexists; split; reflexivity|];
                          apply elem_of_cons in Hkv as [->|Hkv];
                            [eexists; split; reflexivity|];
                          by apply elem_of_nil in Hkv))).
    exists ("test", [mkPiqaRow "k" "w" "x" (-1)]).
    exists (Toy.rows_of [TextPair "k" "w"] (piqa_options 512)), 1%nat.
    split_and!.
    + do 2 constructor.
    + reflexivity.
    + exact (le_n 2).
    + reflexivity.
Defined.

(** "piqa": the result has the splits "train" and "test", no metadata, and a
    vocabulary with the namespace "tokens". *)
Lemma piqa_output_dataset_witness :
  ∃ dout l',
    heap (Toy.piqa_instances_run).2 !! 2%positive = Some (ObjDataset dout)
    ∧ vocab dout = Some l'
    ∧ metadata dout = []
    ∧ (splits dout).*1 = ["train"; "test"]
    ∧ heap (Toy.piqa_instances_run).2 !! l'
      = Some (ObjVocab (add_transformer_vocab (0 : Tokenizer) "tokens"
                          Vocabulary_empty)).
Proof.
  destruct (piqa_output_dataset (Ext:=Toy.ext) "char" 512 Toy.empty_state
              2%positive (Toy.piqa_instances_run).2 Toy.piqa eq_refl
              toy_piqa_split_names eq_refl)
    as (tokenizer & dout & l' & Htok & _ & _ & Hne & Hheap & _ & Hvocab & Hmeta
        & Hsplits).
  injection Htok as <-.
  exists dout, l'. rewrite Hheap. split_and!.
  - apply lookup_insert_eq.
  - exact Hvocab.
  - exact Hmeta.
  - change ["train"; "test"] with (Toy.piqa.*1).
    clear -Hsplits. induction Hsplits as [|? ? ? ? [Hname _] _ IH]; [done|].
    rewrite !fmap_cons. by f_equal.
  - rewrite lookup_insert_ne by done. apply lookup_insert_eq.
Defined.

(** Tokenizing the field "text" of "reviews" and then the result again: the
    second run finds no string to tokenize and returns the same splits. *)
Lemma tokenize_twice_witness :
  ∃ d1 out2 σ2 d2,
    heap (Toy.tokenize_text Toy.elements_order).2 !! 3%positive
      = Some (ObjDataset d1)
    ∧ found_in (Some ["text"]) d1 = []
    ∧ Tokenize_run (Ord:=Toy.elements_order) "char" 3%positive (Some ["text"])
        true (Some 512) false false (Toy.tokenize_text Toy.elements_order).2
      = (Ok out2, σ2)
    ∧ heap σ2 !! out2 = Some (ObjDataset d2)
    ∧ splits d2 = splits d1
    ∧ log σ2 = log (Toy.tokenize_text Toy.elements_order).2.
Proof.
  destruct (tokenize_twice (Ext:=Toy.ext) (Ord:=Toy.elements_order)
              "char" 1%positive (Some ["text"]) true (Some 512) false false
              Toy.loaded 3%positive (Toy.tokenize_text Toy.elements_order).2
              Toy.reviews_dataset eq_refl)
    as (regexes & d1 & l1 & v1 & out2 & σ2 & d2 & l2 & Hre & Hd1 & _ & _ & Hnone
        & Hrun & Hd2 & Hsplits & _ & _ & _ & _ & Hlog).
  - intros kv instance Hkv Hin.
    apply elem_of_cons in Hkv as [->|Hkv].
    { apply elem_of_cons in Hin as [->|Hin]; [reflexivity|].
      apply elem_of_cons in Hin as [->|Hin]; [reflexivity|].
      by apply elem_of_nil in Hin. }
    apply elem_of_cons in Hkv as [->|Hkv]; [|by apply elem_of_nil in Hkv].
    apply elem_of_cons in Hin as [->|Hin]; [reflexivity|].
    by apply elem_of_nil in Hin.
  - reflexivity.
  - intros tokenizer _. eexists. reflexivity.
  - injection Hre as <-.
    exists d1, out2, σ2, d2. split_and!; assumption.
Defined.

(** Keeping "text" and "stars" of "reviews" and tokenizing the result: the
    strings are collected under names that start with "text". *)
Lemma text_only_then_tokenize_witness :
  ∃ d1 d2,
    heap (Toy.text_only).2 !! 2%positive = Some (ObjDataset d1)
    ∧ heap (Tokenize_run (Ord:=Toy.elements_order) "char" 2%positive None true
              (Some 512) false false (Toy.text_only).2).2 !! 4%positive
      = Some (ObjDataset d2)
    ∧ (∀ field s, (field, s) ∈ found_in None d1 →
                  ∃ path, field = "text" +:+ dotted_path path)
    ∧ (splits d2).*1 = (splits d1).*1.
Proof.
  destruct (text_only_then_tokenize (Ext:=Toy.ext) (Ord:=Toy.elements_order)
              1%positive {["text"; "stars"]} "char" None true (Some 512) false
              false Toy.loaded 2%positive (Toy.text_only).2 4%positive
              (Tokenize_run (Ord:=Toy.elements_order) "char" 2%positive None true
                 (Some 512) false false (Toy.text_only).2).2
              eq_refl eq_refl)
    as (regexes & d1 & d2 & Hre & Hd1 & Hd2 & Hnames & Hsplits & _).
  injection Hre as <-.
  exists d1, d2. split_and!; assumption.
Defined.

(** Loading "reviews" returns a dataset at a new location; loading a dataset
    that the library does not know fails with the exception of the library. *)
Lemma hf_dataset_then_steps_witness :
  (∃ l σ0,
     HuggingfaceDataset_run "reviews" Toy.empty_state = (Ok l, σ0)
     ∧ l ∉ dom (heap Toy.empty_state))
  ∧ HuggingfaceDataset_run "news" Toy.empty_state
    = (Raise (LibraryError "unknown dataset"), Toy.empty_state).
Proof.
  split.
  - destruct (hf_dataset_then_steps (Ext:=Toy.ext) (Ord:=Toy.elements_order)
                "reviews" Toy.empty_state) as (l & σ0 & Hrun & Hl & _).
    exists l, σ0. split; assumption.
  - exact (hf_dataset_then_steps (Ext:=Toy.ext) (Ord:=Toy.elements_order)
             "news" Toy.empty_state).
Defined.

(** The text "ab" of the first training instance of "reviews" is collected
    under the name "text". *)
Lemma found_strings_spec_witness :
  ("text", "ab") ∈ found_in (Some ["text"]) Toy.reviews_dataset
  ∧ lstrip_dot "text" = "text".
Proof.
  destruct (found_strings_spec
              (should_tokenize_field (Ext:=Toy.ext)
                 (Some ["text"] : option (list (@Regex Toy.ext))))
              (splits Toy.reviews_dataset) "text" "ab") as [Hiff Hstrip].
  assert (("text", "ab") ∈ found_in (Some ["text"]) Toy.reviews_dataset) as Hin.
  { apply Hiff.
    exists 0%nat, "train",
      (SDataset [PDict [("text", PStr "ab"); ("title", PStr "ab");
                        ("stars", PInt 5)];
                 PDict [("text", PStr "c"); ("title", PStr "d");
                        ("stars", PInt 1)]]),
      0%nat,
      (PDict [("text", PStr "ab"); ("title", PStr "ab"); ("stars", PInt 5)]),
      [Key "text"].
    split_and!; try reflexivity.
    eapply reaches_dict; [constructor|constructor]. }
  split; [exact Hin|exact (Hstrip Hin)].
Defined.

End Examples.
